(** * tp_task_queue: the scheduler core of [TaskQueue.cpp]

    A shallow embedding of [src/TaskQueue.cpp].  The members of
    [TaskQueue::Private] become the fields of one record, the
    [TaskDetails_lt] objects live in a heap keyed by allocation identity
    (the registry [tasks] is a vector of pointers and the workers keep a
    pointer across the unlocked call of [performTask]), and every call that
    leaves the scheduler (into a [Task], a wait condition or the list of
    status callbacks) is appended to a trace of events.

    The first part gives the code of each member function as a function on
    that state.  The second part puts them together as a transition system
    of worker threads, the housekeeping thread, the destructor and the
    callers, one transition per stretch of code between two points where a
    thread can be interleaved. *)

From stdpp Require Import gmap list strings pretty.
From Stdlib Require Import ZArith Lia.

Local Open Scope Z_scope.
Local Set Warnings "-clear-no-such-hyp".

(** ** 64-bit signed integers ([int64_t]) *)

Definition INT64_MAX : Z := 9223372036854775807.
Definition INT64_MIN : Z := -9223372036854775808.

Definition in_int64 (z : Z) : Prop := INT64_MIN ≤ z ≤ INT64_MAX.

(** Two's complement wrap-around of a mathematical result. *)
Definition wrap64 (z : Z) : Z := (z + 2 ^ 63) `mod` 2 ^ 64 - 2 ^ 63.

Definition add64 (a b : Z) : Z := wrap64 (a + b).
Definition sub64 (a b : Z) : Z := wrap64 (a - b).

(** [tpMax] *)
Definition tpMax (a b : Z) : Z := if a <? b then b else a.

(** Identity of a [TaskDetails_lt] allocation.  An identity is never handed
    out twice, so that "destroyed once" can be counted per object. *)
Abbreviation ptr := positive.

(** Identity of a registered [const std::function<void()>*]. *)
Abbreviation callback := nat.

(** ** TaskStatus *)

Module TaskStatus.
Record t : Type := mk {
  taskID : Z;
  message : string;
  paused : bool;
  complete : bool;
  rev : Z
}.

Definition set_message (m : string) (ts : t) : t :=
  mk (taskID ts) m (paused ts) (complete ts) (rev ts).
Definition set_complete (c : bool) (ts : t) : t :=
  mk (taskID ts) (message ts) (paused ts) c (rev ts).
Definition set_rev (r : Z) (ts : t) : t :=
  mk (taskID ts) (message ts) (paused ts) (complete ts) r.

Global Instance eq_dec : EqDecision t.
Proof. solve_decision. Defined.
End TaskStatus.

(** ** Task *)

Inductive RunAgain : Type := Yes | No.

Module Task.
(** Modelled from the spec: the class [Task] ([Task.h], [Task.cpp]) is not
    among the sources.  Section 3 of the specification lists what a task
    exposes: [taskID()], [paused()]/[setPaused(bool)], [timeoutMS()],
    [timeoutMessage()], [taskStatus()], the back-reference set by
    [setTaskQueue] and the callback set by [setStatusChangedCallback].
    [performTask], [cancelTask] and [updateTaskStatus] are calls into
    foreign code: they are recorded in the trace, and what [performTask]
    does to the task is left open (see [performTask_returns]). *)
Record t : Type := mk {
  taskID : Z;
  paused : bool;
  timeoutMS : Z;
  timeoutMessage : string;
  taskStatus : TaskStatus.t;
  taskQueue : bool;
  statusChangedCallback : bool
}.

Definition setPaused (b : bool) (x : t) : t :=
  mk (taskID x) b (timeoutMS x) (timeoutMessage x) (taskStatus x)
     (taskQueue x) (statusChangedCallback x).
Definition setTaskQueue (x : t) : t :=
  mk (taskID x) (paused x) (timeoutMS x) (timeoutMessage x) (taskStatus x)
     true (statusChangedCallback x).
Definition setStatusChangedCallback (x : t) : t :=
  mk (taskID x) (paused x) (timeoutMS x) (timeoutMessage x) (taskStatus x)
     (taskQueue x) true.
End Task.

(** ** TaskDetails_lt *)

Record TaskDetails_lt : Type := mkTaskDetails {
  task : Task.t;
  nextRun : Z;
  active : bool
}.

Definition set_nextRun (n : Z) (td : TaskDetails_lt) : TaskDetails_lt :=
  mkTaskDetails (task td) n (active td).
Definition set_active (a : bool) (td : TaskDetails_lt) : TaskDetails_lt :=
  mkTaskDetails (task td) (nextRun td) a.
Definition set_task (x : Task.t) (td : TaskDetails_lt) : TaskDetails_lt :=
  mkTaskDetails x (nextRun td) (active td).

(** ** Calls that leave the scheduler *)

Inductive Event : Type :=
| EvSetTaskQueue (id : Z)                (* task->setTaskQueue(this) *)
| EvSetStatusChangedCallback (p : ptr)   (* task->setStatusChangedCallback *)
| EvWakeOne                              (* waitCondition.wakeOne() *)
| EvWakeAll                              (* waitCondition.wakeAll() *)
| EvWait (w : Z)                         (* waitCondition.wait(lock, w) *)
| EvThreadFinished                       (* threadFinishedWaitCondition.wakeAll() *)
| EvStatusChanged (cbs : list callback)  (* taskStatusChanged(): callbacks run *)
| EvCancelTask (p : ptr)                 (* task->cancelTask() *)
| EvSetPaused (p : ptr) (b : bool)       (* task->setPaused(b) *)
| EvPerformTask (p : ptr)                (* task->performTask() *)
| EvUpdateTaskStatus (p : ptr) (ts : TaskStatus.t)
| EvDelete (p : ptr).                    (* delete taskDetails *)

Global Instance Event_eq_dec : EqDecision Event.
Proof. solve_decision. Defined.

(** ** TaskQueue::Private and the free store *)

Record State : Type := mkState {
  (* members of TaskQueue::Private *)
  tasks : list ptr;
  nextTaskIndex : nat;
  workDone : bool;
  waitFor : Z;
  taskStatuses : list TaskStatus.t;
  statusChangedCallbacks : list callback;
  numberOfTaskThreads : nat;
  numberOfActiveTaskThreads : nat;
  finish : bool;
  (* the TaskDetails_lt objects that were allocated and not yet deleted *)
  heap : gmap ptr TaskDetails_lt;
  next_ptr : ptr;
  (* the calls made so far, oldest first *)
  trace : list Event
}.

Definition set_tasks (x : list ptr) (s : State) : State :=
  mkState x (nextTaskIndex s) (workDone s) (waitFor s) (taskStatuses s)
    (statusChangedCallbacks s) (numberOfTaskThreads s)
    (numberOfActiveTaskThreads s) (finish s) (heap s) (next_ptr s) (trace s).
Definition set_nextTaskIndex (x : nat) (s : State) : State :=
  mkState (tasks s) x (workDone s) (waitFor s) (taskStatuses s)
    (statusChangedCallbacks s) (numberOfTaskThreads s)
    (numberOfActiveTaskThreads s) (finish s) (heap s) (next_ptr s) (trace s).
Definition set_workDone (x : bool) (s : State) : State :=
  mkState (tasks s) (nextTaskIndex s) x (waitFor s) (taskStatuses s)
    (statusChangedCallbacks s) (numberOfTaskThreads s)
    (numberOfActiveTaskThreads s) (finish s) (heap s) (next_ptr s) (trace s).
Definition set_waitFor (x : Z) (s : State) : State :=
  mkState (tasks s) (nextTaskIndex s) (workDone s) x (taskStatuses s)
    (statusChangedCallbacks s) (numberOfTaskThreads s)
    (numberOfActiveTaskThreads s) (finish s) (heap s) (next_ptr s) (trace s).
Definition set_taskStatuses (x : list TaskStatus.t) (s : State) : State :=
  mkState (tasks s) (nextTaskIndex s) (workDone s) (waitFor s) x
    (statusChangedCallbacks s) (numberOfTaskThreads s)
    (numberOfActiveTaskThreads s) (finish s) (heap s) (next_ptr s) (trace s).
Definition set_statusChangedCallbacks (x : list callback) (s : State) : State :=
  mkState (tasks s) (nextTaskIndex s) (workDone s) (waitFor s) (taskStatuses s)
    x (numberOfTaskThreads s)
    (numberOfActiveTaskThreads s) (finish s) (heap s) (next_ptr s) (trace s).
Definition set_numberOfTaskThreads (x : nat) (s : State) : State :=
  mkState (tasks s) (nextTaskIndex s) (workDone s) (waitFor s) (taskStatuses s)
    (statusChangedCallbacks s) x
    (numberOfActiveTaskThreads s) (finish s) (heap s) (next_ptr s) (trace s).
Definition set_numberOfActiveTaskThreads (x : nat) (s : State) : State :=
  mkState (tasks s) (nextTaskIndex s) (workDone s) (waitFor s) (taskStatuses s)
    (statusChangedCallbacks s) (numberOfTaskThreads s)
    x (finish s) (heap s) (next_ptr s) (trace s).
Definition set_finish (x : bool) (s : State) : State :=
  mkState (tasks s) (nextTaskIndex s) (workDone s) (waitFor s) (taskStatuses s)
    (statusChangedCallbacks s) (numberOfTaskThreads s)
    (numberOfActiveTaskThreads s) x (heap s) (next_ptr s) (trace s).
Definition set_heap (x : gmap ptr TaskDetails_lt) (s : State) : State :=
  mkState (tasks s) (nextTaskIndex s) (workDone s) (waitFor s) (taskStatuses s)
    (statusChangedCallbacks s) (numberOfTaskThreads s)
    (numberOfActiveTaskThreads s) (finish s) x (next_ptr s) (trace s).
Definition set_next_ptr (x : ptr) (s : State) : State :=
  mkState (tasks s) (nextTaskIndex s) (workDone s) (waitFor s) (taskStatuses s)
    (statusChangedCallbacks s) (numberOfTaskThreads s)
    (numberOfActiveTaskThreads s) (finish s) (heap s) x (trace s).

(** Append one call to the trace. *)
Definition emit (e : Event) (s : State) : State :=
  mkState (tasks s) (nextTaskIndex s) (workDone s) (waitFor s) (taskStatuses s)
    (statusChangedCallbacks s) (numberOfTaskThreads s)
    (numberOfActiveTaskThreads s) (finish s) (heap s) (next_ptr s)
    (trace s ++ [e]).

(** Append several calls. *)
Definition emits (es : list Event) (s : State) : State :=
  mkState (tasks s) (nextTaskIndex s) (workDone s) (waitFor s) (taskStatuses s)
    (statusChangedCallbacks s) (numberOfTaskThreads s)
    (numberOfActiveTaskThreads s) (finish s) (heap s) (next_ptr s)
    (trace s ++ es).

(** Write through a [TaskDetails_lt*]. *)
Definition store (p : ptr) (td : TaskDetails_lt) (s : State) : State :=
  set_heap (<[p := td]> (heap s)) s.

(** [Private(threadName, nThreads)]: the member initialisers. *)
Definition Private (nThreads : nat) : State :=
  mkState [] 0%nat false INT64_MAX [] [] nThreads 0%nat false ∅ 1%positive [].

(** The task identifier stored behind a registry pointer. *)
Definition taskID_of (s : State) (p : ptr) : option Z :=
  (λ td, Task.taskID (task td)) <$> heap s !! p.

(** ** taskStatusChanged (lines 73-78) *)

Definition taskStatusChanged (s : State) : State :=
  emit (EvStatusChanged (statusChangedCallbacks s)) s.

(** ** The callback installed by addTask (lines 302-317) *)

(** The loop over the mirror: the first status with the pushed [taskID] is
    assigned the pushed status and gets its own [rev] back; then [break]. *)
Fixpoint overwriteStatus (taskStatus : TaskStatus.t)
    (l : list TaskStatus.t) : list TaskStatus.t :=
  match l with
  | [] => []
  | ts :: l' =>
      if TaskStatus.taskID ts =? TaskStatus.taskID taskStatus
      then TaskStatus.set_rev (TaskStatus.rev ts) taskStatus :: l'
      else ts :: overwriteStatus taskStatus l'
  end.

Definition statusChangedCallback (taskStatus : TaskStatus.t) (s : State) : State :=
  taskStatusChanged
    (set_taskStatuses (overwriteStatus taskStatus (taskStatuses s)) s).

(** ** addTask (lines 287-319)

    [now] is what [tp_utils::currentTimeMS()] returns at line 294. *)
Definition addTask (now : Z) (t : Task.t) (s : State) : State :=
  let s := emit (EvSetTaskQueue (Task.taskID t)) s in
  let t := Task.setTaskQueue t in
  let taskDetails := next_ptr s in
  let s := set_next_ptr (Pos.succ taskDetails) s in
  let s := store taskDetails
             (mkTaskDetails t (add64 now (Task.timeoutMS t)) false) s in
  let s := set_tasks (tasks s ++ [taskDetails]) s in
  let s := emit EvWakeOne s in
  let s := set_taskStatuses (taskStatuses s ++ [Task.taskStatus t]) s in
  let s := store taskDetails
             (mkTaskDetails (Task.setStatusChangedCallback t)
                (add64 now (Task.timeoutMS t)) false) s in
  let s := emit (EvSetStatusChangedCallback taskDetails) s in
  taskStatusChanged s.

(** ** cancelTask, pauseTask, togglePauseTask (lines 322-364) *)

(** The linear scan shared by the three functions: the first registry
    entry whose task has the given identifier. *)
Fixpoint findTask (h : gmap ptr TaskDetails_lt) (taskID : Z)
    (l : list ptr) : option (ptr * TaskDetails_lt) :=
  match l with
  | [] => None
  | p :: l' =>
      match h !! p with
      | Some td =>
          if Task.taskID (task td) =? taskID then Some (p, td)
          else findTask h taskID l'
      | None => findTask h taskID l'
      end
  end.

Definition cancelTask (taskID : Z) (s : State) : State :=
  match findTask (heap s) taskID (tasks s) with
  | Some (p, _) => emit EvWakeAll (emit (EvCancelTask p) s)
  | None => s
  end.

Definition pauseTask (taskID : Z) (paused : bool) (s : State) : State :=
  match findTask (heap s) taskID (tasks s) with
  | Some (p, td) =>
      emit EvWakeAll
        (emit (EvSetPaused p paused)
           (store p (set_task (Task.setPaused paused (task td)) td) s))
  | None => s
  end.

Definition togglePauseTask (taskID : Z) (s : State) : State :=
  match findTask (heap s) taskID (tasks s) with
  | Some (p, td) =>
      let paused := negb (Task.paused (task td)) in
      emit EvWakeAll
        (emit (EvSetPaused p paused)
           (store p (set_task (Task.setPaused paused (task td)) td) s))
  | None => s
  end.

(** ** addStatusChangedCallback, removeStatusChangedCallback (lines 374-385) *)

(** [tpRemoveOne]: erase the first element equal to [x]. *)
Fixpoint tpRemoveOne {A} `{EqDecision A} (x : A) (l : list A) : list A :=
  match l with
  | [] => []
  | y :: l' => if decide (y = x) then l' else y :: tpRemoveOne x l'
  end.

Definition addStatusChangedCallback (c : callback) (s : State) : State :=
  set_statusChangedCallbacks (statusChangedCallbacks s ++ [c]) s.

Definition removeStatusChangedCallback (c : callback) (s : State) : State :=
  set_statusChangedCallbacks (tpRemoveOne c (statusChangedCallbacks s)) s.

(** [viewTaskStatus] (lines 367-371): the closure sees the mirror. *)
Definition viewTaskStatus {A} (closure : list TaskStatus.t → A) (s : State) : A :=
  closure (taskStatuses s).

(** ** updateWaitingMessages (lines 81-117) *)

(** Lines 100-105: the text written into the matching mirror entry [ts];
    [timeToRun] is already in whole seconds. *)
Definition waitingMessage (ts : TaskStatus.t) (timeToRun : Z)
    (timeoutMessage : string) : string :=
  if TaskStatus.paused ts then "Paused."
  else if timeToRun =? 0 then "Waiting for thread."
  else timeoutMessage +:+ pretty timeToRun.

(** Lines 96-109: the loop over the mirror, with the value of [changed]
    that it leaves behind. *)
Fixpoint rewriteMessage (taskID timeToRun : Z) (timeoutMessage : string)
    (l : list TaskStatus.t) : list TaskStatus.t * bool :=
  match l with
  | [] => ([], false)
  | ts :: l' =>
      if TaskStatus.taskID ts =? taskID
      then (TaskStatus.set_message
              (waitingMessage ts timeToRun timeoutMessage) ts :: l', true)
      else let '(l'', changed) :=
             rewriteMessage taskID timeToRun timeoutMessage l' in
           (ts :: l'', changed)
  end.

(** The condition of line 89. *)
Definition waiting (taskDetails : TaskDetails_lt) : bool :=
  negb (active taskDetails)
  && ((0 <? nextRun taskDetails) || Task.paused (task taskDetails)).

(** Lines 89-111: the body of the loop over the registry for the entry
    behind [p]; [now] is what [currentTimeMS()] returns at line 91. *)
Definition updateWaitingMessage (now : Z) (p : ptr)
    (c : State * bool) : State * bool :=
  let '(s, changed) := c in
  match heap s !! p with
  | None => (s, changed)
  | Some taskDetails =>
      if waiting taskDetails then
        let timeToRun := sub64 (nextRun taskDetails) now in
        let s := if timeToRun <? 0
                 then store p (set_nextRun 0 taskDetails) s else s in
        let timeToRun := tpMax 0 (timeToRun `quot` 1000) in
        let '(l, found) :=
          rewriteMessage (Task.taskID (task taskDetails)) timeToRun
            (Task.timeoutMessage (task taskDetails)) (taskStatuses s) in
        (set_taskStatuses l s, changed || found)
      else (s, changed)
  end.

(** Lines 87-112: [clock i] is the time read while the loop is at the
    [i]-th registry entry. *)
Fixpoint sweepWaitingMessages (clock : nat → Z) (i : nat) (l : list ptr)
    (c : State * bool) : State * bool :=
  match l with
  | [] => c
  | p :: l' =>
      sweepWaitingMessages clock (S i) l' (updateWaitingMessage (clock i) p c)
  end.

(** The part of [updateWaitingMessages] under the registry mutex. *)
Definition updateWaitingMessages_locked (clock : nat → Z) (s : State)
    : State * bool :=
  sweepWaitingMessages clock 0 (tasks s) (s, false).

(** Lines 115-116. *)
Definition updateWaitingMessages_notify (changed : bool) (s : State) : State :=
  if changed then taskStatusChanged s else s.

Definition updateWaitingMessages (clock : nat → Z) (s : State) : State :=
  let '(s, changed) := updateWaitingMessages_locked clock s in
  updateWaitingMessages_notify changed s.

(** ** The worker thread (lines 125-214) *)

(** Where a worker is after a stretch of code run under the mutex. *)
Inductive Next : Type :=
| NextIteration               (* at [while(!finish)], mutex held *)
| NextResweep                 (* the same, reached through line 209 *)
| NextPerform (p : ptr)       (* mutex released at line 155 *)
| NextFinalize (p : ptr)      (* mutex released at line 184 *)
| NextWait (w : Z)            (* inside [waitCondition.wait], line 207 *)
| NextExit.                   (* left the loop, lines 212-213 done *)

(** Lines 199-210. *)
Definition endOfSweep (s : State) : State * Next :=
  if (length (tasks s) <=? nextTaskIndex s)%nat then
    let w := waitFor s in
    let s := set_waitFor INT64_MAX (set_nextTaskIndex 0%nat s) in
    if negb (workDone s) then (emit (EvWait w) s, NextWait w)
    else (set_workDone false s, NextResweep)
  else (s, NextIteration).

(** Lines 212-213. *)
Definition workerExit (s : State) : State * Next :=
  (emit EvThreadFinished
     (set_numberOfActiveTaskThreads (Nat.pred (numberOfActiveTaskThreads s)) s),
   NextExit).

(** Lines 136-153: the entry [taskDetails] behind [p] was fetched and the
    cursor advanced; [now] is the time read at line 145. *)
Definition dispatch (now : Z) (p : ptr) (taskDetails : TaskDetails_lt)
    (s : State) : State * Next :=
  if active taskDetails then (s, NextIteration)
  else if Task.paused (task taskDetails) then (s, NextIteration)
  else
    let timeToRun := sub64 (nextRun taskDetails) now in
    let s := if timeToRun <? waitFor s then set_waitFor timeToRun s else s in
    if 0 <? timeToRun then (s, NextIteration)
    else (store p (set_active true taskDetails) s, NextPerform p).

(** One pass through the body of [while(!finish)] (lines 129-153 and
    199-210), up to the next [continue], unlock, wait or exit. *)
Definition workerIteration (now : Z) (s : State) : State * Next :=
  if finish s then workerExit s
  else if (numberOfTaskThreads s <? numberOfActiveTaskThreads s)%nat
  then workerExit s
  else
    match tasks s !! nextTaskIndex s with
    | Some p =>
        let s := set_nextTaskIndex (S (nextTaskIndex s)) s in
        match heap s !! p with
        | Some taskDetails => dispatch now p taskDetails s
        | None => (s, NextIteration)
        end
    | None => endOfSweep s
    end.

(** Lines 156-157, outside the mutex: the flag, then the call. *)
Definition markWorkDone (s : State) : State := set_workDone true s.

Definition performTask_called (p : ptr) (s : State) : State :=
  emit (EvPerformTask p) s.

(** What [performTask] did to its own task by the time it returns. *)
Definition performTask_returns (p : ptr) (t' : Task.t) (s : State) : State :=
  match heap s !! p with
  | Some taskDetails => store p (set_task t' taskDetails) s
  | None => s
  end.

(** Lines 163-169: [std::find], the cursor, [erase]. *)
Definition eraseTask (p : ptr) (s : State) : State :=
  match list_find (λ q, q = p) (tasks s) with
  | Some (i, _) =>
      let s := if (i <? nextTaskIndex s)%nat
               then set_nextTaskIndex (Nat.pred (nextTaskIndex s)) s else s in
      set_tasks (delete i (tasks s)) s
  | None => s
  end.

(** Lines 173-181: [tpRemoveAt] at the first status with the identifier. *)
Definition eraseStatus (taskID : Z) (s : State) : State :=
  match list_find (λ ts, TaskStatus.taskID ts = taskID) (taskStatuses s) with
  | Some (i, _) => set_taskStatuses (delete i (taskStatuses s)) s
  | None => s
  end.

(** The test of line 160. *)
Definition finished (taskDetails : TaskDetails_lt) (runAgain : RunAgain) : bool :=
  (Task.timeoutMS (task taskDetails) <? 1)
  || match runAgain with No => true | Yes => false end.

(** Lines 193-195. *)
Definition reschedule (now : Z) (taskDetails : TaskDetails_lt) : TaskDetails_lt :=
  set_active false
    (if 0 <? Task.timeoutMS (task taskDetails)
     then set_nextRun (add64 now (Task.timeoutMS (task taskDetails))) taskDetails
     else taskDetails).

(** Lines 160-196 and 199-210, from the re-lock of line 158 to the unlock of
    line 184 (the task is finished) or to the end of the iteration; [now]
    is the time read at line 194. *)
Definition afterPerformTask (now : Z) (p : ptr) (runAgain : RunAgain)
    (s : State) : State * Next :=
  match heap s !! p with
  | Some taskDetails =>
      if finished taskDetails runAgain then
        let s := eraseTask p s in
        let s := eraseStatus (Task.taskID (task taskDetails)) s in
        (s, NextFinalize p)
      else endOfSweep (store p (reschedule now taskDetails) s)
  | None => (s, NextIteration)
  end.

(** Lines 185-188, outside the mutex. *)
Definition finalize (p : ptr) (s : State) : State :=
  match heap s !! p with
  | Some taskDetails =>
      let taskStatus :=
        TaskStatus.set_complete true (Task.taskStatus (task taskDetails)) in
      let s := emit (EvUpdateTaskStatus p taskStatus) s in
      emit (EvDelete p) (set_heap (delete p (heap s)) s)
  | None => s
  end.



(** ** addThreads, the constructor, setNumberOfTaskThreads *)

(** Lines 122-124 and 216: the counter after the loop and the number of
    threads that were started. *)
Definition addThreads (s : State) : State * nat :=
  let n := (numberOfTaskThreads s - numberOfActiveTaskThreads s)%nat in
  (set_numberOfActiveTaskThreads (numberOfActiveTaskThreads s + n)%nat s, n).

Definition setNumberOfTaskThreads (n : nat) (s : State) : State * nat :=
  let '(s, started) := addThreads (set_numberOfTaskThreads n s) in
  (emit EvWakeAll s, started).

(** ** The destructor (lines 245-268) *)

(** Lines 251-253. *)
Definition cancelAll (s : State) : State :=
  emit EvWakeAll (foldl (λ s p, emit (EvCancelTask p) s) s (tasks s)).

(** Lines 263-264. *)
Definition deleteAll (s : State) : State :=
  foldl (λ s p, emit (EvDelete p) (set_heap (delete p (heap s)) s)) s (tasks s).

(** * The threads

    The registry mutex is a field of the system; a thread that blocks on it
    has a program point of its own, so that taking the mutex is a
    transition.  The critical sections of [taskStatusMutex] and
    [statusChangedCallbacksMutex] are short and never block on anything
    else: each one lies inside one transition.  Wake-ups of a wait condition
    are not tracked: a waiting thread may resume at any time (time-out,
    notification or spurious wake-up), which covers every real schedule. *)

Inductive Thread : Type := TWorker (i : nat) | TAdmin | TDestructor.

Global Instance Thread_eq_dec : EqDecision Thread.
Proof. solve_decision. Defined.

(** Program points of a worker thread (lines 125-214). *)
Inductive WorkerPC : Type :=
| WBlocked                            (* line 128, waiting for the mutex *)
| WLoop                               (* line 129, mutex held *)
| WUnlocked (p : ptr)                 (* line 156, mutex released *)
| WPerforming (p : ptr)               (* inside performTask, line 157 *)
| WReturned (p : ptr) (r : RunAgain)  (* line 158, waiting for the mutex *)
| WLocked (p : ptr) (r : RunAgain)    (* line 160, mutex held *)
| WFinalizing (p : ptr)               (* line 185, mutex released *)
| WRelock                             (* line 189, waiting for the mutex *)
| WEndOfSweep                         (* line 199, mutex held *)
| WWaiting (w : Z)                    (* line 207, inside the wait *)
| WExited.

(** Program points of the housekeeping thread (lines 228-241, 81-117). *)
Inductive AdminPC : Type :=
| ABlocked                            (* line 232 *)
| ALoop                               (* line 233, mutex held *)
| AWaiting                            (* line 235, inside the wait *)
| AUnlocked                           (* line 86, waiting for the mutex *)
| ASweep (i : nat) (changed : bool)   (* line 87 at entry [i], mutex held *)
| ANotify (changed : bool)            (* line 115 *)
| ARelock                             (* line 239, waiting for the mutex *)
| AExited.

(** Program points of the thread that owns the queue (lines 245-268). *)
Inductive DestructorPC : Type :=
| DAlive                              (* the destructor has not been called *)
| DBlocked                            (* line 250 *)
| DCancel                             (* line 251, mutex held *)
| DWaitLoop                           (* line 254, mutex held *)
| DWaiting                            (* line 255, inside the wait *)
| DJoin                               (* line 258 *)
| DRelock                             (* line 262 *)
| DDelete                             (* line 263, mutex held *)
| DDestroyed.                         (* line 267 done *)

Global Instance AdminPC_eq_dec : EqDecision AdminPC.
Proof. solve_decision. Defined.
Global Instance DestructorPC_eq_dec : EqDecision DestructorPC.
Proof. solve_decision. Defined.

Record System : Type := mkSystem {
  shared : State;
  mutex : option Thread;
  workers : list WorkerPC;
  admin : AdminPC;
  destructor : DestructorPC;
  (* history: the entries whose performTask was called since a worker last
     went through lines 200-209 *)
  executed : list ptr
}.

Definition set_shared (x : State) (sys : System) : System :=
  mkSystem x (mutex sys) (workers sys) (admin sys) (destructor sys) (executed sys).
Definition set_mutex (x : option Thread) (sys : System) : System :=
  mkSystem (shared sys) x (workers sys) (admin sys) (destructor sys) (executed sys).
Definition set_workers (x : list WorkerPC) (sys : System) : System :=
  mkSystem (shared sys) (mutex sys) x (admin sys) (destructor sys) (executed sys).
Definition set_worker (i : nat) (pc : WorkerPC) (sys : System) : System :=
  set_workers (<[i := pc]> (workers sys)) sys.
Definition set_admin (x : AdminPC) (sys : System) : System :=
  mkSystem (shared sys) (mutex sys) (workers sys) x (destructor sys) (executed sys).
Definition set_destructor (x : DestructorPC) (sys : System) : System :=
  mkSystem (shared sys) (mutex sys) (workers sys) (admin sys) x (executed sys).
Definition set_executed (x : list ptr) (sys : System) : System :=
  mkSystem (shared sys) (mutex sys) (workers sys) (admin sys) (destructor sys) x.

(** [TPMutexLocker], [lock.lock]: possible only when the mutex is free. *)
Definition acquire (t : Thread) (sys : System) : option System :=
  match mutex sys with
  | None => Some (set_mutex (Some t) sys)
  | Some _ => None
  end.

Definition release (sys : System) : System := set_mutex None sys.

(** The constructor (lines 222-242), seen when it returns: the workers and
    the housekeeping thread are started and wait for the mutex. *)
Definition TaskQueue (nThreads : nat) : System :=
  let '(s, started) := addThreads (Private nThreads) in
  mkSystem s None (replicate started WBlocked) ABlocked DAlive [].

(** Where worker [i] goes after a stretch of code under the mutex. *)
Definition continue_at (i : nat) (r : State * Next) (sys : System) : System :=
  let '(s, next) := r in
  let sys := set_shared s sys in
  match next with
  | NextIteration => set_worker i WLoop sys
  | NextResweep => set_worker i WLoop (set_executed [] sys)
  | NextPerform p => set_worker i (WUnlocked p) (release sys)
  | NextFinalize p => set_worker i (WFinalizing p) (release sys)
  | NextWait w => set_worker i (WWaiting w) (release (set_executed [] sys))
  | NextExit => set_worker i WExited (release sys)
  end.

(** One transition of worker [i]; [now] is the clock if the stretch reads it. *)
Definition workerStep (i : nat) (now : Z) (sys : System) : option System :=
  match workers sys !! i with
  | Some WBlocked | Some (WWaiting _) =>
      set_worker i WLoop <$> acquire (TWorker i) sys
  | Some WLoop => Some (continue_at i (workerIteration now (shared sys)) sys)
  | Some (WUnlocked p) =>
      Some (set_worker i (WPerforming p)
              (set_executed (executed sys ++ [p])
                 (set_shared (performTask_called p (markWorkDone (shared sys)))
                    sys)))
  | Some (WPerforming _) => None
  | Some (WReturned p r) =>
      set_worker i (WLocked p r) <$> acquire (TWorker i) sys
  | Some (WLocked p r) =>
      Some (continue_at i (afterPerformTask now p r (shared sys)) sys)
  | Some (WFinalizing p) =>
      Some (set_worker i WRelock (set_shared (finalize p (shared sys)) sys))
  | Some WRelock => set_worker i WEndOfSweep <$> acquire (TWorker i) sys
  | Some WEndOfSweep => Some (continue_at i (endOfSweep (shared sys)) sys)
  | Some WExited | None => None
  end.

(** [performTask] of worker [i] returns [r], leaving its task as [t']; the
    identifier of a task never changes. *)
Definition performReturns (i : nat) (r : RunAgain) (t' : Task.t)
    (sys : System) : option System :=
  match workers sys !! i with
  | Some (WPerforming p) =>
      match heap (shared sys) !! p with
      | Some taskDetails =>
          if Task.taskID t' =? Task.taskID (task taskDetails)
          then Some (set_worker i (WReturned p r)
                       (set_shared (performTask_returns p t' (shared sys)) sys))
          else None
      | None => None
      end
  | _ => None
  end.

(** One transition of the housekeeping thread. *)
Definition adminStep (now : Z) (sys : System) : option System :=
  match admin sys with
  | ABlocked | ARelock => set_admin ALoop <$> acquire TAdmin sys
  | ALoop =>
      Some (set_admin (if finish (shared sys) then AExited else AWaiting)
              (release sys))
  | AWaiting =>
      (* the wait re-takes the mutex and TP_MUTEX_UNLOCKER gives it up *)
      (λ sys, set_admin AUnlocked (release sys)) <$> acquire TAdmin sys
  | AUnlocked => set_admin (ASweep 0 false) <$> acquire TAdmin sys
  | ASweep i changed =>
      match tasks (shared sys) !! i with
      | Some p =>
          let '(s, changed) := updateWaitingMessage now p (shared sys, changed) in
          Some (set_admin (ASweep (S i) changed) (set_shared s sys))
      | None => Some (set_admin (ANotify changed) (release sys))
      end
  | ANotify changed =>
      Some (set_admin ARelock
              (set_shared (updateWaitingMessages_notify changed (shared sys)) sys))
  | AExited => None
  end.

(** One transition of the destructor. *)
Definition destructorStep (sys : System) : option System :=
  match destructor sys with
  | DAlive =>
      Some (set_destructor DBlocked (set_shared (set_finish true (shared sys)) sys))
  | DBlocked => set_destructor DCancel <$> acquire TDestructor sys
  | DCancel =>
      Some (set_destructor DWaitLoop (set_shared (cancelAll (shared sys)) sys))
  | DWaitLoop =>
      Some (set_destructor
              (if (0 <? numberOfActiveTaskThreads (shared sys))%nat
               then DWaiting else DJoin)
              (release sys))
  | DWaiting => set_destructor DWaitLoop <$> acquire TDestructor sys
  | DJoin =>
      if decide (admin sys = AExited) then Some (set_destructor DRelock sys)
      else None
  | DRelock => set_destructor DDelete <$> acquire TDestructor sys
  | DDelete =>
      Some (set_destructor DDestroyed
              (release (set_shared (deleteAll (shared sys)) sys)))
  | DDestroyed => None
  end.

(** The identifiers of the tasks that exist. *)
Definition liveIDs (s : State) : list Z :=
  (λ x, Task.taskID (task x.2)) <$> map_to_list (heap s).

(** What the environment is taken to respect when it submits a task: the
    task reports its own identifier in its status, and no live task has the
    same identifier (section 3 of the specification). *)
Definition submittable (t : Task.t) (s : State) : Prop :=
  TaskStatus.taskID (Task.taskStatus t) = Task.taskID t
  ∧ Task.taskID t ∉ liveIDs s.

Global Instance submittable_dec t s : Decision (submittable t s).
Proof. unfold submittable. apply _. Defined.

(** What happens next. *)
Inductive Action : Type :=
| Worker (i : nat) (now : Z)
| PerformReturns (i : nat) (r : RunAgain) (t' : Task.t)
| Admin (now : Z)
| Destructor
| StatusPush (taskStatus : TaskStatus.t)
| CallAddTask (now : Z) (t : Task.t)
| CallCancelTask (taskID : Z)
| CallPauseTask (taskID : Z) (paused : bool)
| CallTogglePauseTask (taskID : Z)
| CallSetNumberOfTaskThreads (n : nat)
| CallAddStatusChangedCallback (c : callback)
| CallRemoveStatusChangedCallback (c : callback).

(** A member function that takes the mutex for its whole body can run when
    the queue is alive and the mutex is free. *)
Definition callable (sys : System) : bool :=
  bool_decide (destructor sys = DAlive) && bool_decide (mutex sys = None).

Definition step (a : Action) (sys : System) : option System :=
  match a with
  | Worker i now => workerStep i now sys
  | PerformReturns i r t' => performReturns i r t' sys
  | Admin now => adminStep now sys
  | Destructor => destructorStep sys
  | StatusPush taskStatus =>
      if decide (destructor sys = DDestroyed) then None
      else Some (set_shared (statusChangedCallback taskStatus (shared sys)) sys)
  | CallAddTask now t =>
      if callable sys && bool_decide (submittable t (shared sys))
      then Some (set_shared (addTask now t (shared sys)) sys) else None
  | CallCancelTask taskID =>
      if callable sys
      then Some (set_shared (cancelTask taskID (shared sys)) sys) else None
  | CallPauseTask taskID paused =>
      if callable sys
      then Some (set_shared (pauseTask taskID paused (shared sys)) sys) else None
  | CallTogglePauseTask taskID =>
      if callable sys
      then Some (set_shared (togglePauseTask taskID (shared sys)) sys) else None
  | CallSetNumberOfTaskThreads n =>
      if callable sys then
        let '(s, started) := setNumberOfTaskThreads n (shared sys) in
        Some (set_workers (workers sys ++ replicate started WBlocked)
                (set_shared s sys))
      else None
  | CallAddStatusChangedCallback c =>
      if bool_decide (destructor sys = DAlive)
      then Some (set_shared (addStatusChangedCallback c (shared sys)) sys)
      else None
  | CallRemoveStatusChangedCallback c =>
      if bool_decide (destructor sys = DAlive)
      then Some (set_shared (removeStatusChangedCallback c (shared sys)) sys)
      else None
  end.

(** A schedule, oldest action first. *)
Fixpoint run (acts : list Action) (sys : System) : option System :=
  match acts with
  | [] => Some sys
  | a :: acts' =>
      match step a sys with
      | Some sys' => run acts' sys'
      | None => None
      end
  end.

Definition reachable (nThreads : nat) (sys : System) : Prop :=
  ∃ acts, run acts (TaskQueue nThreads) = Some sys.

(** * Vocabulary of the statements *)

(** The registry fields that the mirror and the heap are not part of. *)
Definition sameRegistry (s s' : State) : Prop :=
  tasks s' = tasks s
  ∧ nextTaskIndex s' = nextTaskIndex s
  ∧ workDone s' = workDone s
  ∧ waitFor s' = waitFor s
  ∧ statusChangedCallbacks s' = statusChangedCallbacks s
  ∧ numberOfTaskThreads s' = numberOfTaskThreads s
  ∧ numberOfActiveTaskThreads s' = numberOfActiveTaskThreads s
  ∧ finish s' = finish s
  ∧ next_ptr s' = next_ptr s.

(** The entry behind [p] passes the test of line 89 and the mirror has a
    status with its identifier: a sweep of [updateWaitingMessages] writes a
    message for it. *)
Definition hasWaitingMessage (s : State) (p : ptr) : bool :=
  match heap s !! p with
  | Some taskDetails =>
      waiting taskDetails
      && bool_decide (Task.taskID (task taskDetails)
                      ∈ TaskStatus.taskID <$> taskStatuses s)
  | None => false
  end.

(** The message of section 4.3 of the specification, in its words: "Paused."
    if (the task of the entry is) paused, "Waiting for thread." if due now,
    otherwise the prefix and the remaining whole seconds until [nextRun]. *)
Definition specWaitingMessage (taskDetails : TaskDetails_lt) (now : Z) : string :=
  if Task.paused (task taskDetails) then "Paused."
  else if nextRun taskDetails <=? now then "Waiting for thread."
  else Task.timeoutMessage (task taskDetails)
       +:+ pretty ((nextRun taskDetails - now) `quot` 1000).

(** The entry a worker has taken for itself: from line 153, where it sets
    [active], to line 195, where it clears it, or line 188, where it deletes
    the entry. *)
Definition holds (pc : WorkerPC) : option ptr :=
  match pc with
  | WUnlocked p | WPerforming p | WReturned p _ | WLocked p _ | WFinalizing p =>
      Some p
  | _ => None
  end.

(** The program points at which a thread owns the registry mutex. *)
Definition worker_in_mutex (pc : WorkerPC) : bool :=
  match pc with
  | WLoop | WLocked _ _ | WEndOfSweep => true
  | _ => false
  end.

Definition admin_in_mutex (pc : AdminPC) : bool :=
  match pc with
  | ALoop | ASweep _ _ => true
  | _ => false
  end.

Definition destructor_in_mutex (pc : DestructorPC) : bool :=
  match pc with
  | DCancel | DWaitLoop | DDelete => true
  | _ => false
  end.

(** The destructor is past the loop of lines 254-255. *)
Definition workers_joined (pc : DestructorPC) : bool :=
  match pc with
  | DJoin | DRelock | DDelete | DDestroyed => true
  | _ => false
  end.

(** The destructor is past line 258. *)
Definition admin_joined (pc : DestructorPC) : bool :=
  match pc with
  | DRelock | DDelete | DDestroyed => true
  | _ => false
  end.

(** The entries that were deleted, in the order of the [delete]s. *)
Definition deleted (tr : list Event) : list ptr :=
  omap (λ e, match e with EvDelete p => Some p | _ => None end) tr.

(** The entries whose task got [updateTaskStatus], in the order of the calls. *)
Definition delivered (tr : list Event) : list ptr :=
  omap (λ e, match e with EvUpdateTaskStatus p _ => Some p | _ => None end) tr.

(** The worker threads that have not left their loop. *)
Definition alive (pc : WorkerPC) : nat :=
  match pc with WExited => 0 | _ => 1 end.

Fixpoint running (ws : list WorkerPC) : nat :=
  match ws with
  | [] => 0
  | pc :: ws' => alive pc + running ws'
  end.

(** [holds], with the information whether the worker has already taken the
    entry out of the registry (lines 163-169). *)
Definition claim (pc : WorkerPC) : option (ptr * bool) :=
  match pc with
  | WUnlocked p | WPerforming p | WReturned p _ | WLocked p _ => Some (p, false)
  | WFinalizing p => Some (p, true)
  | _ => None
  end.

(** What the ownership of entries depends on: the registry and its cursor,
    the allocator, which entries are allocated and whether they are marked
    active, what each worker has taken, and whether the queue is gone. *)
Record Ownership : Type := mkOwnership {
  o_tasks : list ptr;
  o_cursor : nat;
  o_next : ptr;
  o_flags : gmap ptr bool;
  o_claims : list (option (ptr * bool));
  o_destroyed : bool
}.

Definition ownership (sys : System) : Ownership :=
  mkOwnership (tasks (shared sys)) (nextTaskIndex (shared sys))
    (next_ptr (shared sys)) (active <$> heap (shared sys))
    (claim <$> workers sys) (bool_decide (destructor sys = DDestroyed)).

(** While the queue exists the registry lists distinct, allocated entries;
    an allocated entry is in the registry or was taken out of it by the
    worker that will delete it; what a worker has taken is allocated and
    marked active, no two workers have taken the same entry, and an entry
    marked active has been taken by a worker. *)
Record owned (o : Ownership) : Prop := {
  registry_distinct : NoDup (o_tasks o);
  registry_live : ∀ p,
    o_destroyed o = false → p ∈ o_tasks o → is_Some (o_flags o !! p);
  heap_allocated : ∀ p, is_Some (o_flags o !! p) → (p < o_next o)%positive;
  heap_owned : ∀ p,
    is_Some (o_flags o !! p) →
    p ∈ o_tasks o ∨ ∃ i, o_claims o !! i = Some (Some (p, true));
  held_active : ∀ i p b,
    o_claims o !! i = Some (Some (p, b)) → o_flags o !! p = Some true;
  held_registered : ∀ i p b,
    o_claims o !! i = Some (Some (p, b)) → (p ∈ o_tasks o ↔ b = false);
  held_once : ∀ i j p b b',
    o_claims o !! i = Some (Some (p, b)) →
    o_claims o !! j = Some (Some (p, b')) → i = j;
  active_held : ∀ p,
    o_flags o !! p = Some true → ∃ i b, o_claims o !! i = Some (Some (p, b));
  cursor_bound : (o_cursor o ≤ length (o_tasks o))%nat
}.

Definition registry_inv (sys : System) : Prop := owned (ownership sys).

(** What the accounting of deletions depends on: which entries are
    allocated, the allocator, and the deletions and deliveries so far. *)
Record Accounts : Type := mkAccounts {
  a_flags : gmap ptr bool;
  a_next : ptr;
  a_deleted : list ptr;
  a_delivered : list ptr
}.

Definition accounts (sys : System) : Accounts :=
  mkAccounts (active <$> heap (shared sys)) (next_ptr (shared sys))
    (deleted (trace (shared sys))) (delivered (trace (shared sys))).

(** No entry is deleted twice, a deleted entry is not allocated, every
    entry that was ever allocated is allocated or deleted, and
    [updateTaskStatus] went only to tasks whose entry was then deleted. *)
Record accounted (a : Accounts) : Prop := {
  deleted_once : NoDup (a_deleted a);
  deleted_gone : ∀ p, p ∈ a_deleted a → a_flags a !! p = None;
  live_allocated : ∀ p, is_Some (a_flags a !! p) → (p < a_next a)%positive;
  deleted_allocated : ∀ p, p ∈ a_deleted a → (p < a_next a)%positive;
  allocated_accounted : ∀ p,
    (p < a_next a)%positive → is_Some (a_flags a !! p) ∨ p ∈ a_deleted a;
  delivered_deleted : a_delivered a `sublist_of` a_deleted a
}.

Definition trace_inv (sys : System) : Prop :=
  accounted (accounts sys)
  ∧ (destructor sys = DDestroyed → heap (shared sys) = ∅).

(** What the identification of tasks depends on: the identifier of the
    task of each allocated entry, the registry, and the identifiers in the
    mirror. *)
Record Ids : Type := mkIds {
  i_ids : gmap ptr Z;
  i_tasks : list ptr;
  i_mirror : list Z;
  i_destroyed : bool
}.

Definition ids (sys : System) : Ids :=
  mkIds ((λ taskDetails, Task.taskID (task taskDetails)) <$> heap (shared sys))
    (tasks (shared sys)) (TaskStatus.taskID <$> taskStatuses (shared sys))
    (bool_decide (destructor sys = DDestroyed)).

(** Allocated entries hold tasks with distinct identifiers, and the mirror
    lists, in the order of the registry, one status per registry entry,
    with the identifier of its task. *)
Record identified (x : Ids) : Prop := {
  ids_distinct : ∀ p q z,
    i_ids x !! p = Some z → i_ids x !! q = Some z → p = q;
  mirror_synced :
    i_destroyed x = false →
    Forall2 (λ z p, i_ids x !! p = Some z) (i_mirror x) (i_tasks x)
}.

Definition ids_inv (sys : System) : Prop := identified (ids sys).


(** A sequence of pushes, oldest first. *)
Definition pushAll (pushes : list TaskStatus.t) (s : State) : State :=
  foldl (λ s taskStatus, statusChangedCallback taskStatus s) s pushes.

(** No registry entry has the identifier. *)
Definition unknownTask (taskID : Z) (s : State) : Prop :=
  ∀ p taskDetails,
    p ∈ tasks s → heap s !! p = Some taskDetails →
    Task.taskID (task taskDetails) ≠ taskID.

(** The entry behind [p], at index [i], is the first one with the identifier. *)
Definition firstTask (taskID : Z) (s : State) (i : nat) (p : ptr)
    (taskDetails : TaskDetails_lt) : Prop :=
  tasks s !! i = Some p
  ∧ heap s !! p = Some taskDetails
  ∧ Task.taskID (task taskDetails) = taskID
  ∧ ∀ j q other,
      (j < i)%nat → tasks s !! j = Some q → heap s !! q = Some other →
      Task.taskID (task other) ≠ taskID.


(** The thread recorded as owner of the mutex is at a program point inside
    the mutex, and no other thread is. *)
Record mutex_inv (sys : System) : Prop := {
  mutex_worker : ∀ i pc,
    workers sys !! i = Some pc →
    (worker_in_mutex pc = true ↔ mutex sys = Some (TWorker i));
  mutex_owner : ∀ i, mutex sys = Some (TWorker i) → is_Some (workers sys !! i);
  mutex_admin : admin_in_mutex (admin sys) = true ↔ mutex sys = Some TAdmin;
  mutex_destructor :
    destructor_in_mutex (destructor sys) = true ↔ mutex sys = Some TDestructor
}.

(** [numberOfActiveTaskThreads] counts the workers that have not left their
    loop; once the destructor runs [finish] is set, past its wait loop no
    worker is left, and past the join the housekeeping thread is gone. *)
Record shutdown_inv (sys : System) : Prop := {
  count_workers :
    numberOfActiveTaskThreads (shared sys) = running (workers sys);
  finish_set : destructor sys ≠ DAlive → finish (shared sys) = true;
  joined_workers :
    workers_joined (destructor sys) = true →
    numberOfActiveTaskThreads (shared sys) = 0%nat;
  joined_admin : admin_joined (destructor sys) = true → admin sys = AExited
}.

(** ** Vocabulary of the further properties *)

(** Until the destructor runs [finish] is not set, and while [finish] is
    not set the pool has at least [numberOfTaskThreads] threads. *)
Definition pool_inv (sys : System) : Prop :=
  (destructor sys = DAlive → finish (shared sys) = false)
  ∧ (finish (shared sys) = false →
     (numberOfTaskThreads (shared sys)
      ≤ numberOfActiveTaskThreads (shared sys))%nat).

(** The calls that a transition made. *)
Definition emitted (sys sys' : System) : list Event :=
  drop (length (trace (shared sys))) (trace (shared sys')).

(** The entry that a call goes to. *)
Definition subject (e : Event) : option ptr :=
  match e with
  | EvSetStatusChangedCallback p | EvCancelTask p | EvSetPaused p _
  | EvPerformTask p | EvUpdateTaskStatus p _ | EvDelete p => Some p
  | _ => None
  end.

(** No call goes to an entry that was deleted before. *)
Definition well_ordered (tr : list Event) : Prop :=
  ∀ i j p e,
    tr !! i = Some (EvDelete p) → tr !! j = Some e → (i < j)%nat →
    subject e ≠ Some p.

(** The entry whose [performTask] a worker has called. *)
Definition performed (pc : WorkerPC) : option ptr :=
  match pc with
  | WPerforming p | WReturned p _ | WLocked p _ | WFinalizing p => Some p
  | _ => None
  end.

(** [updateTaskStatus] gets a status marked complete, after a call of
    [performTask] of the same entry. *)
Definition completed_after_run (tr : list Event) : Prop :=
  ∀ j p ts,
    tr !! j = Some (EvUpdateTaskStatus p ts) →
    TaskStatus.complete ts = true
    ∧ ∃ i, (i < j)%nat ∧ tr !! i = Some (EvPerformTask p).

(** Calls into the code of a task that may take long or call back into the
    queue: [performTask] and [updateTaskStatus]. *)
Definition task_code (e : Event) : bool :=
  match e with
  | EvPerformTask _ | EvUpdateTaskStatus _ _ => true
  | _ => false
  end.

(** What is known of the calls of [performTask] so far. *)
Definition ran_inv (sys : System) : Prop :=
  (∀ i pc p, workers sys !! i = Some pc → performed pc = Some p →
             EvPerformTask p ∈ trace (shared sys))
  ∧ completed_after_run (trace (shared sys)).






(** * Sample data *)

Definition sampleStatus (taskID : Z) : TaskStatus.t :=
  TaskStatus.mk taskID "Queued." false false 0.

(** A task with identifier [taskID] and repeat interval [timeoutMS]. *)
Definition sampleTask (taskID timeoutMS : Z) : Task.t :=
  Task.mk taskID false timeoutMS "Next run in: " (sampleStatus taskID) false false.

(** A queue with one worker thread and two tasks, submitted at 1000 ms:
    task 7 repeats every 5 s, task 8 runs once. *)
Definition sampleState : State :=
  Eval vm_compute in
    addTask 1000 (sampleTask 8 0) (addTask 1000 (sampleTask 7 5000) (Private 1)).

(** One life of a queue with one worker: the two sample tasks are
    submitted, the worker passes over task 7 (not due), runs task 8 and
    completes it, sweeps again and goes to sleep; then the queue is
    destroyed. *)
Definition sampleSchedule : list Action :=
  [CallAddTask 1000 (sampleTask 7 5000); CallAddTask 1000 (sampleTask 8 0);
   Worker 0 1000; Worker 0 1000; Worker 0 1000; Worker 0 1000;
   PerformReturns 0 Yes
     (Task.setStatusChangedCallback (Task.setTaskQueue (sampleTask 8 0)));
   Worker 0 1001; Worker 0 1001; Worker 0 1001; Worker 0 1001; Worker 0 1001;
   Worker 0 1001; Worker 0 1001;
   Destructor; Destructor; Destructor; Destructor;
   Worker 0 1002; Worker 0 1002; Admin 1002; Admin 1002;
   Destructor; Destructor; Destructor; Destructor; Destructor].

(** The system after the first [n] actions of the sample schedule. *)
Definition sampleSystem (n : nat) : System :=
  default (TaskQueue 1) (run (take n sampleSchedule) (TaskQueue 1)).

(** * Properties *)

(** ** 64-bit arithmetic *)

Lemma wrap64_id (z : Z) : in_int64 z → wrap64 z = z.
Proof.
  unfold in_int64, INT64_MIN, INT64_MAX, wrap64. intros H.
  rewrite Z.mod_small; lia.
Qed.

Lemma wrap64_range (z : Z) : in_int64 (wrap64 z).
Proof.
  unfold in_int64, INT64_MIN, INT64_MAX, wrap64.
  pose proof (Z.mod_pos_bound (z + 2 ^ 63) (2 ^ 64)). lia.
Qed.

Lemma add64_exact (a b : Z) : in_int64 (a + b) → add64 a b = a + b.
Proof. apply wrap64_id. Qed.

Lemma sub64_exact (a b : Z) : in_int64 (a - b) → sub64 a b = a - b.
Proof. apply wrap64_id. Qed.

Lemma tpMax_max (a b : Z) : tpMax a b = Z.max a b.
Proof. unfold tpMax. destruct (Z.ltb_spec a b); lia. Qed.

(** ** The trace *)

Lemma trace_emit (e : Event) (s : State) : trace (emit e s) = trace s ++ [e].
Proof. reflexivity. Qed.

(** ** The status callback (C2) *)

Section StatusPush.
Implicit Types (taskStatus ts : TaskStatus.t) (l : list TaskStatus.t).

Lemma overwriteStatus_find taskStatus l i ts :
  list_find (λ x, TaskStatus.taskID x = TaskStatus.taskID taskStatus) l
    = Some (i, ts) →
  overwriteStatus taskStatus l
    = <[i := TaskStatus.set_rev (TaskStatus.rev ts) taskStatus]> l.
Proof.
  revert i. induction l as [|x l IH]; intros i H; [done|].
  cbn [overwriteStatus]. cbn in H.
  destruct (decide (TaskStatus.taskID x = TaskStatus.taskID taskStatus)) as [E|E].
  - apply Z.eqb_eq in E as E'. rewrite E'. by simplify_eq.
  - apply Z.eqb_neq in E as E'. rewrite E'.
    destruct (list_find _ l) as [[j y]|] eqn:F; simplify_eq/=.
    by rewrite (IH j).
Qed.

Lemma overwriteStatus_absent taskStatus l :
  list_find (λ x, TaskStatus.taskID x = TaskStatus.taskID taskStatus) l = None →
  overwriteStatus taskStatus l = l.
Proof.
  induction l as [|x l IH]; intros H; [done|].
  cbn [overwriteStatus]. cbn in H.
  destruct (decide (TaskStatus.taskID x = TaskStatus.taskID taskStatus)) as [E|E];
    [done|].
  apply Z.eqb_neq in E as E'. rewrite E'.
  destruct (list_find _ l) as [[j y]|] eqn:F; simplify_eq/=.
  by rewrite IH.
Qed.

(** A push keeps, position by position, the identifier and the revision. *)
Lemma overwriteStatus_keeps taskStatus l :
  Forall2 (λ a b, TaskStatus.taskID b = TaskStatus.taskID a
                  ∧ TaskStatus.rev b = TaskStatus.rev a)
    l (overwriteStatus taskStatus l).
Proof.
  induction l as [|x l IH]; cbn [overwriteStatus]; [constructor|].
  destruct (Z.eqb_spec (TaskStatus.taskID x) (TaskStatus.taskID taskStatus)).
  - constructor; [by split|]. apply Forall2_same_length_lookup; split; [done|].
    intros ???; naive_solver.
  - by constructor.
Qed.

Lemma overwriteStatus_ids taskStatus l :
  TaskStatus.taskID <$> overwriteStatus taskStatus l = TaskStatus.taskID <$> l.
Proof.
  induction l as [|x l IH]; cbn [overwriteStatus]; [done|].
  destruct (Z.eqb_spec (TaskStatus.taskID x) (TaskStatus.taskID taskStatus)).
  - cbn. by f_equal.
  - cbn. by f_equal.
Qed.
End StatusPush.

Lemma pushAll_keeps (pushes : list TaskStatus.t) (s : State) :
  Forall2 (λ a b, TaskStatus.taskID b = TaskStatus.taskID a
                  ∧ TaskStatus.rev b = TaskStatus.rev a)
    (taskStatuses s) (taskStatuses (pushAll pushes s)).
Proof.
  revert s. induction pushes as [|x pushes IH]; intros s; cbn.
  - apply Forall2_same_length_lookup; split; [done|]. intros ???; naive_solver.
  - specialize (IH (statusChangedCallback x s)).
    pose proof (overwriteStatus_keeps x (taskStatuses s)) as H.
    change (taskStatuses (statusChangedCallback x s))
      with (overwriteStatus x (taskStatuses s)) in IH.
    eapply Forall2_trans; [|exact H|exact IH].
    cbn. intros a b c [-> ->] [-> ->]. done.
Qed.

(** C2.  When the mirror has an entry with the pushed identifier, the first
    such entry becomes the pushed status with the revision the mirror had,
    nothing else in the mirror changes, and the status callbacks are run
    once; after any sequence of pushes every mirror entry, as the status
    view shows it, has the identifier it had and a revision that is not
    smaller (it is the same). *)
Theorem statusChangedCallback_overwrites
    (taskStatus : TaskStatus.t) (s : State) (i : nat) (ts : TaskStatus.t)
    (Hfound : list_find
                (λ x, TaskStatus.taskID x = TaskStatus.taskID taskStatus)
                (taskStatuses s) = Some (i, ts)) :
  let s' := statusChangedCallback taskStatus s in
  viewTaskStatus id s'
    = <[i := TaskStatus.set_rev (TaskStatus.rev ts) taskStatus]> (taskStatuses s)
  ∧ viewTaskStatus id s' !! i
    = Some (TaskStatus.mk (TaskStatus.taskID taskStatus)
              (TaskStatus.message taskStatus) (TaskStatus.paused taskStatus)
              (TaskStatus.complete taskStatus) (TaskStatus.rev ts))
  ∧ trace s' = trace s ++ [EvStatusChanged (statusChangedCallbacks s)]
  ∧ (tasks s' = tasks s ∧ heap s' = heap s)
  ∧ ∀ pushes : list TaskStatus.t,
      Forall2 (λ a b, TaskStatus.taskID b = TaskStatus.taskID a
                      ∧ TaskStatus.rev a ≤ TaskStatus.rev b)
        (viewTaskStatus id s) (viewTaskStatus id (pushAll pushes s)).
Proof.
  cbn zeta. unfold viewTaskStatus, id.
  assert (taskStatuses (statusChangedCallback taskStatus s)
          = <[i := TaskStatus.set_rev (TaskStatus.rev ts) taskStatus]>
              (taskStatuses s)) as E
    by (cbn; by apply overwriteStatus_find).
  split; [exact E|]. split.
  - rewrite E. apply list_lookup_insert_eq.
    apply list_find_Some in Hfound as (H & _). by eapply lookup_lt_Some.
  - split; [done|]. split; [done|]. intros pushes.
    eapply Forall2_impl; [apply pushAll_keeps|]. cbn. intros a b [-> ->]. lia.
Qed.

Lemma statusChangedCallback_overwrites_witness :
  let push := TaskStatus.mk 8 "Halfway." false false 41 in
  viewTaskStatus id (statusChangedCallback push sampleState) !! 1%nat
  = Some (TaskStatus.mk 8 "Halfway." false false 0).
Proof.
  exact (proj1 (proj2 (statusChangedCallback_overwrites
                         (TaskStatus.mk 8 "Halfway." false false 41)
                         sampleState 1 (sampleStatus 8) eq_refl))).
Defined.

(** ** Submission (C9) *)

(** C9.  [addTask] calls [setTaskQueue] on the task, allocates one entry with
    [nextRun = now + timeoutMS] and [active = false] holding the task,
    appends it to the registry, appends the task's status to the mirror,
    leaves every other entry and the cursor alone, and makes, in this
    order, one [wakeOne] and one run of the status callbacks (and no
    [wakeAll]). *)
Theorem addTask_submits (now : Z) (t : Task.t) (s : State)
    (Hrange : in_int64 (now + Task.timeoutMS t)) :
  let s' := addTask now t s in
  let p := next_ptr s in
  heap s' !! p
    = Some (mkTaskDetails
              (Task.setStatusChangedCallback (Task.setTaskQueue t))
              (now + Task.timeoutMS t) false)
  ∧ Task.taskQueue (Task.setStatusChangedCallback (Task.setTaskQueue t)) = true
  ∧ (∀ q, q ≠ p → heap s' !! q = heap s !! q)
  ∧ tasks s' = tasks s ++ [p]
  ∧ taskStatuses s' = taskStatuses s ++ [Task.taskStatus t]
  ∧ trace s'
    = trace s ++ [EvSetTaskQueue (Task.taskID t); EvWakeOne;
                  EvSetStatusChangedCallback p;
                  EvStatusChanged (statusChangedCallbacks s)]
  ∧ nextTaskIndex s' = nextTaskIndex s
  ∧ next_ptr s' = Pos.succ p.
Proof.
  cbn zeta. unfold addTask, taskStatusChanged, store. cbn.
  rewrite (add64_exact _ _ Hrange).
  repeat split.
  - by rewrite lookup_insert_eq.
  - intros q Hq. by rewrite !lookup_insert_ne.
  - by rewrite <- !app_assoc.
Qed.

Lemma addTask_submits_witness :
  let s' := addTask 2000 (sampleTask 9 250) sampleState in
  heap s' !! 3%positive
    = Some (mkTaskDetails
              (Task.setStatusChangedCallback (Task.setTaskQueue (sampleTask 9 250)))
              2250 false)
  ∧ tasks s' = [1%positive; 2%positive; 3%positive].
Proof.
  pose proof (addTask_submits 2000 (sampleTask 9 250) sampleState) as H.
  cbn zeta in H.
  assert (in_int64 (2000 + Task.timeoutMS (sampleTask 9 250))) as Hr
    by (unfold in_int64, INT64_MIN, INT64_MAX; cbn; lia).
  destruct (H Hr) as (H1 & _ & _ & H4 & _).
  split; [exact H1 | exact H4].
Defined.

(** ** cancelTask, pauseTask, togglePauseTask (C8) *)

Lemma findTask_None (h : gmap ptr TaskDetails_lt) (taskID : Z) (l : list ptr) :
  (∀ p taskDetails, p ∈ l → h !! p = Some taskDetails →
                    Task.taskID (task taskDetails) ≠ taskID) →
  findTask h taskID l = None.
Proof.
  induction l as [|p l IH]; intros H; [done|]. cbn.
  destruct (h !! p) as [td|] eqn:E.
  - destruct (Z.eqb_spec (Task.taskID (task td)) taskID) as [Heq|_].
    + exfalso. eapply H; [|exact E|exact Heq]. by left.
    + apply IH. intros q tq Hq. apply H. by right.
  - apply IH. intros q tq Hq. apply H. by right.
Qed.

Lemma findTask_Some (h : gmap ptr TaskDetails_lt) (taskID : Z) (l : list ptr)
    (i : nat) (p : ptr) (taskDetails : TaskDetails_lt) :
  l !! i = Some p → h !! p = Some taskDetails →
  Task.taskID (task taskDetails) = taskID →
  (∀ j q other, (j < i)%nat → l !! j = Some q → h !! q = Some other →
                Task.taskID (task other) ≠ taskID) →
  findTask h taskID l = Some (p, taskDetails).
Proof.
  revert i. induction l as [|q l IH]; intros i Hi Hp Hid Hfirst; [done|].
  destruct i as [|i]; cbn in *.
  - simplify_eq. rewrite Hp. by rewrite Z.eqb_refl.
  - destruct (h !! q) as [tq|] eqn:E.
    + destruct (Z.eqb_spec (Task.taskID (task tq)) taskID) as [Heq|_].
      * exfalso. by eapply (Hfirst 0%nat q tq); [lia|..].
      * eapply IH; eauto. intros j r other Hj. apply (Hfirst (S j)). lia.
    + eapply IH; eauto. intros j r other Hj. apply (Hfirst (S j)). lia.
Qed.

(** C8.  With no registry entry of that identifier the three functions
    return the state they were given: no call into any task, no wake-up,
    nothing written.  Otherwise the first entry with the identifier, and
    only it, gets [cancelTask()], [setPaused(paused)] or
    [setPaused(!paused())], followed by one [wakeAll]; the registry, the
    cursor and the mirror stay as they were. *)
Theorem cancel_pause_toggle (taskID : Z) (paused : bool) (s : State) :
  (unknownTask taskID s →
     cancelTask taskID s = s
     ∧ pauseTask taskID paused s = s
     ∧ togglePauseTask taskID s = s)
  ∧ (∀ i p taskDetails, firstTask taskID s i p taskDetails →
       (trace (cancelTask taskID s) = trace s ++ [EvCancelTask p; EvWakeAll]
        ∧ heap (cancelTask taskID s) = heap s
        ∧ tasks (cancelTask taskID s) = tasks s
        ∧ taskStatuses (cancelTask taskID s) = taskStatuses s)
       ∧ (trace (pauseTask taskID paused s)
            = trace s ++ [EvSetPaused p paused; EvWakeAll]
          ∧ heap (pauseTask taskID paused s)
            = <[p := set_task (Task.setPaused paused (task taskDetails))
                       taskDetails]> (heap s)
          ∧ tasks (pauseTask taskID paused s) = tasks s
          ∧ taskStatuses (pauseTask taskID paused s) = taskStatuses s)
       ∧ (trace (togglePauseTask taskID s)
            = trace s ++ [EvSetPaused p (negb (Task.paused (task taskDetails)));
                          EvWakeAll]
          ∧ heap (togglePauseTask taskID s)
            = <[p := set_task
                       (Task.setPaused (negb (Task.paused (task taskDetails)))
                          (task taskDetails))
                       taskDetails]> (heap s)
          ∧ tasks (togglePauseTask taskID s) = tasks s
          ∧ taskStatuses (togglePauseTask taskID s) = taskStatuses s)).
Proof.
  split.
  - intros H. unfold cancelTask, pauseTask, togglePauseTask.
    by rewrite (findTask_None _ _ _ H).
  - intros i p td (Hi & Hp & Hid & Hfirst).
    unfold cancelTask, pauseTask, togglePauseTask.
    rewrite (findTask_Some _ _ _ i p td Hi Hp Hid Hfirst). cbn.
    rewrite <- !app_assoc. done.
Qed.

Lemma cancel_pause_toggle_witness :
  cancelTask 5 sampleState = sampleState
  ∧ trace (pauseTask 8 true sampleState)
    = trace sampleState ++ [EvSetPaused 2%positive true; EvWakeAll].
Proof.
  pose (td1 := mkTaskDetails
                 (Task.setStatusChangedCallback (Task.setTaskQueue (sampleTask 7 5000)))
                 6000 false).
  pose (td2 := mkTaskDetails
                 (Task.setStatusChangedCallback (Task.setTaskQueue (sampleTask 8 0)))
                 1000 false).
  assert (heap sampleState !! 1%positive = Some td1) as H1 by reflexivity.
  assert (heap sampleState !! 2%positive = Some td2) as H2 by reflexivity.
  assert (unknownTask 5 sampleState) as Hunknown.
  { intros p td Hp Hh. apply list_elem_of_In in Hp.
    destruct Hp as [<-|[<-|[]]].
    - rewrite H1 in Hh. injection Hh as <-. discriminate.
    - rewrite H2 in Hh. injection Hh as <-. discriminate. }
  assert (firstTask 8 sampleState 1 2%positive td2) as Hfirst.
  { split; [reflexivity|]. split; [exact H2|]. split; [reflexivity|].
    intros j q other Hj Hq Hh. destruct j as [|j]; [|lia].
    injection Hq as <-. rewrite H1 in Hh. injection Hh as <-. discriminate. }
  exact (conj (proj1 (proj1 (cancel_pause_toggle 5 true sampleState) Hunknown))
           (proj1 (proj1 (proj2 (proj2 (cancel_pause_toggle 8 true sampleState)
                                   _ _ _ Hfirst))))).
Defined.

(** ** Housekeeping (C3, C10) *)

Lemma wholeSeconds_zero (r : Z) : (tpMax 0 (r `quot` 1000) =? 0) = (r <? 1000).
Proof.
  rewrite tpMax_max.
  destruct (Z.ltb_spec r 1000) as [Hlt|Hge].
  - apply Z.eqb_eq. destruct (Z.le_gt_cases 0 r) as [Hpos|Hneg].
    + rewrite Z.quot_small; lia.
    + assert (r `quot` 1000 ≤ 0); [|lia].
      replace r with (- - r) by lia. rewrite Z.quot_opp_l by lia.
      pose proof (Z.quot_pos (- r) 1000). lia.
  - apply Z.eqb_neq.
    pose proof (Z.quot_le_lower_bound r 1000 1). lia.
Qed.

Lemma wholeSeconds_pos (r : Z) :
  1000 ≤ r → tpMax 0 (r `quot` 1000) = r `quot` 1000.
Proof.
  intros H. rewrite tpMax_max.
  pose proof (Z.quot_le_lower_bound r 1000 1). lia.
Qed.

Lemma existsb_ext_elem {A} (f g : A → bool) (l : list A) :
  (∀ x, x ∈ l → f x = g x) → existsb f l = existsb g l.
Proof.
  induction l as [|x l IH]; intros H; [done|]. cbn.
  rewrite H by (by left). rewrite IH; [done|]. intros y Hy. apply H. by right.
Qed.

Section Housekeeping.
Implicit Types (s : State) (p q : ptr) (l : list TaskStatus.t).

Lemma rewriteMessage_found taskID timeToRun timeoutMessage l i ts :
  list_find (λ x, TaskStatus.taskID x = taskID) l = Some (i, ts) →
  rewriteMessage taskID timeToRun timeoutMessage l
  = (<[i := TaskStatus.set_message
              (waitingMessage ts timeToRun timeoutMessage) ts]> l, true).
Proof.
  revert i. induction l as [|x l IH]; intros i H; [done|].
  cbn [rewriteMessage]. cbn in H.
  destruct (decide (TaskStatus.taskID x = taskID)) as [E|E].
  - apply Z.eqb_eq in E as E'. rewrite E'. by simplify_eq.
  - apply Z.eqb_neq in E as E'. rewrite E'.
    destruct (list_find _ l) as [[j y]|] eqn:F; simplify_eq/=.
    by rewrite (IH j).
Qed.

Lemma rewriteMessage_absent taskID timeToRun timeoutMessage l :
  list_find (λ x, TaskStatus.taskID x = taskID) l = None →
  rewriteMessage taskID timeToRun timeoutMessage l = (l, false).
Proof.
  induction l as [|x l IH]; intros H; [done|].
  cbn [rewriteMessage]. cbn in H.
  destruct (decide (TaskStatus.taskID x = taskID)) as [E|E]; [done|].
  apply Z.eqb_neq in E as E'. rewrite E'.
  destruct (list_find _ l) as [[j y]|] eqn:F; simplify_eq/=.
  by rewrite IH.
Qed.

Lemma rewriteMessage_ids taskID timeToRun timeoutMessage l :
  TaskStatus.taskID <$> (rewriteMessage taskID timeToRun timeoutMessage l).1
  = TaskStatus.taskID <$> l.
Proof.
  induction l as [|x l IH]; cbn [rewriteMessage]; [done|].
  destruct (Z.eqb_spec (TaskStatus.taskID x) taskID); [done|].
  destruct (rewriteMessage taskID timeToRun timeoutMessage l). cbn in *.
  by f_equal.
Qed.

Lemma rewriteMessage_changed taskID timeToRun timeoutMessage l :
  (rewriteMessage taskID timeToRun timeoutMessage l).2
  = bool_decide (taskID ∈ TaskStatus.taskID <$> l).
Proof.
  induction l as [|x l IH]; cbn [rewriteMessage].
  - cbn. symmetry. apply bool_decide_eq_false. apply not_elem_of_nil.
  - destruct (Z.eqb_spec (TaskStatus.taskID x) taskID) as [E|E].
    + cbn. symmetry. apply bool_decide_eq_true. rewrite E. by left.
    + destruct (rewriteMessage taskID timeToRun timeoutMessage l). cbn in *.
      rewrite IH. apply bool_decide_ext. rewrite elem_of_cons.
      split; [by right|]. intros [Heq|Hin]; [by symmetry in Heq|done].
Qed.

(** The body of the registry loop, entry by entry. *)
Lemma updateWaitingMessage_heap now p s changed :
  heap (updateWaitingMessage now p (s, changed)).1
  = match heap s !! p with
    | Some taskDetails =>
        if waiting taskDetails && (sub64 (nextRun taskDetails) now <? 0)
        then <[p := set_nextRun 0 taskDetails]> (heap s) else heap s
    | None => heap s
    end.
Proof.
  unfold updateWaitingMessage. destruct (heap s !! p) as [td|]; [|done].
  destruct (waiting td); [|done]. cbn [andb].
  destruct (sub64 (nextRun td) now <? 0);
    destruct (rewriteMessage _ _ _ _); done.
Qed.

Lemma updateWaitingMessage_mirror now p s changed :
  taskStatuses (updateWaitingMessage now p (s, changed)).1
  = match heap s !! p with
    | Some taskDetails =>
        if waiting taskDetails
        then (rewriteMessage (Task.taskID (task taskDetails))
                (tpMax 0 (sub64 (nextRun taskDetails) now `quot` 1000))
                (Task.timeoutMessage (task taskDetails)) (taskStatuses s)).1
        else taskStatuses s
    | None => taskStatuses s
    end.
Proof.
  unfold updateWaitingMessage. destruct (heap s !! p) as [td|]; [|done].
  destruct (waiting td); [|done].
  destruct (sub64 (nextRun td) now <? 0); cbn;
    destruct (rewriteMessage _ _ _ _); done.
Qed.

Lemma updateWaitingMessage_changed now p s changed :
  (updateWaitingMessage now p (s, changed)).2
  = changed || hasWaitingMessage s p.
Proof.
  unfold updateWaitingMessage, hasWaitingMessage.
  destruct (heap s !! p) as [td|]; [|by rewrite orb_false_r].
  destruct (waiting td); [|by rewrite orb_false_r]. cbn [andb].
  rewrite <- (rewriteMessage_changed _
                (tpMax 0 (sub64 (nextRun td) now `quot` 1000))
                (Task.timeoutMessage (task td))).
  destruct (sub64 (nextRun td) now <? 0); cbn;
    destruct (rewriteMessage _ _ _ _); done.
Qed.

Lemma updateWaitingMessage_frame now p s changed :
  sameRegistry s (updateWaitingMessage now p (s, changed)).1
  ∧ trace (updateWaitingMessage now p (s, changed)).1 = trace s.
Proof.
  unfold updateWaitingMessage, sameRegistry.
  destruct (heap s !! p) as [td|]; [|done].
  destruct (waiting td); [|done].
  destruct (sub64 (nextRun td) now <? 0); cbn;
    destruct (rewriteMessage _ _ _ _); done.
Qed.

Lemma updateWaitingMessage_ids now p s changed :
  TaskStatus.taskID <$> taskStatuses (updateWaitingMessage now p (s, changed)).1
  = TaskStatus.taskID <$> taskStatuses s.
Proof.
  rewrite updateWaitingMessage_mirror.
  destruct (heap s !! p) as [td|]; [|done].
  destruct (waiting td); [|done]. apply rewriteMessage_ids.
Qed.

Lemma updateWaitingMessage_heap_other now p q s changed :
  q ≠ p →
  heap (updateWaitingMessage now p (s, changed)).1 !! q = heap s !! q.
Proof.
  intros Hq. rewrite updateWaitingMessage_heap.
  destruct (heap s !! p) as [td|]; [|done].
  destruct (_ && _); [|done]. by rewrite lookup_insert_ne.
Qed.

Lemma hasWaitingMessage_ext s s' q :
  heap s' !! q = heap s !! q →
  TaskStatus.taskID <$> taskStatuses s' = TaskStatus.taskID <$> taskStatuses s →
  hasWaitingMessage s' q = hasWaitingMessage s q.
Proof. intros Hh Hids. unfold hasWaitingMessage. by rewrite Hh, Hids. Qed.

Lemma sameRegistry_refl s : sameRegistry s s.
Proof. by repeat split. Qed.

Lemma sameRegistry_trans s1 s2 s3 :
  sameRegistry s1 s2 → sameRegistry s2 s3 → sameRegistry s1 s3.
Proof.
  unfold sameRegistry. intros H1 H2. destruct_and!. repeat split; congruence.
Qed.

(** The loop over the registry. *)
Lemma sweepWaitingMessages_frame clock i (l : list ptr) s changed :
  let r := sweepWaitingMessages clock i l (s, changed) in
  sameRegistry s r.1
  ∧ trace r.1 = trace s
  ∧ TaskStatus.taskID <$> taskStatuses r.1 = TaskStatus.taskID <$> taskStatuses s.
Proof.
  revert i s changed. induction l as [|p l IH]; intros i s changed; cbn [sweepWaitingMessages].
  - split; [apply sameRegistry_refl|done].
  - destruct (updateWaitingMessage (clock i) p (s, changed)) as [s1 c1] eqn:E.
    pose proof (updateWaitingMessage_frame (clock i) p s changed) as [F1 F2].
    pose proof (updateWaitingMessage_ids (clock i) p s changed) as F3.
    rewrite E in F1, F2, F3. cbn in F1, F2, F3.
    destruct (IH (S i) s1 c1) as (G1 & G2 & G3). cbn in G1, G2, G3.
    split; [by eapply sameRegistry_trans|]. split; congruence.
Qed.

Lemma sweepWaitingMessages_heap_other clock i (l : list ptr) s changed q :
  q ∉ l →
  heap (sweepWaitingMessages clock i l (s, changed)).1 !! q = heap s !! q.
Proof.
  revert i s changed. induction l as [|p l IH]; intros i s changed Hq; cbn [sweepWaitingMessages].
  - done.
  - apply not_elem_of_cons in Hq as [Hqp Hql].
    destruct (updateWaitingMessage (clock i) p (s, changed)) as [s1 c1] eqn:E.
    rewrite IH by done.
    pose proof (updateWaitingMessage_heap_other (clock i) p q s changed Hqp) as F.
    by rewrite E in F.
Qed.

Lemma sweepWaitingMessages_changed clock i (l : list ptr) s changed :
  NoDup l →
  (sweepWaitingMessages clock i l (s, changed)).2
  = changed || existsb (hasWaitingMessage s) l.
Proof.
  revert i s changed. induction l as [|p l IH]; intros i s changed Hnd; cbn [sweepWaitingMessages].
  - by rewrite orb_false_r.
  - apply NoDup_cons in Hnd as [Hp Hnd].
    destruct (updateWaitingMessage (clock i) p (s, changed)) as [s1 c1] eqn:E.
    rewrite IH by done.
    pose proof (updateWaitingMessage_changed (clock i) p s changed) as F.
    rewrite E in F. cbn in F. rewrite F, <- orb_assoc.
    cbn [existsb]. do 2 f_equal.
    apply existsb_ext_elem. intros q Hq.
    apply hasWaitingMessage_ext.
    + pose proof (updateWaitingMessage_heap_other (clock i) p q s changed) as G.
      rewrite E in G. apply G. by intros ->.
    + pose proof (updateWaitingMessage_ids (clock i) p s changed) as G.
      by rewrite E in G.
Qed.

Lemma sweepWaitingMessages_heap_at clock i (l : list ptr) s changed k q
    taskDetails :
  NoDup l → l !! k = Some q → heap s !! q = Some taskDetails →
  heap (sweepWaitingMessages clock i l (s, changed)).1 !! q
  = Some (if waiting taskDetails
             && (sub64 (nextRun taskDetails) (clock (i + k)%nat) <? 0)
          then set_nextRun 0 taskDetails else taskDetails).
Proof.
  revert i s changed k.
  induction l as [|p l IH]; intros i s changed k Hnd Hk Hq; [done|].
  cbn [sweepWaitingMessages].
  apply NoDup_cons in Hnd as [Hp Hnd].
  destruct (updateWaitingMessage (clock i) p (s, changed)) as [s1 c1] eqn:E.
  destruct k as [|k]; cbn in Hk.
  - simplify_eq. rewrite sweepWaitingMessages_heap_other by done.
    pose proof (updateWaitingMessage_heap (clock i) q s changed) as F.
    rewrite E, Hq in F. cbn in F. rewrite F, Nat.add_0_r.
    destruct (_ && _); [by rewrite lookup_insert_eq|done].
  - assert (q ≠ p) as Hqp by (intros ->; by apply list_elem_of_lookup_2 in Hk).
    pose proof (updateWaitingMessage_heap_other (clock i) p q s changed Hqp) as F.
    rewrite E in F. cbn in F.
    rewrite (IH (S i) s1 c1 k Hnd Hk) by congruence.
    by replace (S i + k)%nat with (i + S k)%nat by lia.
Qed.
End Housekeeping.

Lemma waitingMessage_seconds (ts : TaskStatus.t) (r : Z) (timeoutMessage : string) :
  waitingMessage ts (tpMax 0 (r `quot` 1000)) timeoutMessage
  = if TaskStatus.paused ts then "Paused."
    else if r <? 1000 then "Waiting for thread."
    else timeoutMessage +:+ pretty (r `quot` 1000).
Proof.
  unfold waitingMessage. rewrite wholeSeconds_zero.
  destruct (TaskStatus.paused ts); [done|].
  destruct (Z.ltb_spec r 1000); [done|]. by rewrite wholeSeconds_pos.
Qed.

Lemma list_find_absent_ids (taskID : Z) (l : list TaskStatus.t) :
  taskID ∉ TaskStatus.taskID <$> l →
  list_find (λ x, TaskStatus.taskID x = taskID) l = None.
Proof.
  intros H. apply list_find_None, Forall_forall. intros x Hx Heq.
  apply H. rewrite <- Heq. by apply list_elem_of_fmap_2.
Qed.

Lemma updateWaitingMessage_untouched (now : Z) (p : ptr) (s : State)
    (changed : bool) :
  hasWaitingMessage s p = false →
  taskStatuses (updateWaitingMessage now p (s, changed)).1 = taskStatuses s.
Proof.
  intros H. rewrite updateWaitingMessage_mirror. unfold hasWaitingMessage in H.
  destruct (heap s !! p) as [td|]; [|done].
  destruct (waiting td); [|done]. cbn in H.
  apply bool_decide_eq_false in H.
  by rewrite rewriteMessage_absent by by apply list_find_absent_ids.
Qed.

Lemma sweepWaitingMessages_untouched (clock : nat → Z) (i : nat) (l : list ptr)
    (s : State) (changed : bool) :
  NoDup l → existsb (hasWaitingMessage s) l = false →
  taskStatuses (sweepWaitingMessages clock i l (s, changed)).1 = taskStatuses s.
Proof.
  revert i s changed.
  induction l as [|p l IH]; intros i s changed Hnd Hex; [done|].
  cbn [sweepWaitingMessages]. cbn [existsb] in Hex.
  apply orb_false_iff in Hex as [Hp Hl]. apply NoDup_cons in Hnd as [Hpl Hnd].
  destruct (updateWaitingMessage (clock i) p (s, changed)) as [s1 c1] eqn:E.
  pose proof (updateWaitingMessage_untouched (clock i) p s changed Hp) as F.
  rewrite E in F. cbn in F. rewrite IH; [done|done|].
  rewrite <- Hl. apply existsb_ext_elem. intros q Hq.
  apply hasWaitingMessage_ext; [|by rewrite F].
  pose proof (updateWaitingMessage_heap_other (clock i) p q s changed) as G.
  rewrite E in G. apply G. by intros ->.
Qed.

(** C3, amended.  For an entry that is not active and whose task is paused
    or whose [nextRun] is positive, the loop body writes into the first
    mirror status with the task's identifier: "Paused." if that mirror
    status is marked paused, else "Waiting for thread." if less than one
    whole second is left until [nextRun] (in particular when the task is
    due), else [timeoutMessage()] followed by the remaining whole seconds.
    The status callbacks are run at most once, after the sweep, exactly when
    some entry got a message written; so they are run whenever a message
    text changed. *)
Theorem updateWaitingMessages_messages (clock : nat → Z) (s : State)
    (Hdistinct : NoDup (tasks s)) :
  (∀ now p taskDetails i ts changed,
     heap s !! p = Some taskDetails → waiting taskDetails = true →
     in_int64 (nextRun taskDetails - now) →
     list_find (λ x, TaskStatus.taskID x = Task.taskID (task taskDetails))
       (taskStatuses s) = Some (i, ts) →
     let r := updateWaitingMessage now p (s, changed) in
     taskStatuses r.1
     = <[i := TaskStatus.set_message
                (if TaskStatus.paused ts then "Paused."
                 else if nextRun taskDetails - now <? 1000
                      then "Waiting for thread."
                      else Task.timeoutMessage (task taskDetails)
                           +:+ pretty ((nextRun taskDetails - now) `quot` 1000))
                ts]> (taskStatuses s)
     ∧ r.2 = true)
  ∧ (let s' := updateWaitingMessages clock s in
     trace s'
     = trace s ++ (if existsb (hasWaitingMessage s) (tasks s)
                   then [EvStatusChanged (statusChangedCallbacks s)] else [])
     ∧ (TaskStatus.message <$> taskStatuses s'
          ≠ TaskStatus.message <$> taskStatuses s →
        trace s' = trace s ++ [EvStatusChanged (statusChangedCallbacks s)])).
Proof.
  split.
  - intros now p td i ts changed Hp Hw Hrange Hfind. cbn zeta.
    rewrite updateWaitingMessage_mirror, updateWaitingMessage_changed.
    unfold hasWaitingMessage. rewrite Hp, Hw.
    rewrite (rewriteMessage_found _ _ _ _ i ts Hfind). cbn [fst].
    rewrite waitingMessage_seconds, (sub64_exact _ _ Hrange).
    split; [done|]. cbn [andb].
    apply list_find_Some in Hfind as (Hi & Hid & _).
    rewrite bool_decide_eq_true_2; [apply orb_true_r|].
    rewrite <- Hid. apply list_elem_of_fmap_2. by eapply list_elem_of_lookup_2.
  - cbn zeta. unfold updateWaitingMessages, updateWaitingMessages_locked.
    pose proof (sweepWaitingMessages_frame clock 0 (tasks s) s false) as (F1 & F2 & _).
    pose proof (sweepWaitingMessages_changed clock 0 (tasks s) s false Hdistinct) as F3.
    pose proof (sweepWaitingMessages_untouched clock 0 (tasks s) s false Hdistinct) as F4.
    destruct (sweepWaitingMessages clock 0 (tasks s) (s, false)) as [s1 c1].
    cbn in F1, F2, F3, F4. subst c1.
    destruct F1 as (_ & _ & _ & _ & Hcb & _).
    destruct (existsb (hasWaitingMessage s) (tasks s)); cbn.
    + rewrite F2, Hcb. done.
    + rewrite F2, app_nil_r. split; [done|]. intros Hne. by rewrite F4 in Hne.
Qed.

Lemma sampleState_distinct : NoDup (tasks sampleState).
Proof.
  apply (NoDup_cons_2 1%positive [2%positive]).
  - intros H. apply list_elem_of_singleton in H. discriminate.
  - apply (NoDup_cons_2 2%positive []); [apply not_elem_of_nil|apply NoDup_nil_2].
Defined.

Lemma updateWaitingMessages_messages_witness :
  trace (updateWaitingMessages (λ _, 5500) sampleState)
  = trace sampleState ++ [EvStatusChanged []].
Proof.
  exact (proj1 (proj2 (updateWaitingMessages_messages (λ _, 5500) sampleState
                         sampleState_distinct))).
Defined.

(** C3 as the specification words it fails on the code.  Task 7 of the
    sample queue is idle, not paused and due in 500 ms: the sweep writes
    "Waiting for thread." where the specification's wording gives the prefix
    and 0 seconds.  A second sweep changes no message text and runs the
    status callbacks all the same. *)
Lemma updateWaitingMessages_counterexample :
  let clock := λ _ : nat, 5500 in
  let taskDetails :=
    mkTaskDetails
      (Task.setStatusChangedCallback (Task.setTaskQueue (sampleTask 7 5000)))
      6000 false in
  let s' := updateWaitingMessages clock sampleState in
  let s'' := updateWaitingMessages clock s' in
  (tasks sampleState !! 0%nat = Some 1%positive
   ∧ heap sampleState !! 1%positive = Some taskDetails
   ∧ waiting taskDetails = true
   ∧ TaskStatus.message <$> taskStatuses s' !! 0%nat = Some "Waiting for thread."
   ∧ specWaitingMessage taskDetails 5500 = "Next run in: 0"
   ∧ Some (specWaitingMessage taskDetails 5500)
     ≠ (TaskStatus.message <$> taskStatuses s' !! 0%nat))
  ∧ (TaskStatus.message <$> taskStatuses s'' = TaskStatus.message <$> taskStatuses s'
     ∧ trace s'' = trace s' ++ [EvStatusChanged []]).
Proof.
  cbn zeta. repeat split; try (vm_compute; reflexivity).
  vm_compute. discriminate.
Qed.

(** C10.  A sweep leaves the registry list, the cursor, [waitFor],
    [workDone], the thread counters, [finish] and the callback list as they
    were; of an entry it changes nothing but [nextRun], and that only for an
    entry that is not active, whose task is paused or whose [nextRun] is
    positive, and whose [nextRun] is before the time read for it: that
    [nextRun] becomes 0. *)
Theorem updateWaitingMessages_registry (clock : nat → Z) (s : State)
    (Hdistinct : NoDup (tasks s))
    (Hrange : ∀ i p taskDetails,
        tasks s !! i = Some p → heap s !! p = Some taskDetails →
        in_int64 (nextRun taskDetails - clock i)) :
  let s' := updateWaitingMessages clock s in
  sameRegistry s s'
  ∧ (∀ q, q ∉ tasks s → heap s' !! q = heap s !! q)
  ∧ (∀ i p taskDetails,
       tasks s !! i = Some p → heap s !! p = Some taskDetails →
       ∃ taskDetails',
         heap s' !! p = Some taskDetails'
         ∧ task taskDetails' = task taskDetails
         ∧ active taskDetails' = active taskDetails
         ∧ nextRun taskDetails'
           = if negb (active taskDetails)
                && ((0 <? nextRun taskDetails) || Task.paused (task taskDetails))
                && (nextRun taskDetails <? clock i)
             then 0 else nextRun taskDetails).
Proof.
  cbn zeta. unfold updateWaitingMessages, updateWaitingMessages_locked.
  pose proof (sweepWaitingMessages_frame clock 0 (tasks s) s false) as (F1 & _ & _).
  pose proof (λ q, sweepWaitingMessages_heap_other clock 0 (tasks s) s false q) as F2.
  pose proof (λ k q td, sweepWaitingMessages_heap_at clock 0 (tasks s) s false
                          k q td Hdistinct) as F3.
  destruct (sweepWaitingMessages clock 0 (tasks s) (s, false)) as [s1 c1].
  cbn [fst] in F1, F2, F3.
  assert (∀ c, heap (updateWaitingMessages_notify c s1) = heap s1) as Hheap
    by (by intros []).
  assert (∀ c, sameRegistry s1 (updateWaitingMessages_notify c s1)) as Hreg
    by (intros []; by repeat split).
  split; [by eapply sameRegistry_trans|]. split.
  - intros q Hq. rewrite Hheap. by apply F2.
  - intros i p td Hi Hp. rewrite Hheap, (F3 i p td Hi Hp). cbn [Nat.add].
    assert ((sub64 (nextRun td) (clock i) <? 0) = (nextRun td <? clock i)) as ->.
    { rewrite (sub64_exact _ _ (Hrange i p td Hi Hp)).
      destruct (Z.ltb_spec (nextRun td - clock i) 0);
        destruct (Z.ltb_spec (nextRun td) (clock i)); lia. }
    eexists. split; [done|]. unfold waiting.
    by destruct (_ && _ && _).
Qed.

Lemma updateWaitingMessages_registry_witness :
  ∃ taskDetails',
    heap (updateWaitingMessages (λ _, 5500) sampleState) !! 2%positive
    = Some taskDetails'
    ∧ nextRun taskDetails' = 0.
Proof.
  pose (td1 := mkTaskDetails
                 (Task.setStatusChangedCallback (Task.setTaskQueue (sampleTask 7 5000)))
                 6000 false).
  pose (td2 := mkTaskDetails
                 (Task.setStatusChangedCallback (Task.setTaskQueue (sampleTask 8 0)))
                 1000 false).
  assert (heap sampleState !! 1%positive = Some td1) as H1 by reflexivity.
  assert (heap sampleState !! 2%positive = Some td2) as H2 by reflexivity.
  assert (∀ i p taskDetails,
            tasks sampleState !! i = Some p →
            heap sampleState !! p = Some taskDetails →
            in_int64 (nextRun taskDetails - 5500)) as Hrange.
  { intros i p td Hi Hp. destruct i as [|[|i]]; [| |discriminate].
    - injection Hi as <-. rewrite H1 in Hp. injection Hp as <-.
      unfold in_int64, INT64_MIN, INT64_MAX. cbn. lia.
    - injection Hi as <-. rewrite H2 in Hp. injection Hp as <-.
      unfold in_int64, INT64_MIN, INT64_MAX. cbn. lia. }
  destruct (proj2 (proj2 (updateWaitingMessages_registry (λ _, 5500) sampleState
                            sampleState_distinct Hrange))
              1%nat 2%positive td2 eq_refl H2)
    as (td' & Hh & _ & _ & Hn).
  exists td'. split; [exact Hh | exact Hn].
Defined.

(** ** Removal from the registry (C7) *)

Lemma drop_delete_lt {A} (l : list A) (i c : nat) :
  (i < c)%nat → drop (c - 1)%nat (delete i l) = drop c l.
Proof.
  revert i c. induction l as [|x l IH]; intros i c Hic.
  - destruct i; simpl; by rewrite !drop_nil.
  - destruct c as [|c]; [lia|]. destruct i as [|i]; cbn.
    + by rewrite Nat.sub_0_r.
    + destruct c as [|c]; [lia|]. cbn. rewrite <- (IH i (S c)) by lia.
      by rewrite Nat.sub_1_r.
Qed.

Lemma drop_delete_ge {A} (l : list A) (i c : nat) :
  (c ≤ i)%nat → drop c (delete i l) = delete (i - c)%nat (drop c l).
Proof.
  revert i c. induction l as [|x l IH]; intros i c Hci.
  - rewrite drop_nil. destruct i, c; simpl; by rewrite ?drop_nil.
  - destruct c as [|c]; [by rewrite Nat.sub_0_r|].
    destruct i as [|i]; [lia|]. cbn. apply IH. lia.
Qed.

Lemma list_find_first (p : ptr) (l : list ptr) (i : nat) :
  l !! i = Some p → (∀ j, (j < i)%nat → l !! j ≠ Some p) →
  list_find (λ q, q = p) l = Some (i, p).
Proof.
  intros Hi Hfirst. apply list_find_Some. split; [done|]. split; [done|].
  intros j y Hj Hlt ->. by apply (Hfirst j).
Qed.

Lemma eraseTask_found (p : ptr) (s : State) (i : nat) :
  list_find (λ q, q = p) (tasks s) = Some (i, p) →
  eraseTask p s
  = set_tasks (delete i (tasks s))
      (if (i <? nextTaskIndex s)%nat
       then set_nextTaskIndex (Nat.pred (nextTaskIndex s)) s else s).
Proof. intros H. unfold eraseTask. rewrite H. by destruct (_ <? _)%nat. Qed.

Lemma eraseTask_absent (p : ptr) (s : State) :
  p ∉ tasks s → eraseTask p s = s.
Proof.
  intros H. unfold eraseTask.
  destruct (list_find _ _) as [[i q]|] eqn:E; [|done].
  apply list_find_Some in E as (Hi & -> & _).
  by apply list_elem_of_lookup_2 in Hi.
Qed.

(** C7.  [p] is found at index [i] of the registry.  The cursor is
    decremented exactly when [i] is strictly below it.  The entries from the
    cursor on are afterwards the ones from the cursor on before, without the
    removed entry; in particular an entry other than the removed one that
    the cursor denoted is still the one it denotes.  The cursor exceeds the
    length of the list by no more than it did before. *)
Theorem eraseTask_cursor (p : ptr) (s : State) (i : nat)
    (Hat : tasks s !! i = Some p)
    (Hfirst : ∀ j, (j < i)%nat → tasks s !! j ≠ Some p) :
  let s' := eraseTask p s in
  let c := nextTaskIndex s in
  tasks s' = delete i (tasks s)
  ∧ ((i < c)%nat → S (nextTaskIndex s') = c)
  ∧ ((c ≤ i)%nat → nextTaskIndex s' = c)
  ∧ drop (nextTaskIndex s') (tasks s')
    = (if (i <? c)%nat then drop c (tasks s)
       else delete (i - c)%nat (drop c (tasks s)))
  ∧ (∀ q, q ≠ p → tasks s !! c = Some q →
          tasks s' !! nextTaskIndex s' = Some q)
  ∧ (nextTaskIndex s' - length (tasks s') ≤ c - length (tasks s))%nat
  ∧ ((c ≤ length (tasks s))%nat →
     (nextTaskIndex s' ≤ length (tasks s'))%nat)
  ∧ (heap s' = heap s ∧ taskStatuses s' = taskStatuses s ∧ trace s' = trace s).
Proof.
  cbn zeta. rewrite (eraseTask_found p s i (list_find_first _ _ _ Hat Hfirst)).
  pose proof (lookup_lt_Some _ _ _ Hat) as Hlen.
  destruct (Nat.ltb_spec i (nextTaskIndex s)) as [Hlt|Hge]; cbn.
  - repeat split; try lia.
    + rewrite <- Nat.sub_1_r. by apply drop_delete_lt.
    + intros q _ Hq. rewrite list_lookup_delete_ge by lia.
      by replace (S (Nat.pred (nextTaskIndex s))) with (nextTaskIndex s) by lia.
    + rewrite length_delete by eauto. lia.
    + rewrite length_delete by eauto. lia.
  - repeat split; try lia.
    + by apply drop_delete_ge.
    + intros q Hq Hc. destruct (decide (i = nextTaskIndex s)) as [->|Hne].
      * congruence.
      * rewrite list_lookup_delete_lt by lia. done.
    + rewrite length_delete by eauto. lia.
    + rewrite length_delete by eauto. lia.
Qed.

Lemma eraseTask_cursor_witness :
  let s := set_nextTaskIndex 2 sampleState in
  tasks (eraseTask 1%positive s) = [2%positive]
  ∧ nextTaskIndex (eraseTask 1%positive s) = 1%nat
  ∧ nextTaskIndex (eraseTask 2%positive (set_nextTaskIndex 1 sampleState)) = 1%nat.
Proof.
  assert (∀ j, (j < 0)%nat →
               tasks (set_nextTaskIndex 2 sampleState) !! j ≠ Some 1%positive)
    as Hfirst1 by (intros j Hj; lia).
  assert (∀ j, (j < 1)%nat →
               tasks (set_nextTaskIndex 1 sampleState) !! j ≠ Some 2%positive)
    as Hfirst2.
  { intros j Hj. destruct j as [|j]; [|lia]. discriminate. }
  pose proof (eraseTask_cursor 1%positive (set_nextTaskIndex 2 sampleState)
                0 eq_refl Hfirst1) as (H1 & H2 & _).
  pose proof (eraseTask_cursor 2%positive (set_nextTaskIndex 1 sampleState)
                1 eq_refl Hfirst2) as (_ & _ & H3 & _).
  split; [exact H1|]. split.
  - apply eq_add_S. apply H2. cbn. lia.
  - apply H3. cbn. lia.
Defined.

(** ** Completion of a task (C1) *)

Lemma filter_all {A} (P : A → Prop) `{∀ x, Decision (P x)} (l : list A) :
  Forall P l → filter P l = l.
Proof.
  induction 1 as [|x l Hx Hl IH]; [done|].
  rewrite filter_cons_True by done. by f_equal.
Qed.

(** Erasing the first element whose key is [a] from a list with distinct
    keys leaves the elements whose key is not [a]. *)
Lemma delete_first_filter {A B} `{EqDecision B} (f : A → B) (a : B) (l : list A) :
  NoDup (f <$> l) →
  match list_find (λ x, f x = a) l with
  | Some (i, _) => delete i l
  | None => l
  end = filter (λ x, f x ≠ a) l.
Proof.
  induction l as [|x l IH]; intros Hnd; [done|].
  rewrite fmap_cons in Hnd. apply NoDup_cons in Hnd as [Hx Hnd].
  cbn [list_find]. destruct (decide (f x = a)) as [E|E].
  - cbn [delete list_delete]. rewrite filter_cons_False by (intros ?; done).
    symmetry. apply filter_all, Forall_forall. intros y Hy Heq.
    apply Hx. rewrite E, <- Heq. by apply list_elem_of_fmap_2.
  - rewrite filter_cons_True by done. rewrite <- (IH Hnd).
    by destruct (list_find _ l) as [[i y]|].
Qed.

Lemma eraseTask_filter (p : ptr) (s : State) :
  NoDup (tasks s) → tasks (eraseTask p s) = filter (λ q, q ≠ p) (tasks s).
Proof.
  intros Hnd. rewrite <- (delete_first_filter id p (tasks s))
    by by rewrite list_fmap_id.
  unfold eraseTask.
  destruct (list_find _ _) as [[i q]|]; [by destruct (_ <? _)%nat|done].
Qed.

Lemma eraseStatus_filter (taskID : Z) (s : State) :
  NoDup (TaskStatus.taskID <$> taskStatuses s) →
  taskStatuses (eraseStatus taskID s)
  = filter (λ ts, TaskStatus.taskID ts ≠ taskID) (taskStatuses s).
Proof.
  intros Hnd. rewrite <- (delete_first_filter TaskStatus.taskID taskID _ Hnd).
  unfold eraseStatus. by destruct (list_find _ _) as [[i q]|].
Qed.

(** What [finalize] does when the entry is still allocated. *)
Lemma finalize_live (p : ptr) (s : State) (taskDetails : TaskDetails_lt) :
  heap s !! p = Some taskDetails →
  finalize p s
  = emit (EvDelete p)
      (set_heap (delete p (heap s))
         (emit (EvUpdateTaskStatus p
                  (TaskStatus.set_complete true (Task.taskStatus (task taskDetails))))
            s)).
Proof. intros H. unfold finalize. by rewrite H. Qed.

(** * The threads together *)

(** Invariants are proved along a schedule. *)
Lemma run_invariant (P : System → Prop) :
  (∀ a sys sys', P sys → step a sys = Some sys' → P sys') →
  ∀ acts sys sys', P sys → run acts sys = Some sys' → P sys'.
Proof.
  intros Hstep acts. induction acts as [|a acts IH]; intros sys sys' HP Hrun.
  - cbn in Hrun. by simplify_eq.
  - cbn in Hrun. destruct (step a sys) as [sys1|] eqn:E; [|done].
    eapply IH; [|exact Hrun]. by eapply Hstep.
Qed.

Lemma reachable_invariant (P : System → Prop) (nThreads : nat) :
  P (TaskQueue nThreads) →
  (∀ a sys sys', P sys → step a sys = Some sys' → P sys') →
  ∀ sys, reachable nThreads sys → P sys.
Proof. intros H0 Hstep sys [acts Hrun]. by eapply run_invariant. Qed.

(** Unfold one transition into its cases. *)
Ltac step_cases H :=
  unfold step, workerStep, performReturns, adminStep, destructorStep,
    continue_at, acquire, release, callable, setNumberOfTaskThreads,
    addThreads in H;
  unfold workerIteration, dispatch, afterPerformTask, endOfSweep, workerExit,
    finalize, performTask_returns, performTask_called, markWorkDone,
    cancelTask, pauseTask, togglePauseTask, eraseTask, eraseStatus,
    updateWaitingMessages_notify, updateWaitingMessage, statusChangedCallback,
    taskStatusChanged, addStatusChangedCallback, removeStatusChangedCallback
    in H;
  repeat (case_match; simplify_eq/=; try done).

(** The same, with the member functions left as they are. *)
Ltac thread_cases H :=
  unfold step, workerStep, performReturns, adminStep, destructorStep,
    continue_at, acquire, release, callable, setNumberOfTaskThreads,
    addThreads in H;
  repeat (case_match; simplify_eq/=; try done).

(** Bring the guards of a transition into propositional form and use what
    is known about the program points of the two single threads. *)
Ltac guards :=
  repeat match goal with
         | H : _ && _ = true |- _ => apply andb_prop in H as [? ?]
         | H : bool_decide _ = true |- _ => apply bool_decide_eq_true in H
         | H : (_ <? _)%nat = false |- _ => apply Nat.ltb_ge in H
         | H : (_ <? _)%nat = true |- _ => apply Nat.ltb_lt in H
         | H : (_ <=? _)%nat = false |- _ => apply Nat.leb_gt in H
         | H : (_ <=? _)%nat = true |- _ => apply Nat.leb_le in H
         | H : (_ =? _) = true |- _ => apply Z.eqb_eq in H
         end.

Ltac known_points sys :=
  repeat match goal with
         | E : admin sys = _ |- _ => progress (rewrite E in * )
         | E : destructor sys = _ |- _ => progress (rewrite E in * )
         | E : mutex sys = _ |- _ => progress (rewrite E in * )
         end.

(** The two loops of the destructor in closed form. *)
Lemma cancel_loop (l : list ptr) (s : State) :
  foldl (λ s p, emit (EvCancelTask p) s) s l = emits (EvCancelTask <$> l) s.
Proof.
  revert s. induction l as [|p l IH]; intros s; cbn.
  - unfold emits. rewrite app_nil_r. by destruct s.
  - rewrite IH. unfold emits, emit. cbn. by rewrite <- app_assoc.
Qed.

Lemma deleteAll_closed (s : State) :
  deleteAll s
  = emits (EvDelete <$> tasks s)
      (set_heap (foldl (λ h p, delete p h) (heap s) (tasks s)) s).
Proof.
  unfold deleteAll. generalize (tasks s) as l. intros l.
  revert s. induction l as [|p l IH]; intros s; cbn.
  - unfold emits, set_heap. cbn. rewrite app_nil_r. by destruct s.
  - rewrite IH. unfold emits, emit, set_heap. cbn. by rewrite <- app_assoc.
Qed.

Lemma cancelAll_closed (s : State) :
  cancelAll s = emits ((EvCancelTask <$> tasks s) ++ [EvWakeAll]) s.
Proof.
  unfold cancelAll. rewrite cancel_loop. unfold emits, emit. cbn.
  by rewrite <- app_assoc.
Qed.

(** ** [workDone] records the calls of [performTask] *)



(** ** The registry mutex *)

Lemma mutex_inv_step a sys sys' :
  mutex_inv sys → step a sys = Some sys' → mutex_inv sys'.
Proof.
  intros [Hw Ho Ha Hd] Hstep.
  thread_cases Hstep;
    try match goal with
        | H : workers sys !! ?i = Some ?pc |- _ =>
            pose proof (Hw i pc H) as Hi; cbn in Hi
        end;
    repeat match goal with
           | E : admin sys = _ |- _ => rewrite E in *; clear E
           | E : destructor sys = _ |- _ => rewrite E in *; clear E
           | E : mutex sys = _ |- _ => rewrite E in *; clear E
           end;
    constructor; cbn;
    try (intros j pc' Hj;
         apply list_lookup_insert_Some in Hj as [(-> & <- & _)|(Hne & Hj)];
         [|pose proof (Hw j pc' Hj) as Hj']);
    try (intros j Hj; apply list_lookup_insert_is_Some);
    cbn in *; try done; try tauto; try (intuition congruence);
    try (by simplify_eq; eauto);
    try (intros j pc' Hj; pose proof (Hw j pc' Hj); intuition congruence).
  - intros i pc [Hi|[_ Hi]]%lookup_app_Some; [by apply Hw|].
    apply lookup_replicate_1 in Hi as [-> _]. cbn.
    apply andb_prop in H as [_ H%bool_decide_eq_true]. rewrite H.
    split; done.
  - apply andb_prop in H as [_ H%bool_decide_eq_true]. rewrite H. done.
Qed.

Lemma mutex_inv_reachable nThreads sys : reachable nThreads sys → mutex_inv sys.
Proof.
  apply reachable_invariant; [|intros a s1 s2; apply mutex_inv_step].
  unfold TaskQueue. cbn. constructor; cbn; try done.
  intros i pc Hi. apply lookup_replicate_1 in Hi as [-> _]. done.
Qed.

(** ** The thread counter and the shutdown *)

Lemma running_insert (ws : list WorkerPC) (i : nat) (pc pc' : WorkerPC) :
  ws !! i = Some pc →
  (running (<[i := pc']> ws) + alive pc = running ws + alive pc')%nat.
Proof.
  revert i. induction ws as [|x ws IH]; intros i Hi; [done|].
  destruct i as [|i]; cbn in Hi.
  - simplify_eq. simpl. lia.
  - specialize (IH i Hi). simpl. lia.
Qed.

Lemma running_app (ws ws' : list WorkerPC) :
  running (ws ++ ws') = (running ws + running ws')%nat.
Proof. induction ws as [|x ws IH]; cbn; [done|]. rewrite IH. lia. Qed.

Lemma running_replicate (n : nat) : running (replicate n WBlocked) = n.
Proof. induction n as [|n IH]; cbn; [done|]. by rewrite IH. Qed.

Lemma running_none (ws : list WorkerPC) (i : nat) (pc : WorkerPC) :
  running ws = 0%nat → ws !! i = Some pc → pc = WExited.
Proof.
  revert i. induction ws as [|x ws IH]; intros i H0 Hi; [done|].
  cbn in H0. destruct i as [|i]; cbn in Hi.
  - simplify_eq. destruct pc; cbn in H0; first [done|lia].
  - eapply IH; [lia|done].
Qed.

Lemma shutdown_inv_step a sys sys' :
  shutdown_inv sys → step a sys = Some sys' → shutdown_inv sys'.
Proof.
  intros [Hc Hf Hjw Hja] Hstep.
  step_cases Hstep; guards;
    try match goal with
        | H : workers sys !! ?i = Some ?pc |- _ =>
            pose proof (λ pc', running_insert _ _ _ pc' H) as Hins;
            cbn in Hins
        end;
    constructor; cbn; rewrite ?cancel_loop, ?deleteAll_closed; cbn;
    known_points sys; cbn in *;
    try done; try tauto; try (intuition congruence);
    try (intros; lia);
    try match goal with
        | |- _ = running (<[_ := ?pc']> _) =>
            specialize (Hins pc'); cbn in Hins; lia
        end.
  - intros Hj. by rewrite (Hjw Hj).
  - intros Hj. by rewrite (Hjw Hj).
  - rewrite running_app, running_replicate. lia.
Qed.

Lemma shutdown_inv_reachable nThreads sys :
  reachable nThreads sys → shutdown_inv sys.
Proof.
  apply reachable_invariant; [|intros a s1 s2; apply shutdown_inv_step].
  unfold TaskQueue. cbn. constructor; cbn; try done.
  rewrite running_replicate. lia.
Qed.

(** ** Registry, heap and the entries taken by workers *)

Section Ownership.
Implicit Types (o : Ownership) (p q : ptr) (i j : nat).

(** Only the cursor moves, within the list. *)
Lemma owned_cursor o c :
  owned o → (c ≤ length (o_tasks o))%nat →
  owned (mkOwnership (o_tasks o) c (o_next o) (o_flags o) (o_claims o)
           (o_destroyed o)).
Proof. intros [] Hc. by constructor. Qed.

(** Line 153: a worker without an entry takes the entry under the cursor,
    which is not marked active. *)
Lemma owned_dispatch o i p :
  owned o →
  o_tasks o !! o_cursor o = Some p → o_flags o !! p = Some false →
  o_claims o !! i = Some None →
  owned (mkOwnership (o_tasks o) (S (o_cursor o)) (o_next o)
           (<[p := true]> (o_flags o))
           (<[i := Some (p, false)]> (o_claims o)) (o_destroyed o)).
Proof.
  intros [Hnd Hlive Halloc Hown Hact Hreg Honce Hheld Hcur] Hp Hf Hi.
  assert (∀ j b, o_claims o !! j = Some (Some (p, b)) → False) as Hfree.
  { intros j b Hj. specialize (Hact j p b Hj). congruence. }
  constructor; cbn.
  - done.
  - intros q Hd Hq. rewrite lookup_insert_is_Some'. right. by apply Hlive.
  - intros q Hq. apply lookup_insert_is_Some' in Hq as [<-|Hq]; [|by apply Halloc].
    apply Halloc. by rewrite Hf.
  - intros q Hq. apply lookup_insert_is_Some' in Hq as [<-|Hq].
    + left. by eapply list_elem_of_lookup_2.
    + destruct (Hown q Hq) as [?|[j Hj]]; [by left|right].
      exists j. rewrite list_lookup_insert_ne; [done|]. intros ->. congruence.
  - intros j q b Hj.
    apply list_lookup_insert_Some in Hj as [(_ & [= <- <-] & _)|(Hne & Hj)].
    + by rewrite lookup_insert_eq.
    + rewrite lookup_insert_ne; [by eapply Hact|]. intros <-. by eapply Hfree.
  - intros j q b Hj.
    apply list_lookup_insert_Some in Hj as [(_ & [= <- <-] & _)|(Hne & Hj)].
    + split; [done|]. intros _. by eapply list_elem_of_lookup_2.
    + by eapply Hreg.
  - intros j k q b b' Hj Hk.
    apply list_lookup_insert_Some in Hj as [(<- & [= <- <-] & _)|(Hne & Hj)];
      apply list_lookup_insert_Some in Hk as [(<- & [= ] & _)|(Hne' & Hk)];
      simplify_eq; try done.
    + exfalso. by eapply Hfree.
    + exfalso. by eapply Hfree.
    + by eapply Honce.
  - intros q Hq. destruct (decide (q = p)) as [->|Hne].
    + exists i, false. apply list_lookup_insert_eq. by eapply lookup_lt_Some.
    + rewrite lookup_insert_ne in Hq by done.
      destruct (Hheld q Hq) as (j & b & Hj). exists j, b.
      rewrite list_lookup_insert_ne; [done|]. intros ->. congruence.
  - apply lookup_lt_Some in Hp. lia.
Qed.

(** Lines 193-195: the worker gives its entry back, not marked active. *)
Lemma owned_release o i p c :
  owned o → o_claims o !! i = Some (Some (p, false)) →
  (c ≤ length (o_tasks o))%nat →
  owned (mkOwnership (o_tasks o) c (o_next o) (<[p := false]> (o_flags o))
           (<[i := None]> (o_claims o)) (o_destroyed o)).
Proof.
  intros [Hnd Hlive Halloc Hown Hact Hreg Honce Hheld Hcur] Hi Hc.
  assert (∀ j q b, <[i := None]> (o_claims o) !! j = Some (Some (q, b)) →
                   j ≠ i ∧ q ≠ p ∧ o_claims o !! j = Some (Some (q, b)))
    as Hother.
  { intros j q b Hj.
    apply list_lookup_insert_Some in Hj as [(_ & [=] & _)|(Hne & Hj)].
    split; [done|]. split; [|done]. intros ->. apply Hne. by eapply Honce. }
  constructor; cbn.
  - done.
  - intros q Hd Hq. rewrite lookup_insert_is_Some'. right. by apply Hlive.
  - intros q Hq. apply lookup_insert_is_Some' in Hq as [<-|Hq]; [|by apply Halloc].
    apply Halloc. by rewrite (Hact i p false Hi).
  - intros q Hq. apply lookup_insert_is_Some' in Hq as [<-|Hq].
    + left. by apply (Hreg i p false Hi).
    + destruct (Hown q Hq) as [?|[j Hj]]; [by left|right].
      exists j. rewrite list_lookup_insert_ne; [done|]. intros ->. congruence.
  - intros j q b (Hne & Hq & Hj)%Hother.
    rewrite lookup_insert_ne by done. by eapply Hact.
  - intros j q b (Hne & Hq & Hj)%Hother. by eapply Hreg.
  - intros j k q b b' (_ & _ & Hj)%Hother (_ & _ & Hk)%Hother. by eapply Honce.
  - intros q Hq. destruct (decide (q = p)) as [->|Hne].
    + by rewrite lookup_insert_eq in Hq.
    + rewrite lookup_insert_ne in Hq by done.
      destruct (Hheld q Hq) as (j & b & Hj). exists j, b.
      rewrite list_lookup_insert_ne; [done|]. intros ->. congruence.
  - done.
Qed.

(** Lines 163-169: the worker takes its entry out of the registry. *)
Lemma owned_erase o i p c :
  owned o → o_claims o !! i = Some (Some (p, false)) →
  (c ≤ length (filter (λ q, q ≠ p) (o_tasks o)))%nat →
  owned (mkOwnership (filter (λ q, q ≠ p) (o_tasks o)) c (o_next o)
           (o_flags o) (<[i := Some (p, true)]> (o_claims o))
           (o_destroyed o)).
Proof.
  intros [Hnd Hlive Halloc Hown Hact Hreg Honce Hheld Hcur] Hi Hc.
  pose proof (lookup_lt_Some _ _ _ Hi) as Hlt.
  constructor; cbn.
  - by apply NoDup_filter.
  - intros q Hd [_ Hq]%list_elem_of_filter. by apply Hlive.
  - done.
  - intros q Hq. destruct (decide (q = p)) as [->|Hne].
    + right. exists i. by apply list_lookup_insert_eq.
    + destruct (Hown q Hq) as [?|[j Hj]].
      * left. by apply list_elem_of_filter.
      * right. exists j. rewrite list_lookup_insert_ne; [done|].
        intros ->. congruence.
  - intros j q b Hj.
    apply list_lookup_insert_Some in Hj as [(_ & [= <- <-] & _)|(Hne & Hj)];
      by eapply Hact.
  - intros j q b Hj.
    apply list_lookup_insert_Some in Hj as [(_ & [= <- <-] & _)|(Hne & Hj)].
    + split; [|done]. intros [Hq _]%list_elem_of_filter. done.
    + rewrite list_elem_of_filter, <- (Hreg j q b Hj).
      split; [by intros [_ ?]|]. intros Hq. split; [|done].
      intros ->. apply Hne. by eapply Honce.
  - intros j k q b b' Hj Hk.
    apply list_lookup_insert_Some in Hj as [(<- & [= <- <-] & _)|(Hne & Hj)];
      apply list_lookup_insert_Some in Hk as [(<- & [= ] & _)|(Hne' & Hk)];
      simplify_eq; try done.
    + exfalso. apply Hne'. by eapply Honce.
    + exfalso. apply Hne. by eapply Honce.
    + by eapply Honce.
  - intros q Hq. destruct (Hheld q Hq) as (j & b & Hj).
    destruct (decide (j = i)) as [->|Hne].
    + exists i, true. rewrite Hi in Hj. simplify_eq.
      by apply list_lookup_insert_eq.
    + exists j, b. by rewrite list_lookup_insert_ne.
  - done.
Qed.

(** Line 188: the worker deletes the entry it took out of the registry. *)
Lemma owned_finalize o i p :
  owned o → o_claims o !! i = Some (Some (p, true)) →
  owned (mkOwnership (o_tasks o) (o_cursor o) (o_next o)
           (delete p (o_flags o)) (<[i := None]> (o_claims o))
           (o_destroyed o)).
Proof.
  intros [Hnd Hlive Halloc Hown Hact Hreg Honce Hheld Hcur] Hi.
  assert (p ∉ o_tasks o) as Hout.
  { intros Hp. by apply (Hreg i p true Hi) in Hp. }
  assert (∀ j q b, <[i := None]> (o_claims o) !! j = Some (Some (q, b)) →
                   j ≠ i ∧ q ≠ p ∧ o_claims o !! j = Some (Some (q, b)))
    as Hother.
  { intros j q b Hj.
    apply list_lookup_insert_Some in Hj as [(_ & [=] & _)|(Hne & Hj)].
    split; [done|]. split; [|done]. intros ->. apply Hne. by eapply Honce. }
  constructor; cbn.
  - done.
  - intros q Hd Hq. rewrite lookup_delete_ne; [by apply Hlive|].
    by intros ->.
  - intros q [_ Hq]%lookup_delete_is_Some. by apply Halloc.
  - intros q [Hne Hq]%lookup_delete_is_Some.
    destruct (Hown q Hq) as [?|[j Hj]]; [by left|right].
    exists j. rewrite list_lookup_insert_ne; [done|]. intros ->.
    rewrite Hi in Hj. by simplify_eq.
  - intros j q b (Hne & Hq & Hj)%Hother.
    rewrite lookup_delete_ne by done. by eapply Hact.
  - intros j q b (Hne & Hq & Hj)%Hother. by eapply Hreg.
  - intros j k q b b' (_ & _ & Hj)%Hother (_ & _ & Hk)%Hother. by eapply Honce.
  - intros q [Hne Hq]%lookup_delete_Some.
    destruct (Hheld q Hq) as (j & b & Hj). exists j, b.
    rewrite list_lookup_insert_ne; [done|]. intros ->.
    rewrite Hi in Hj. by simplify_eq.
  - done.
Qed.

(** Lines 292-295: a new entry, not marked active, at the end of the
    registry. *)
Lemma owned_add o :
  owned o → o_destroyed o = false →
  owned (mkOwnership (o_tasks o ++ [o_next o]) (o_cursor o)
           (Pos.succ (o_next o)) (<[o_next o := false]> (o_flags o))
           (o_claims o) (o_destroyed o)).
Proof.
  intros [Hnd Hlive Halloc Hown Hact Hreg Honce Hheld Hcur] Hd.
  assert (o_flags o !! o_next o = None) as Hfresh.
  { apply eq_None_not_Some. intros H%Halloc. lia. }
  assert (o_next o ∉ o_tasks o) as Hnew.
  { intros H%Hlive; [|done]. rewrite Hfresh in H. by destruct H. }
  constructor; cbn.
  - apply NoDup_app. split; [done|]. split; [|apply NoDup_singleton].
    intros q Hq Heq%list_elem_of_singleton. by subst.
  - intros q _ [Hq|Heq%list_elem_of_singleton]%elem_of_app;
      rewrite lookup_insert_is_Some'; [right; by apply Hlive|by left].
  - intros q Hq. apply lookup_insert_is_Some' in Hq as [<-|Hq%Halloc]; lia.
  - intros q Hq. apply lookup_insert_is_Some' in Hq as [<-|Hq].
    + left. apply elem_of_app. right. by apply list_elem_of_singleton.
    + destruct (Hown q Hq) as [?|?]; [left|by right].
      apply elem_of_app. by left.
  - intros j q b Hj. pose proof (Hact j q b Hj) as Hq.
    rewrite lookup_insert_ne; [done|]. intros <-. congruence.
  - intros j q b Hj. rewrite <- (Hreg j q b Hj), elem_of_app.
    split; [|by left]. intros [?|Heq%list_elem_of_singleton]; [done|].
    subst q. pose proof (Hact j _ b Hj). congruence.
  - done.
  - intros q Hq. destruct (decide (q = o_next o)) as [->|Hne].
    + by rewrite lookup_insert_eq in Hq.
    + rewrite lookup_insert_ne in Hq by done. by apply Hheld.
  - rewrite length_app. lia.
Qed.

(** Line 125: new workers hold nothing. *)
Lemma owned_spawn o n :
  owned o →
  owned (mkOwnership (o_tasks o) (o_cursor o) (o_next o) (o_flags o)
           (o_claims o ++ replicate n None) (o_destroyed o)).
Proof.
  intros [Hnd Hlive Halloc Hown Hact Hreg Honce Hheld Hcur].
  assert (∀ j c, (o_claims o ++ replicate n None) !! j = Some (Some c) →
                 o_claims o !! j = Some (Some c)) as Hold.
  { intros j c [Hj|[_ Hj]]%lookup_app_Some; [done|].
    by apply lookup_replicate_1 in Hj as [? _]. }
  constructor; cbn; try done.
  - intros q Hq. destruct (Hown q Hq) as [?|[j Hj]]; [by left|right].
    exists j. apply lookup_app_Some. by left.
  - intros j q b Hj%Hold. by eapply Hact.
  - intros j q b Hj%Hold. by eapply Hreg.
  - intros j k q b b' Hj%Hold Hk%Hold. by eapply Honce.
  - intros q Hq. destruct (Hheld q Hq) as (j & b & Hj). exists j, b.
    apply lookup_app_Some. by left.
Qed.

Lemma lookup_delete_all {A} (m : gmap ptr A) (l : list ptr) q :
  foldl (λ h p, delete p h) m l !! q = if decide (q ∈ l) then None else m !! q.
Proof.
  revert m. induction l as [|p l IH]; intros m; cbn.
  - rewrite decide_False; [done|apply not_elem_of_nil].
  - rewrite IH. destruct (decide (q ∈ l)) as [Hq|Hq].
    + rewrite decide_True; [done|by right].
    + destruct (decide (q = p)) as [->|Hne].
      * rewrite lookup_delete_eq, decide_True; [done|by left].
      * rewrite lookup_delete_ne by done. rewrite decide_False; [done|].
        by intros [?|?]%elem_of_cons.
Qed.

(** Lines 263-264, when no worker holds an entry: nothing stays allocated. *)
Lemma owned_destroy o :
  owned o → (∀ i c, o_claims o !! i = Some c → c = None) →
  owned (mkOwnership (o_tasks o) (o_cursor o) (o_next o)
           (foldl (λ h p, delete p h) (o_flags o) (o_tasks o))
           (o_claims o) true)
  ∧ foldl (λ h p, delete p h) (o_flags o) (o_tasks o) = ∅.
Proof.
  intros [Hnd Hlive Halloc Hown Hact Hreg Honce Hheld Hcur] Hnone.
  assert (∀ q, foldl (λ h p, delete p h) (o_flags o) (o_tasks o) !! q = None)
    as Hempty.
  { intros q. rewrite lookup_delete_all. case_decide as Hq; [done|].
    apply eq_None_not_Some. intros [?|[j Hj]]%Hown; [done|].
    by apply Hnone in Hj. }
  split; [|by apply map_empty].
  constructor; cbn; try done.
  - intros q Hq. rewrite Hempty in Hq. by destruct Hq.
  - intros q Hq. rewrite Hempty in Hq. by destruct Hq.
  - intros j q b Hj. by apply Hnone in Hj.
  - intros q Hq. by rewrite Hempty in Hq.
Qed.
End Ownership.

Lemma findTask_heap (h : gmap ptr TaskDetails_lt) (taskID : Z) (l : list ptr)
    (p : ptr) (taskDetails : TaskDetails_lt) :
  findTask h taskID l = Some (p, taskDetails) →
  h !! p = Some taskDetails ∧ p ∈ l ∧ Task.taskID (task taskDetails) = taskID.
Proof.
  induction l as [|q l IH]; intros H; [done|]. cbn in H.
  destruct (h !! q) as [td|] eqn:E.
  - destruct (Z.eqb_spec (Task.taskID (task td)) taskID) as [Heq|_].
    + simplify_eq. split; [done|]. split; [by left|done].
    + destruct (IH H) as (? & ? & ?). split; [done|]. split; [by right|done].
  - destruct (IH H) as (? & ? & ?). split; [done|]. split; [by right|done].
Qed.

Lemma erase_filter (p : ptr) (l : list ptr) (n : nat) (x : ptr) :
  NoDup l → list_find (λ q, q = p) l = Some (n, x) →
  delete n l = filter (λ q, q ≠ p) l
  ∧ S (length (delete n l)) = length l ∧ (n < length l)%nat.
Proof.
  intros Hnd H. split.
  - rewrite <- (delete_first_filter id p l) by by rewrite list_fmap_id.
    cbn. by rewrite H.
  - apply list_find_Some in H as (H & _). rewrite length_delete by eauto.
    apply lookup_lt_Some in H. lia.
Qed.

Lemma fmap_delete_all {A} (f : TaskDetails_lt → A)
    (h : gmap ptr TaskDetails_lt) (l : list ptr) :
  f <$> foldl (λ h p, delete p h) h l
  = foldl (λ h p, delete p h) (f <$> h) l.
Proof.
  revert h. induction l as [|p l IH]; intros h; cbn; [done|].
  by rewrite IH, fmap_delete.
Qed.

(** What a transition tells about the abstraction. *)
Ltac own_facts sys :=
  repeat match goal with
         | H : findTask (heap (shared sys)) _ _ = Some _ |- _ =>
             apply findTask_heap in H as (? & ? & ?)
         end;
  repeat match goal with
         | H : workers sys !! ?i = Some ?pc |- _ =>
             lazymatch goal with
             | _ : (claim <$> workers sys) !! i = _ |- _ => fail
             | _ => assert ((claim <$> workers sys) !! i = Some (claim pc))
                      by (by rewrite list_lookup_fmap, H)
             end
         | H : heap (shared sys) !! ?p = Some ?t |- _ =>
             lazymatch goal with
             | _ : (active <$> heap (shared sys)) !! p = _ |- _ => fail
             | _ => assert ((active <$> heap (shared sys)) !! p = Some (active t))
                      by (by rewrite lookup_fmap, H)
             end
         | H : heap (shared sys) !! ?p = None |- _ =>
             lazymatch goal with
             | _ : (active <$> heap (shared sys)) !! p = _ |- _ => fail
             | _ => assert ((active <$> heap (shared sys)) !! p = None)
                      by (by rewrite lookup_fmap, H)
             end
         | H : tasks (shared sys) !! ?c = Some _ |- _ =>
             lazymatch goal with
             | _ : (c < length (tasks (shared sys)))%nat |- _ => fail
             | _ => assert (c < length (tasks (shared sys)))%nat
                      by (by eapply lookup_lt_Some)
             end
         end;
  repeat match goal with
         | H : active _ = _ |- _ => rewrite H in *
         end;
  cbn [claim] in *.

Lemma registry_inv_step a sys sys' :
  registry_inv sys → shutdown_inv sys → step a sys = Some sys' →
  registry_inv sys'.
Proof.
  unfold registry_inv, ownership. intros Hown Hshut Hstep.
  pose proof (cursor_bound _ Hown) as Hcur. cbn in Hcur.
  pose proof (registry_distinct _ Hown) as Hnd. cbn in Hnd.
  step_cases Hstep; guards; known_points sys; own_facts sys;
    rewrite ?cancel_loop, ?deleteAll_closed; cbn in *;
    rewrite ?fmap_insert, ?fmap_delete, ?list_fmap_insert, ?fmap_app,
      ?fmap_replicate, ?fmap_delete_all, ?insert_insert_eq; cbn;
    try done;
    try (rewrite ?insert_id, ?list_insert_id by done;
         first [ done
               | apply (owned_cursor _ _ Hown); cbn; lia ]);
    try (eapply (owned_dispatch _ _ _ Hown); by cbn);
    try (eapply (owned_release _ _ _ _ Hown); cbn; [done | lia]);
    try (eapply (owned_finalize _ _ _ Hown); by cbn);
    try (eapply (owned_spawn _ _ Hown); by cbn);
    try (eapply (owned_add _ Hown); by cbn);
    try match goal with
        | Hc : (claim <$> workers sys) !! _ = Some (Some (?p, false)),
          H : list_find _ (tasks (shared sys)) = Some (?n, _) |- _ =>
            destruct (erase_filter p (tasks (shared sys)) n _ Hnd H)
              as (Hf & Hlen & Hn);
            rewrite Hf in Hlen |- *;
            eapply (owned_erase _ _ p _ Hown); cbn; [done | lia]
        end;
    try (exfalso;
         match goal with
         | Hc : (claim <$> workers sys) !! ?i = Some (Some (?p, ?b)) |- _ =>
             pose proof (held_active _ Hown i p b Hc) as Hx; cbn in Hx;
             congruence
         end);
    try (exfalso;
         match goal with
         | Hc : (claim <$> workers sys) !! ?i = Some (Some (?p, false)),
           Hn : list_find _ (tasks _) = None |- _ =>
             apply list_find_None in Hn; rewrite Forall_forall in Hn;
             apply (Hn p);
             [by apply (held_registered _ Hown i p false Hc) | done]
         end).
  (* the destructor deletes what is left: no worker holds an entry *)
  refine (proj1 (owned_destroy _ Hown _)). cbn. intros i c Hi.
  rewrite list_lookup_fmap in Hi.
  destruct (workers sys !! i) as [pc|] eqn:E; [|done]. cbn in Hi.
  rewrite (running_none (workers sys) i pc) in Hi; [by simplify_eq| |done].
  rewrite <- (count_workers _ Hshut). apply (joined_workers _ Hshut).
  by rewrite H.
Qed.

Lemma registry_inv_initial nThreads : registry_inv (TaskQueue nThreads).
Proof.
  unfold registry_inv, ownership, TaskQueue. cbn.
  rewrite fmap_empty, fmap_replicate. cbn.
  constructor; cbn; try done.
  - apply NoDup_nil_2.
  - intros p _ Hp. by apply elem_of_nil in Hp.
  - intros p Hp. rewrite lookup_empty in Hp. by destruct Hp.
  - intros p Hp. rewrite lookup_empty in Hp. by destruct Hp.
  - intros i p b Hi. by apply lookup_replicate_1 in Hi as [? _].
  - intros i p b Hi. by apply lookup_replicate_1 in Hi as [? _].
  - intros i j p b b' Hi. by apply lookup_replicate_1 in Hi as [? _].
Qed.

Lemma registry_inv_reachable nThreads sys :
  reachable nThreads sys → registry_inv sys.
Proof.
  intros Hr.
  cut (registry_inv sys ∧ shutdown_inv sys); [by intros []|].
  revert sys Hr. apply reachable_invariant.
  - split; [apply registry_inv_initial|].
    apply (shutdown_inv_reachable nThreads). by exists [].
  - intros a s1 s2 [H1 H2] Hstep. split.
    + by eapply registry_inv_step.
    + by eapply shutdown_inv_step.
Qed.

(** ** Every entry is deleted once *)

Lemma deleted_app (tr tr' : list Event) :
  deleted (tr ++ tr') = deleted tr ++ deleted tr'.
Proof. apply omap_app. Qed.

Lemma delivered_app (tr tr' : list Event) :
  delivered (tr ++ tr') = delivered tr ++ delivered tr'.
Proof. apply omap_app. Qed.

Lemma deleted_cancels (l : list ptr) : deleted (EvCancelTask <$> l) = [].
Proof. by induction l. Qed.

Lemma delivered_cancels (l : list ptr) : delivered (EvCancelTask <$> l) = [].
Proof. by induction l. Qed.

Lemma deleted_deletes (l : list ptr) : deleted (EvDelete <$> l) = l.
Proof. induction l as [|p l IH]; [done|]. cbn. by f_equal. Qed.

Lemma delivered_deletes (l : list ptr) : delivered (EvDelete <$> l) = [].
Proof. by induction l. Qed.

Section Accounts.
Implicit Types (a : Accounts) (p q : ptr).

(** A write through a pointer to an allocated entry. *)
Lemma accounted_flag a p b :
  accounted a → is_Some (a_flags a !! p) →
  accounted (mkAccounts (<[p := b]> (a_flags a)) (a_next a) (a_deleted a)
               (a_delivered a)).
Proof.
  intros [Hnd Hgone Hlive Hdel Hall Hsub] Hp. constructor; cbn; try done.
  - intros q Hq. rewrite lookup_insert_ne; [by apply Hgone|].
    intros <-. apply Hgone in Hq. rewrite Hq in Hp. by destruct Hp.
  - intros q [<-|Hq]%lookup_insert_is_Some'; by apply Hlive.
  - intros q Hq. destruct (Hall q Hq) as [?|?]; [left|by right].
    rewrite lookup_insert_is_Some'. by right.
Qed.

(** Lines 187-188. *)
Lemma accounted_finalize a p :
  accounted a → is_Some (a_flags a !! p) →
  accounted (mkAccounts (delete p (a_flags a)) (a_next a)
               (a_deleted a ++ [p]) (a_delivered a ++ [p])).
Proof.
  intros [Hnd Hgone Hlive Hdel Hall Hsub] Hp.
  assert (p ∉ a_deleted a) as Hnew.
  { intros Hq%Hgone. rewrite Hq in Hp. by destruct Hp. }
  constructor; cbn.
  - apply NoDup_app. split; [done|]. split; [|apply NoDup_singleton].
    intros q Hq Heq%list_elem_of_singleton. by subst.
  - intros q [Hq|Heq%list_elem_of_singleton]%elem_of_app.
    + rewrite lookup_delete_ne; [by apply Hgone|]. by intros <-.
    + subst. apply lookup_delete_eq.
  - intros q [_ Hq]%lookup_delete_is_Some. by apply Hlive.
  - intros q [Hq|Heq%list_elem_of_singleton]%elem_of_app;
      [by apply Hdel|subst; by apply Hlive].
  - intros q Hq. destruct (decide (q = p)) as [->|Hne].
    + right. apply elem_of_app. right. by apply list_elem_of_singleton.
    + destruct (Hall q Hq) as [?|?]; [left|right].
      * by rewrite lookup_delete_ne.
      * apply elem_of_app. by left.
  - by apply sublist_app.
Qed.

(** Lines 292-293. *)
Lemma accounted_add a :
  accounted a →
  accounted (mkAccounts (<[a_next a := false]> (a_flags a))
               (Pos.succ (a_next a)) (a_deleted a) (a_delivered a)).
Proof.
  intros [Hnd Hgone Hlive Hdel Hall Hsub]. constructor; cbn; try done.
  - intros q Hq. rewrite lookup_insert_ne; [by apply Hgone|].
    intros <-. apply Hdel in Hq. lia.
  - intros q [<-|Hq%Hlive]%lookup_insert_is_Some'; lia.
  - intros q Hq%Hdel. lia.
  - intros q Hq. destruct (decide (q = a_next a)) as [->|Hne].
    + left. rewrite lookup_insert_eq. by eexists.
    + destruct (Hall q) as [?|?]; [lia|left|by right].
      by rewrite lookup_insert_ne.
Qed.

(** Lines 263-264. *)
Lemma accounted_destroy a (l : list ptr) :
  accounted a → NoDup l → (∀ p, p ∈ l → is_Some (a_flags a !! p)) →
  accounted (mkAccounts (foldl (λ h p, delete p h) (a_flags a) l)
               (a_next a) (a_deleted a ++ l) (a_delivered a)).
Proof.
  intros [Hnd Hgone Hlive Hdel Hall Hsub] Hl Hin. constructor; cbn.
  - apply NoDup_app. split; [done|]. split; [|done].
    intros q Hq%Hgone Hq'%Hin. rewrite Hq in Hq'. by destruct Hq'.
  - intros q Hq. rewrite lookup_delete_all. case_decide as Hq'; [done|].
    apply elem_of_app in Hq as [Hq|Hq]; [by apply Hgone|done].
  - intros q Hq. rewrite lookup_delete_all in Hq.
    case_decide; [by destruct Hq|by apply Hlive].
  - intros q [Hq|Hq%Hin]%elem_of_app; [by apply Hdel|by apply Hlive].
  - intros q Hq. rewrite lookup_delete_all, elem_of_app.
    case_decide as Hq'; [by right; right|].
    destruct (Hall q Hq) as [?|?]; [by left|by right; left].
  - by apply sublist_inserts_r.
Qed.
End Accounts.

(** Past the destructor's wait loop no worker is left. *)
Lemma joined_quiet sys :
  shutdown_inv sys → workers_joined (destructor sys) = true →
  (∀ i pc, workers sys !! i = Some pc → pc = WExited)
  ∧ (∀ i c, (claim <$> workers sys) !! i = Some c → c = None).
Proof.
  intros Hshut Hj.
  assert (∀ i pc, workers sys !! i = Some pc → pc = WExited) as Hw.
  { intros i pc Hi. eapply running_none; [|done].
    rewrite <- (count_workers _ Hshut). by apply (joined_workers _ Hshut). }
  split; [done|]. intros i c Hi. rewrite list_lookup_fmap in Hi.
  destruct (workers sys !! i) as [pc|] eqn:E; [|done].
  apply Hw in E as ->. cbn in Hi. by simplify_eq.
Qed.

Lemma destroyed_quiet sys :
  shutdown_inv sys → destructor sys = DDestroyed →
  (∀ i pc, workers sys !! i = Some pc → pc = WExited) ∧ admin sys = AExited.
Proof.
  intros Hshut Hd. split.
  - apply joined_quiet; [done|]. by rewrite Hd.
  - apply (joined_admin _ Hshut). by rewrite Hd.
Qed.

Lemma trace_inv_step a sys sys' :
  trace_inv sys → registry_inv sys → shutdown_inv sys →
  step a sys = Some sys' → trace_inv sys'.
Proof.
  unfold trace_inv, accounts. intros [Hacc Hempty] Hown Hshut Hstep.
  pose proof (registry_distinct _ Hown) as Hnd. cbn in Hnd.
  pose proof (destroyed_quiet _ Hshut) as Hquiet.
  step_cases Hstep; guards; own_facts sys;
    rewrite ?cancel_loop, ?deleteAll_closed, ?cancelAll_closed; cbn in *;
    rewrite ?fmap_insert, ?fmap_delete, ?fmap_delete_all, ?insert_insert_eq,
      ?deleted_app, ?delivered_app, ?deleted_cancels, ?delivered_cancels,
      ?deleted_deletes, ?delivered_deletes; cbn;
    rewrite ?app_nil_r;
    try done;
    (split;
     [ try done;
       first [ apply (accounted_flag _ _ _ Hacc); cbn; by eexists
             | apply (accounted_finalize _ _ Hacc); cbn; by eexists
             | apply (accounted_add _ Hacc)
             | idtac ]
     | try done;
       try (intros Hd; exfalso; destruct (Hquiet Hd) as [Hw Ha];
            first [ congruence
                  | match goal with
                    | H : workers sys !! _ = Some _ |- _ =>
                        apply Hw in H; congruence
                    end ]) ]).
  - apply (accounted_destroy _ _ Hacc Hnd). cbn. intros p Hp.
    apply (registry_live _ Hown p); [|done]. cbn.
    apply bool_decide_eq_false. by rewrite H.
  - intros _. apply (fmap_empty_inv active). rewrite fmap_delete_all.
    refine (proj2 (owned_destroy _ Hown _)). cbn.
    apply joined_quiet; [done|]. by rewrite H.
Qed.

Lemma trace_inv_reachable nThreads sys : reachable nThreads sys → trace_inv sys.
Proof.
  intros Hr.
  cut (trace_inv sys ∧ registry_inv sys ∧ shutdown_inv sys);
    [by intros (? & ? & ?)|].
  revert sys Hr. apply reachable_invariant.
  - split; [|split].
    + unfold trace_inv, accounts, TaskQueue. cbn. split; [|done].
      rewrite fmap_empty. constructor; cbn; try done.
      * apply NoDup_nil_2.
      * intros p Hp. rewrite lookup_empty in Hp. by destruct Hp.
      * intros p Hp. by apply elem_of_nil in Hp.
      * intros p Hp. lia.
    + apply registry_inv_initial.
    + apply (shutdown_inv_reachable nThreads). by exists [].
  - intros a s1 s2 (H1 & H2 & H3) Hstep. split; [|split].
    + by eapply trace_inv_step.
    + by eapply registry_inv_step.
    + by eapply shutdown_inv_step.
Qed.

(** ** Identifiers and the mirror *)

Section Ids.
Implicit Types (x : Ids) (p q : ptr) (z : Z).

(** Lines 292-300, for a task with a new identifier. *)
Lemma identified_add x p z :
  identified x → i_ids x !! p = None → (∀ q, i_ids x !! q ≠ Some z) →
  identified (mkIds (<[p := z]> (i_ids x)) (i_tasks x ++ [p])
                (i_mirror x ++ [z]) (i_destroyed x)).
Proof.
  intros [Hinj Hsync] Hp Hz. constructor; cbn.
  - intros q r w Hq Hr.
    apply lookup_insert_Some in Hq as [[<- <-]|[Hne Hq]];
      apply lookup_insert_Some in Hr as [[<- Heq]|[Hne' Hr]];
      try done; subst.
    + by destruct (Hz r).
    + by destruct (Hz q).
    + by eapply Hinj.
  - intros Hd. apply Forall2_app.
    + eapply Forall2_impl; [by apply Hsync|]. cbn. intros w q Hq.
      rewrite lookup_insert_ne; [done|]. intros <-. congruence.
    + constructor; [|constructor]. by rewrite lookup_insert_eq.
Qed.

(** The status found for the identifier of a registry entry is at the
    index of the entry. *)
Lemma synced_index x p n n0 z :
  identified x → i_destroyed x = false → NoDup (i_tasks x) →
  i_tasks x !! n = Some p → i_ids x !! p = Some z →
  i_mirror x !! n0 = Some z → n0 = n.
Proof.
  intros [Hinj Hsync] Hd Hnd Hn Hp Hn0.
  destruct (Forall2_lookup_l _ _ _ _ _ (Hsync Hd) Hn0) as (q & Hq & Hz).
  cbn in Hz. rewrite (Hinj q p z Hz Hp) in Hq.
  by eapply NoDup_lookup.
Qed.

Lemma synced_found x p n z :
  identified x → i_destroyed x = false →
  i_tasks x !! n = Some p → i_ids x !! p = Some z →
  i_mirror x !! n = Some z.
Proof.
  intros [Hinj Hsync] Hd Hn Hp.
  destruct (Forall2_lookup_r _ _ _ _ _ (Hsync Hd) Hn) as (w & Hw & Hz).
  cbn in Hz. congruence.
Qed.

(** Lines 163-181. *)
Lemma identified_erase x n :
  identified x →
  identified (mkIds (i_ids x) (delete n (i_tasks x)) (delete n (i_mirror x))
                (i_destroyed x)).
Proof.
  intros [Hinj Hsync]. constructor; cbn; [done|].
  intros Hd. by apply Forall2_delete, Hsync.
Qed.

(** Line 188. *)
Lemma identified_delete x p :
  identified x → p ∉ i_tasks x →
  identified (mkIds (delete p (i_ids x)) (i_tasks x) (i_mirror x)
                (i_destroyed x)).
Proof.
  intros [Hinj Hsync] Hp. constructor; cbn.
  - intros q r z [_ Hq]%lookup_delete_Some [_ Hr]%lookup_delete_Some.
    by eapply Hinj.
  - intros Hd. specialize (Hsync Hd).
    apply Forall2_same_length_lookup. split; [by eapply Forall2_length|].
    intros i z q Hz Hq. rewrite lookup_delete_ne.
    + exact (Forall2_lookup_lr _ _ _ _ _ _ Hsync Hz Hq).
    + intros <-. by apply list_elem_of_lookup_2 in Hq.
Qed.

(** Lines 263-264. *)
Lemma identified_destroy x :
  identified x →
  identified (mkIds (foldl (λ h p, delete p h) (i_ids x) (i_tasks x))
                (i_tasks x) (i_mirror x) true).
Proof.
  intros [Hinj Hsync]. constructor; cbn; [|done].
  intros q r z Hq Hr. rewrite lookup_delete_all in Hq, Hr.
  repeat case_decide; try done. by eapply Hinj.
Qed.
End Ids.

(** What a transition tells about the identifiers. *)
Ltac ids_facts sys :=
  repeat match goal with
         | H : findTask (heap (shared sys)) _ _ = Some _ |- _ =>
             apply findTask_heap in H as (? & ? & ?)
         end;
  repeat match goal with
         | H : heap (shared sys) !! ?p = Some ?t |- _ =>
             lazymatch goal with
             | _ : (_ <$> heap (shared sys)) !! p = Some (Task.taskID (task t))
               |- _ => fail
             | _ => assert (((λ taskDetails, Task.taskID (task taskDetails))
                               <$> heap (shared sys)) !! p
                            = Some (Task.taskID (task t)))
                      by (by rewrite lookup_fmap, H)
             end
         end.

Lemma alive_not_destroyed sys i pc :
  shutdown_inv sys → workers sys !! i = Some pc → alive pc = 1%nat →
  bool_decide (destructor sys = DDestroyed) = false.
Proof.
  intros Hshut Hi Hpc. apply bool_decide_eq_false. intros Hd.
  destruct (destroyed_quiet _ Hshut Hd) as [Hw _]. apply Hw in Hi. by subst.
Qed.

Lemma liveIDs_lookup (s : State) (p : ptr) (taskDetails : TaskDetails_lt) :
  heap s !! p = Some taskDetails → Task.taskID (task taskDetails) ∈ liveIDs s.
Proof.
  intros H. unfold liveIDs. apply list_elem_of_fmap.
  exists (p, taskDetails). split; [done|]. by apply elem_of_map_to_list.
Qed.

(** The completion of lines 163-181 keeps registry and mirror in step. *)
Lemma ids_inv_erase sys i p r taskDetails :
  ids_inv sys → registry_inv sys → shutdown_inv sys →
  workers sys !! i = Some (WLocked p r) →
  heap (shared sys) !! p = Some taskDetails →
  ∃ n ts,
    list_find (λ q, q = p) (tasks (shared sys)) = Some (n, p)
    ∧ list_find (λ ts, TaskStatus.taskID ts = Task.taskID (task taskDetails))
        (taskStatuses (shared sys)) = Some (n, ts).
Proof.
  unfold ids_inv, ids, registry_inv, ownership. intros Hids Hown Hshut Hi Hp.
  pose proof (registry_distinct _ Hown) as Hnd. cbn in Hnd.
  pose proof (alive_not_destroyed _ _ _ Hshut Hi eq_refl) as Hd.
  assert (p ∈ tasks (shared sys)) as Hin.
  { apply (held_registered _ Hown i p false); [|done].
    cbn. by rewrite list_lookup_fmap, Hi. }
  destruct (list_find_elem_of (λ q, q = p) _ p Hin eq_refl) as [[n p'] Hfind].
  pose proof Hfind as (Hn & -> & _)%list_find_Some.
  assert (((λ td, Task.taskID (task td)) <$> heap (shared sys)) !! p
          = Some (Task.taskID (task taskDetails))) as Hid
    by (by rewrite lookup_fmap, Hp).
  pose proof (synced_found _ p n _ Hids Hd Hn Hid) as Hm. cbn in Hm.
  rewrite list_lookup_fmap in Hm.
  destruct (taskStatuses (shared sys) !! n) as [ts|] eqn:Hts; [|done].
  cbn in Hm. injection Hm as Hm.
  destruct (list_find_elem_of
              (λ ts, TaskStatus.taskID ts = Task.taskID (task taskDetails))
              _ ts (list_elem_of_lookup_2 _ _ _ Hts) Hm) as [[n0 ts0] Hfind0].
  pose proof Hfind0 as (Hn0 & Hid0 & _)%list_find_Some.
  assert (n0 = n) as ->.
  { eapply (synced_index _ p n n0 _ Hids Hd Hnd Hn Hid). cbn.
    by rewrite list_lookup_fmap, Hn0, <- Hid0. }
  by exists n, ts0.
Qed.

Lemma ids_inv_step a sys sys' :
  ids_inv sys → registry_inv sys → shutdown_inv sys →
  step a sys = Some sys' → ids_inv sys'.
Proof.
  intros Hids Hown Hshut Hstep.
  pose proof (λ i p r t, ids_inv_erase sys i p r t Hids Hown Hshut) as Herase.
  unfold ids_inv, ids in *.
  step_cases Hstep; guards; ids_facts sys;
    rewrite ?cancel_loop, ?deleteAll_closed, ?cancelAll_closed; cbn in *;
    rewrite ?fmap_insert, ?fmap_delete, ?fmap_delete_all, ?insert_insert_eq,
      ?list_fmap_delete, ?fmap_app, ?overwriteStatus_ids; cbn;
    try done;
    try (rewrite ?insert_id by congruence; done);
    try match goal with
        | Hw : workers sys !! ?i = Some (WLocked ?p ?r),
          Hp : heap (shared sys) !! ?p = Some ?t |- _ =>
            destruct (Herase i p r t Hw Hp) as (n' & ts' & Hf1 & Hf2);
            simplify_eq; by apply (identified_erase _ _ Hids)
        end;
    try (destruct (0 <? Task.timeoutMS (task _)); cbn;
         rewrite insert_id by done; done);
    try match goal with
        | Hr : rewriteMessage ?a ?b ?c ?l = _ |- _ =>
            pose proof (rewriteMessage_ids a b c l) as Hrw;
            rewrite Hr in Hrw; cbn in Hrw; rewrite Hrw;
            rewrite ?insert_id by done; done
        end.
  - (* line 188 *)
    apply (identified_delete _ _ Hids). cbn. intros Hin.
    apply (held_registered _ Hown i p true) in Hin; [done|].
    cbn. by rewrite list_lookup_fmap, H.
  - (* lines 263-264 *)
    apply (identified_destroy _ Hids).
  - (* addTask *)
    destruct H0 as [Hwf Hfresh]. rewrite Hwf.
    apply (identified_add _ _ _ Hids); cbn.
    + rewrite lookup_fmap. apply fmap_None, eq_None_not_Some. intros Hsome.
      pose proof (heap_allocated _ Hown (next_ptr (shared sys))) as Hlt.
      cbn in Hlt. rewrite lookup_fmap, fmap_is_Some in Hlt.
      specialize (Hlt Hsome). lia.
    + intros q Hq. rewrite lookup_fmap in Hq.
      destruct (heap (shared sys) !! q) as [td|] eqn:E; [|done].
      cbn in Hq. injection Hq as Hq. apply Hfresh. rewrite <- Hq.
      by eapply liveIDs_lookup.
Qed.

Lemma ids_inv_reachable nThreads sys : reachable nThreads sys → ids_inv sys.
Proof.
  intros Hr.
  cut (ids_inv sys ∧ registry_inv sys ∧ shutdown_inv sys);
    [by intros (? & ? & ?)|].
  revert sys Hr. apply reachable_invariant.
  - split; [|split].
    + unfold ids_inv, ids, TaskQueue. cbn. rewrite fmap_empty.
      constructor; cbn; [|by constructor].
      intros p q z Hp. by rewrite lookup_empty in Hp.
    + apply registry_inv_initial.
    + apply (shutdown_inv_reachable nThreads). by exists [].
  - intros a s1 s2 (H1 & H2 & H3) Hstep. split; [|split].
    + by eapply ids_inv_step.
    + by eapply registry_inv_step.
    + by eapply shutdown_inv_step.
Qed.

(** ** The claims about the threads *)

Lemma sampleSystem_reachable (n : nat) : reachable 1 (sampleSystem n).
Proof.
  unfold sampleSystem.
  destruct (run (take n sampleSchedule) (TaskQueue 1)) as [sys|] eqn:E.
  - by exists (take n sampleSchedule).
  - by exists [].
Qed.

(** In a live queue registry entries and mirror identifiers are distinct:
    what [finished_task_removed] asks for. *)
Lemma reachable_distinct nThreads sys :
  reachable nThreads sys → destructor sys ≠ DDestroyed →
  NoDup (tasks (shared sys))
  ∧ NoDup (TaskStatus.taskID <$> taskStatuses (shared sys)).
Proof.
  intros Hr Hd.
  pose proof (registry_distinct _ (registry_inv_reachable _ _ Hr)) as Hnd.
  pose proof (ids_inv_reachable _ _ Hr) as [Hinj Hsync]. cbn in *.
  split; [done|]. specialize (Hsync (bool_decide_eq_false_2 _ Hd)).
  apply NoDup_alt. intros i j z Hi Hj.
  destruct (Forall2_lookup_l _ _ _ _ _ Hsync Hi) as (p & Hp & Hpz).
  destruct (Forall2_lookup_l _ _ _ _ _ Hsync Hj) as (q & Hq & Hqz).
  cbn in Hpz, Hqz. rewrite (Hinj p q z Hpz Hqz) in Hp.
  by eapply NoDup_lookup.
Qed.

(** C1.  The entry behind [p] is allocated, its [performTask] returned [No]
    or its [timeoutMS()] is below 1.  Under the mutex the worker takes [p]
    out of the registry and the status with the task's identifier out of
    the mirror, which then holds no status with that identifier, and makes
    no call; after the unlock it calls [updateTaskStatus] once, with the
    task's status marked complete, and deletes the entry once, and touches
    neither registry nor mirror.  Along every schedule no task gets
    [updateTaskStatus] twice and no entry is deleted twice, and until the
    queue is destroyed the registry has no entry twice and the mirror no
    identifier twice. *)
Theorem finished_task_removed (now : Z) (p : ptr) (runAgain : RunAgain)
    (s : State) (taskDetails : TaskDetails_lt)
    (Hlive : heap s !! p = Some taskDetails)
    (Hdone : runAgain = No ∨ Task.timeoutMS (task taskDetails) < 1)
    (Hentries : NoDup (tasks s))
    (Hids : NoDup (TaskStatus.taskID <$> taskStatuses s)) :
  let s1 := (afterPerformTask now p runAgain s).1 in
  let s2 := finalize p s1 in
  let final :=
    TaskStatus.set_complete true (Task.taskStatus (task taskDetails)) in
  (afterPerformTask now p runAgain s).2 = NextFinalize p
  ∧ tasks s1 = filter (λ q, q ≠ p) (tasks s)
  ∧ (p ∉ tasks s1)
  ∧ taskStatuses s1
    = filter (λ ts, TaskStatus.taskID ts ≠ Task.taskID (task taskDetails))
        (taskStatuses s)
  ∧ (Task.taskID (task taskDetails) ∉ TaskStatus.taskID <$> viewTaskStatus id s1)
  ∧ (trace s1 = trace s ∧ heap s1 = heap s)
  ∧ trace s2 = trace s1 ++ [EvUpdateTaskStatus p final; EvDelete p]
  ∧ TaskStatus.complete final = true
  ∧ heap s2 = delete p (heap s)
  ∧ (tasks s2 = tasks s1 ∧ taskStatuses s2 = taskStatuses s1)
  ∧ (Task.taskID (task taskDetails) ∉ TaskStatus.taskID <$> viewTaskStatus id s2)
  ∧ ∀ nThreads sys,
      reachable nThreads sys →
      NoDup (delivered (trace (shared sys)))
      ∧ NoDup (deleted (trace (shared sys)))
      ∧ (destructor sys ≠ DDestroyed →
         NoDup (tasks (shared sys))
         ∧ NoDup (TaskStatus.taskID <$> taskStatuses (shared sys))).
Proof.
  cbn zeta. unfold afterPerformTask. rewrite Hlive.
  assert (finished taskDetails runAgain = true) as ->.
  { unfold finished. destruct Hdone as [->|Hlt]; [apply orb_true_r|].
    apply orb_true_iff. left. by apply Z.ltb_lt. }
  cbn [fst snd].
  set (s1 := eraseStatus (Task.taskID (task taskDetails)) (eraseTask p s)).
  assert (taskStatuses (eraseTask p s) = taskStatuses s
          ∧ trace (eraseTask p s) = trace s ∧ heap (eraseTask p s) = heap s)
    as (Em & Et & Eh).
  { unfold eraseTask. destruct (list_find _ _) as [[i q]|]; [|done].
    by destruct (_ <? _)%nat. }
  assert (tasks s1 = tasks (eraseTask p s) ∧ trace s1 = trace (eraseTask p s)
          ∧ heap s1 = heap (eraseTask p s)) as (Ft & Fr & Fh).
  { unfold s1, eraseStatus. by destruct (list_find _ _) as [[i q]|]. }
  assert (tasks s1 = filter (λ q, q ≠ p) (tasks s)) as Htasks
    by (by rewrite Ft, eraseTask_filter).
  assert (taskStatuses s1
          = filter (λ ts, TaskStatus.taskID ts ≠ Task.taskID (task taskDetails))
              (taskStatuses s)) as Hmirror
    by (unfold s1; rewrite eraseStatus_filter; by rewrite Em).
  assert (Task.taskID (task taskDetails) ∉ TaskStatus.taskID <$> taskStatuses s1)
    as Hgone.
  { rewrite Hmirror. intros (ts & Heq & Hin)%list_elem_of_fmap.
    apply list_elem_of_filter in Hin as [Hne _]. by apply Hne. }
  assert (heap s1 !! p = Some taskDetails) as Hlive1 by (by rewrite Fh, Eh).
  rewrite (finalize_live p s1 taskDetails Hlive1). unfold viewTaskStatus, id.
  split; [done|]. split; [done|]. split.
  { rewrite Htasks. intros Hin. apply list_elem_of_filter in Hin as [Hne _].
    by apply Hne. }
  split; [done|]. split; [done|]. split; [by rewrite Fr, Fh, Et, Eh|].
  split; [cbn; by rewrite <- app_assoc|]. split; [done|].
  split; [cbn; by rewrite Fh, Eh|]. split; [done|]. split; [done|].
  intros nThreads sys Hr.
  destruct (trace_inv_reachable _ _ Hr) as [[Hnd _ _ _ _ Hsub] _]. cbn in *.
  split; [by eapply sublist_NoDup|]. split; [done|].
  intros Hd. by apply (reachable_distinct nThreads).
Qed.

Lemma finished_task_removed_witness :
  let s1 := (afterPerformTask 7000 2%positive Yes sampleState).1 in
  tasks s1 = filter (λ q, q ≠ 2%positive) (tasks sampleState)
  ∧ 8 ∉ TaskStatus.taskID <$> viewTaskStatus id (finalize 2%positive s1).
Proof.
  assert (NoDup (TaskStatus.taskID <$> taskStatuses sampleState)) as Hids.
  { apply (NoDup_cons_2 7 [8]).
    - intros H. apply list_elem_of_singleton in H. discriminate.
    - apply (NoDup_cons_2 8 []); [apply not_elem_of_nil|apply NoDup_nil_2]. }
  pose proof (finished_task_removed 7000 2%positive Yes sampleState
                (mkTaskDetails
                   (Task.setStatusChangedCallback (Task.setTaskQueue (sampleTask 8 0)))
                   1000 false)
                eq_refl (or_intror eq_refl) sampleState_distinct Hids) as H.
  cbn zeta in H.
  destruct H as (_ & H2 & _ & _ & _ & _ & _ & _ & _ & _ & H11 & _).
  split; [exact H2 | exact H11].
Defined.


(** A transition that changes the [active] flag of an entry is taken by a
    worker that owns the mutex. *)
Lemma active_written_locked a sys sys' p taskDetails taskDetails' :
  mutex_inv sys → registry_inv sys →
  step a sys = Some sys' →
  heap (shared sys) !! p = Some taskDetails →
  heap (shared sys') !! p = Some taskDetails' →
  active taskDetails' ≠ active taskDetails →
  ∃ i now, a = Worker i now ∧ mutex sys = Some (TWorker i).
Proof.
  intros Hmutex Hown Hstep Hp Hp' Hne.
  pose proof (heap_allocated _ Hown) as Halloc. cbn in Halloc.
  step_cases Hstep; guards;
    rewrite ?cancel_loop, ?deleteAll_closed in Hp'; cbn in *;
    repeat match goal with
           | H : <[_ := _]> _ !! _ = Some _ |- _ =>
               apply lookup_insert_Some in H as [[<- <-]|[? H]]
           | H : delete _ _ !! _ = Some _ |- _ =>
               apply lookup_delete_Some in H as [? H]
           end;
    simplify_eq; cbn in *; try congruence;
    try (eexists _, _; split; [done|];
         match goal with
         | H : workers sys !! ?i = Some ?pc |- _ =>
             by apply (mutex_worker _ Hmutex i pc H)
         end).
  - exfalso. rewrite lookup_delete_all in Hp'. case_decide; [done|].
    congruence.
  - exfalso. specialize (Halloc (next_ptr (shared sys))).
    rewrite lookup_fmap, Hp in Halloc. specialize (Halloc ltac:(by eexists)).
    lia.
  - exfalso. apply findTask_heap in H0 as (H0 & _). congruence.
  - exfalso. apply findTask_heap in H0 as (H0 & _). congruence.
Qed.

(** C4.  Along every schedule, for every number of worker threads: no two
    workers have taken the same entry; an entry is marked active exactly
    while a worker has taken it (from line 153 to line 195 or to its
    deletion), so at most one worker has it marked; no two workers are
    inside [performTask] of tasks with the same identifier; and a
    transition that changes the [active] flag of an entry is taken by a
    worker that owns the registry mutex. *)
Theorem mutual_exclusion (nThreads : nat) (sys : System)
    (Hreach : reachable nThreads sys) :
  (∀ i j pci pcj p,
     workers sys !! i = Some pci → workers sys !! j = Some pcj →
     holds pci = Some p → holds pcj = Some p → i = j)
  ∧ (∀ i pc p,
       workers sys !! i = Some pc → holds pc = Some p →
       ∃ taskDetails,
         heap (shared sys) !! p = Some taskDetails ∧ active taskDetails = true)
  ∧ (∀ p taskDetails,
       heap (shared sys) !! p = Some taskDetails → active taskDetails = true →
       ∃ i pc, workers sys !! i = Some pc ∧ holds pc = Some p)
  ∧ (∀ i j p q,
       workers sys !! i = Some (WPerforming p) →
       workers sys !! j = Some (WPerforming q) →
       taskID_of (shared sys) p = taskID_of (shared sys) q → i = j)
  ∧ (∀ a sys' p taskDetails taskDetails',
       step a sys = Some sys' →
       heap (shared sys) !! p = Some taskDetails →
       heap (shared sys') !! p = Some taskDetails' →
       active taskDetails' ≠ active taskDetails →
       ∃ i now, a = Worker i now ∧ mutex sys = Some (TWorker i)).
Proof.
  pose proof (registry_inv_reachable _ _ Hreach) as Hown.
  pose proof (mutex_inv_reachable _ _ Hreach) as Hmutex.
  pose proof (ids_inv_reachable _ _ Hreach) as Hids.
  assert (∀ i pc p, workers sys !! i = Some pc → holds pc = Some p →
                    ∃ b, o_claims (ownership sys) !! i = Some (Some (p, b)))
    as Hclaim.
  { intros i pc p Hi Hp. cbn. rewrite list_lookup_fmap, Hi.
    destruct pc; cbn in *; simplify_eq; by eexists. }
  assert (∀ i p b, o_claims (ownership sys) !! i = Some (Some (p, b)) →
                   ∃ pc, workers sys !! i = Some pc ∧ holds pc = Some p)
    as Hheld.
  { intros i p b Hi. cbn in Hi. rewrite list_lookup_fmap in Hi.
    destruct (workers sys !! i) as [pc|]; [|done]. exists pc. split; [done|].
    destruct pc; cbn in *; by simplify_eq. }
  assert (∀ i pc p, workers sys !! i = Some pc → holds pc = Some p →
                    ∃ taskDetails, heap (shared sys) !! p = Some taskDetails
                                   ∧ active taskDetails = true) as Hactive.
  { intros i pc p Hi Hp. destruct (Hclaim i pc p Hi Hp) as [b Hb].
    pose proof (held_active _ Hown i p b Hb) as Hf. cbn in Hf.
    rewrite lookup_fmap in Hf.
    destruct (heap (shared sys) !! p) as [td|]; [|done].
    exists td. split; [done|]. cbn in Hf. by simplify_eq. }
  assert (∀ i j pci pcj p,
            workers sys !! i = Some pci → workers sys !! j = Some pcj →
            holds pci = Some p → holds pcj = Some p → i = j) as Honce.
  { intros i j pci pcj p Hi Hj Hpi Hpj.
    destruct (Hclaim i pci p Hi Hpi) as [b Hb].
    destruct (Hclaim j pcj p Hj Hpj) as [b' Hb'].
    by eapply (held_once _ Hown). }
  split; [done|]. split; [done|]. split.
  { intros p td Hp Ha.
    destruct (active_held _ Hown p) as (i & b & Hi).
    - cbn. by rewrite lookup_fmap, Hp, <- Ha.
    - destruct (Hheld i p b Hi) as (pc & ? & ?). by exists i, pc. }
  split.
  { intros i j p q Hi Hj Hid.
    destruct (Hactive i _ p Hi eq_refl) as (tp & Hp & _).
    destruct (Hactive j _ q Hj eq_refl) as (tq & Hq & _).
    unfold taskID_of in Hid. rewrite Hp, Hq in Hid. cbn in Hid.
    injection Hid as Hid.
    assert (p = q) as ->.
    { apply (ids_distinct _ Hids p q (Task.taskID (task tp))); cbn;
        rewrite lookup_fmap; [by rewrite Hp|by rewrite Hq, Hid]. }
    by eapply (Honce i j _ _ q Hi Hj). }
  intros a sys' p td td' Hstep Hp Hp' Hne.
  by eapply active_written_locked.
Qed.

Lemma mutual_exclusion_witness :
  ∃ taskDetails,
    heap (shared (sampleSystem 7)) !! 2%positive = Some taskDetails
    ∧ active taskDetails = true.
Proof.
  assert (reachable 1 (sampleSystem 7)) as Hreach
    by (exists (take 7 sampleSchedule); vm_compute; reflexivity).
  exact (proj1 (proj2 (mutual_exclusion 1 (sampleSystem 7) Hreach))
           0%nat (WReturned 2 Yes) 2%positive eq_refl eq_refl).
Defined.





(** ** The dispatch sweep (C6) *)




(** * Further properties of the member functions *)

Lemma sampleState_ids : NoDup (TaskStatus.taskID <$> taskStatuses sampleState).
Proof.
  apply (NoDup_cons_2 7 [8]).
  - intros H. apply list_elem_of_singleton in H. discriminate.
  - apply (NoDup_cons_2 8 []); [apply not_elem_of_nil|apply NoDup_nil_2].
Qed.

Lemma sampleState_range (now : Z) :
  0 ≤ now ≤ 10000 →
  ∀ i p taskDetails,
    tasks sampleState !! i = Some p →
    heap sampleState !! p = Some taskDetails →
    in_int64 (nextRun taskDetails - now).
Proof.
  intros Hnow i p td Hi Hp. destruct i as [|[|i]]; [| |discriminate].
  - injection Hi as <-. injection Hp as <-.
    unfold in_int64, INT64_MIN, INT64_MAX. cbn. lia.
  - injection Hi as <-. injection Hp as <-.
    unfold in_int64, INT64_MIN, INT64_MAX. cbn. lia.
Qed.

Lemma sampleState_first :
  firstTask 7 sampleState 0 1%positive
    (mkTaskDetails
       (Task.setStatusChangedCallback (Task.setTaskQueue (sampleTask 7 5000)))
       6000 false).
Proof.
  split; [reflexivity|]. split; [reflexivity|]. split; [reflexivity|].
  intros j q other Hj. lia.
Qed.


(** ** A task that runs again (lines 191-196) *)

(** The decision of lines 139-153 depends on the entry and the clock only. *)
Lemma dispatch_next (now : Z) (p : ptr) (taskDetails : TaskDetails_lt)
    (s s' : State) :
  (dispatch now p taskDetails s).2 = (dispatch now p taskDetails s').2.
Proof.
  unfold dispatch. destruct (active taskDetails); [done|].
  destruct (Task.paused (task taskDetails)); [done|].
  by destruct (0 <? _).
Qed.

(** X1.  A task that answers [Yes] and repeats every [timeoutMS() >= 1] ms keeps
    its entry and its mirror status; the entry is released with
    [nextRun = now + timeoutMS()], nothing is delivered or deleted, and at
    most the wait of line 207 is called.  A worker that visits the entry
    afterwards passes over it as long as the clock is before that [nextRun]
    and takes it again from then on, unless the task is paused. *)
Theorem afterPerformTask_reschedules (now : Z) (p : ptr) (s : State)
    (taskDetails : TaskDetails_lt)
    (Hlive : heap s !! p = Some taskDetails)
    (Hrepeat : 1 ≤ Task.timeoutMS (task taskDetails))
    (Hrange : in_int64 (now + Task.timeoutMS (task taskDetails))) :
  let r := afterPerformTask now p Yes s in
  let again :=
    mkTaskDetails (task taskDetails)
      (now + Task.timeoutMS (task taskDetails)) false in
  heap r.1 = <[p := again]> (heap s)
  ∧ tasks r.1 = tasks s
  ∧ taskStatuses r.1 = taskStatuses s
  ∧ trace r.1
    = trace s ++ match r.2 with NextWait w => [EvWait w] | _ => [] end
  ∧ (∀ q, r.2 ≠ NextFinalize q)
  ∧ ∀ now' s',
      in_int64 (nextRun again - now') →
      (now' < nextRun again → (dispatch now' p again s').2 = NextIteration)
      ∧ (nextRun again ≤ now' → Task.paused (task taskDetails) = false →
         (dispatch now' p again s').2 = NextPerform p).
Proof.
  cbn zeta. unfold afterPerformTask. rewrite Hlive.
  assert (finished taskDetails Yes = false) as ->.
  { unfold finished. rewrite orb_false_r. apply Z.ltb_ge. lia. }
  assert (reschedule now taskDetails
          = mkTaskDetails (task taskDetails)
              (now + Task.timeoutMS (task taskDetails)) false) as ->.
  { unfold reschedule. rewrite (proj2 (Z.ltb_lt 0 _)) by lia.
    by rewrite (add64_exact _ _ Hrange). }
  assert (∀ now' s',
            in_int64 (now + Task.timeoutMS (task taskDetails) - now') →
            (now' < now + Task.timeoutMS (task taskDetails) →
             (dispatch now' p
                (mkTaskDetails (task taskDetails)
                   (now + Task.timeoutMS (task taskDetails)) false) s').2
             = NextIteration)
            ∧ (now + Task.timeoutMS (task taskDetails) ≤ now' →
               Task.paused (task taskDetails) = false →
               (dispatch now' p
                  (mkTaskDetails (task taskDetails)
                     (now + Task.timeoutMS (task taskDetails)) false) s').2
               = NextPerform p)) as Hvisit.
  { intros now' s' Hr. unfold dispatch. cbn. rewrite (sub64_exact _ _ Hr).
    split.
    - intros Hlt. destruct (Task.paused _); [done|].
      by rewrite (proj2 (Z.ltb_lt 0 _)) by lia.
    - intros Hge ->. by rewrite (proj2 (Z.ltb_ge 0 _)) by lia. }
  unfold endOfSweep.
  destruct (Nat.leb _ _); [destruct (workDone _)|]; cbn;
    (split; [done|]); (split; [done|]); (split; [done|]);
    (split; [by rewrite ?app_nil_r|]); (split; [done|]); exact Hvisit.
Qed.

Lemma afterPerformTask_reschedules_witness :
  let r := afterPerformTask 7000 1%positive Yes sampleState in
  heap r.1 !! 1%positive
  = Some (mkTaskDetails
            (Task.setStatusChangedCallback (Task.setTaskQueue (sampleTask 7 5000)))
            12000 false)
  ∧ tasks r.1 = tasks sampleState.
Proof.
  assert (in_int64 (7000 + 5000)) as Hr
    by (unfold in_int64, INT64_MIN, INT64_MAX; lia).
  assert (1 ≤ 5000) as Hrep by lia.
  pose proof (afterPerformTask_reschedules 7000 1%positive sampleState
                (mkTaskDetails
                   (Task.setStatusChangedCallback
                      (Task.setTaskQueue (sampleTask 7 5000)))
                   6000 false)
                eq_refl Hrep Hr) as H.
  cbn zeta in H. destruct H as (H1 & H2 & _).
  split; [|exact H2]. rewrite H1. apply lookup_insert_eq.
Defined.

(** ** Housekeeping and dispatch together *)

(** X2.  A sweep of [updateWaitingMessages] never holds a task back: a worker
    that reads the clock after the sweep did ([clock i <= now], the clock
    not negative) decides for the entry as it would have decided without
    the sweep, also when the sweep has set [nextRun] to 0. *)
Theorem updateWaitingMessages_keeps_due (clock : nat → Z) (now : Z)
    (s : State) (i : nat) (p : ptr) (taskDetails : TaskDetails_lt)
    (Hdistinct : NoDup (tasks s))
    (Hi : tasks s !! i = Some p)
    (Hp : heap s !! p = Some taskDetails)
    (Hclock : clock i ≤ now)
    (Hnow : 0 ≤ now ≤ INT64_MAX)
    (Hswept : in_int64 (nextRun taskDetails - clock i))
    (Hrange : in_int64 (nextRun taskDetails - now)) :
  ∃ taskDetails',
    heap (updateWaitingMessages clock s) !! p = Some taskDetails'
    ∧ ∀ s1 s2,
        (dispatch now p taskDetails' s1).2 = (dispatch now p taskDetails s2).2.
Proof.
  unfold updateWaitingMessages, updateWaitingMessages_locked.
  pose proof (sweepWaitingMessages_heap_at clock 0 (tasks s) s false i p
                taskDetails Hdistinct Hi Hp) as H.
  destruct (sweepWaitingMessages clock 0 (tasks s) (s, false)) as [s1 c1].
  cbn [fst Nat.add] in H.
  assert (heap (updateWaitingMessages_notify c1 s1) = heap s1) as ->
    by (by destruct c1).
  eexists. split; [exact H|]. intros s2 s3.
  destruct (waiting taskDetails && _) eqn:E; [|apply dispatch_next].
  apply andb_prop in E as [_ E%Z.ltb_lt].
  rewrite (sub64_exact _ _ Hswept) in E.
  unfold dispatch. cbn.
  destruct (active taskDetails); [done|].
  destruct (Task.paused (task taskDetails)); [done|].
  rewrite (sub64_exact _ _ Hrange).
  rewrite (sub64_exact 0 now)
    by (unfold in_int64, INT64_MIN, INT64_MAX in *; lia).
  rewrite (proj2 (Z.ltb_ge 0 (0 - now))) by lia.
  by rewrite (proj2 (Z.ltb_ge 0 (nextRun taskDetails - now))) by lia.
Qed.

Lemma updateWaitingMessages_keeps_due_witness :
  ∃ taskDetails',
    heap (updateWaitingMessages (λ _, 5500) sampleState) !! 2%positive
    = Some taskDetails'
    ∧ ∀ s1 s2,
        (dispatch 5600 2%positive taskDetails' s1).2
        = (dispatch 5600 2%positive
             (mkTaskDetails
                (Task.setStatusChangedCallback (Task.setTaskQueue (sampleTask 8 0)))
                1000 false) s2).2.
Proof.
  apply (updateWaitingMessages_keeps_due (λ _, 5500) 5600 sampleState 1
           2%positive _ sampleState_distinct eq_refl eq_refl);
    unfold in_int64, INT64_MIN, INT64_MAX; cbn; lia.
Defined.

(** A sweep over entries none of which passes the test of line 89 does
    nothing. *)
Lemma sweepWaitingMessages_idle (clock : nat → Z) (i : nat) (l : list ptr)
    (s : State) (changed : bool) :
  (∀ p taskDetails, p ∈ l → heap s !! p = Some taskDetails →
                    waiting taskDetails = false) →
  sweepWaitingMessages clock i l (s, changed) = (s, changed).
Proof.
  revert i. induction l as [|p l IH]; intros i H; [done|].
  cbn [sweepWaitingMessages].
  assert (updateWaitingMessage (clock i) p (s, changed) = (s, changed)) as ->.
  { unfold updateWaitingMessage. destruct (heap s !! p) as [td|] eqn:E; [|done].
    by rewrite (H p td (list_elem_of_here _ _) E). }
  apply IH. intros q td Hq. apply H. by right.
Qed.

(** A sweep allocates nothing. *)
Lemma sweepWaitingMessages_allocated (clock : nat → Z) (i : nat) (l : list ptr)
    (s : State) (changed : bool) (q : ptr) :
  is_Some (heap (sweepWaitingMessages clock i l (s, changed)).1 !! q) →
  is_Some (heap s !! q).
Proof.
  revert i s changed. induction l as [|p l IH]; intros i s changed; [done|].
  cbn [sweepWaitingMessages].
  pose proof (updateWaitingMessage_heap (clock i) p s changed) as H.
  destruct (updateWaitingMessage (clock i) p (s, changed)) as [s1 c1].
  intros Hq%IH. cbn [fst] in H. rewrite H in Hq.
  destruct (heap s !! p) as [td|] eqn:E; [|done].
  destruct (_ && _); [|done].
  apply lookup_insert_is_Some in Hq as [<-|[_ Hq]]; [by eexists|done].
Qed.

(** X3.  Once a sweep has found an idle, unpaused entry overdue its [nextRun] is
    0 and the entry no longer passes the test of line 89; when every entry
    of the registry is active or unpaused and overdue, the next sweep
    writes nothing and runs no callback. *)
Theorem updateWaitingMessages_settles (clock clock' : nat → Z) (s : State)
    (Hdistinct : NoDup (tasks s))
    (Hrange : ∀ i p taskDetails,
        tasks s !! i = Some p → heap s !! p = Some taskDetails →
        in_int64 (nextRun taskDetails - clock i)) :
  let s' := updateWaitingMessages clock s in
  (∀ i p taskDetails,
     tasks s !! i = Some p → heap s !! p = Some taskDetails →
     active taskDetails = false → Task.paused (task taskDetails) = false →
     nextRun taskDetails < clock i →
     ∃ taskDetails',
       heap s' !! p = Some taskDetails'
       ∧ nextRun taskDetails' = Z.min 0 (nextRun taskDetails)
       ∧ waiting taskDetails' = false)
  ∧ ((∀ i p taskDetails,
        tasks s !! i = Some p → heap s !! p = Some taskDetails →
        active taskDetails = true
        ∨ (Task.paused (task taskDetails) = false
           ∧ nextRun taskDetails < clock i)) →
     updateWaitingMessages clock' s' = s').
Proof.
  cbn zeta. unfold updateWaitingMessages at 1 3 4, updateWaitingMessages_locked.
  pose proof (sweepWaitingMessages_frame clock 0 (tasks s) s false)
    as ((Ht & _) & _ & _).
  pose proof (λ k q td, sweepWaitingMessages_heap_at clock 0 (tasks s) s false
                          k q td Hdistinct) as F.
  pose proof (λ q, sweepWaitingMessages_heap_other clock 0 (tasks s) s false q)
    as G.
  destruct (sweepWaitingMessages clock 0 (tasks s) (s, false)) as [s1 c1] eqn:E1.
  cbn [fst Nat.add] in Ht, F, G.
  assert (heap (updateWaitingMessages_notify c1 s1) = heap s1) as Hheap
    by (by destruct c1).
  assert (tasks (updateWaitingMessages_notify c1 s1) = tasks s) as Htasks
    by (by destruct c1).
  assert (∀ i p td, tasks s !! i = Some p → heap s !! p = Some td →
                    Task.paused (task td) = false → nextRun td < clock i →
                    ∃ td', heap s1 !! p = Some td' ∧ active td' = active td
                           ∧ Task.paused (task td') = false
                           ∧ (active td = false →
                              nextRun td' = Z.min 0 (nextRun td))) as Hreset.
  { intros i p td Hi Hp Hpa Hlt. rewrite (F i p td Hi Hp).
    eexists. split; [done|]. unfold waiting. rewrite Hpa, orb_false_r.
    rewrite (sub64_exact _ _ (Hrange i p td Hi Hp)).
    rewrite (proj2 (Z.ltb_lt (nextRun td - clock i) 0)) by lia.
    rewrite andb_true_r.
    destruct (active td) eqn:Ha; cbn; [done|].
    destruct (Z.ltb_spec 0 (nextRun td)); cbn;
      (split; [done|]); (split; [done|]); intros _; lia. }
  split.
  - intros i p td Hi Hp Ha Hpa Hlt. rewrite Hheap.
    destruct (Hreset i p td Hi Hp Hpa Hlt) as (td' & H1 & H2 & H3 & H4).
    exists td'. split; [done|]. split; [by apply H4|].
    unfold waiting. rewrite H3, (H4 Ha), orb_false_r.
    rewrite (proj2 (Z.ltb_ge 0 _)) by lia. by rewrite andb_false_r.
  - intros Hall. unfold updateWaitingMessages, updateWaitingMessages_locked.
    rewrite Htasks, sweepWaitingMessages_idle; [done|].
    intros p td' [i Hi]%list_elem_of_lookup Hp'. rewrite Hheap in Hp'.
    destruct (heap s !! p) as [td|] eqn:Hp.
    + destruct (Hall i p td Hi Hp) as [Ha|[Hpa Hlt]].
      * rewrite (F i p td Hi Hp) in Hp'. injection Hp' as <-.
        assert (waiting td = false) as Hw by (unfold waiting; by rewrite Ha).
        rewrite Hw. exact Hw.
      * destruct (Hreset i p td Hi Hp Hpa Hlt) as (td2 & H1 & H2 & H3 & H4).
        rewrite H1 in Hp'. injection Hp' as <-.
        unfold waiting. rewrite H3, orb_false_r.
        destruct (active td) eqn:Ha; [by rewrite H2|].
        rewrite (H4 eq_refl). rewrite (proj2 (Z.ltb_ge 0 _)) by lia.
        by rewrite andb_false_r.
    + assert (is_Some (heap s !! p)) as [? ?]; [|congruence].
      apply (sweepWaitingMessages_allocated clock 0 (tasks s) s false).
      rewrite E1. by eexists.
Qed.

Lemma updateWaitingMessages_settles_witness :
  ∃ taskDetails',
    heap (updateWaitingMessages (λ _, 5500) sampleState) !! 2%positive
    = Some taskDetails'
    ∧ nextRun taskDetails' = Z.min 0 1000
    ∧ waiting taskDetails' = false.
Proof.
  assert (0 ≤ 5500 ≤ 10000) as Hnow by lia.
  exact (proj1 (updateWaitingMessages_settles (λ _, 5500) (λ _, 6500)
                  sampleState sampleState_distinct
                  (sampleState_range 5500 Hnow))
           1%nat 2%positive
           (mkTaskDetails
              (Task.setStatusChangedCallback (Task.setTaskQueue (sampleTask 8 0)))
              1000 false)
           eq_refl eq_refl eq_refl eq_refl eq_refl).
Defined.

(** ** A push for an identifier that the mirror does not have *)

(** X4.  The callback of [addTask] leaves the mirror as it is when no status has
    the pushed identifier, and runs the status callbacks all the same. *)
Theorem statusChangedCallback_unknown (taskStatus : TaskStatus.t) (s : State)
    (Habsent : TaskStatus.taskID taskStatus
               ∉ TaskStatus.taskID <$> taskStatuses s) :
  let s' := statusChangedCallback taskStatus s in
  viewTaskStatus id s' = viewTaskStatus id s
  ∧ trace s' = trace s ++ [EvStatusChanged (statusChangedCallbacks s)]
  ∧ sameRegistry s s' ∧ heap s' = heap s.
Proof.
  cbn zeta. unfold viewTaskStatus, id. cbn.
  rewrite overwriteStatus_absent by by apply list_find_absent_ids.
  by repeat split.
Qed.

Lemma statusChangedCallback_unknown_witness :
  viewTaskStatus id (statusChangedCallback (sampleStatus 5) sampleState)
  = viewTaskStatus id sampleState.
Proof.
  assert (5 ∉ TaskStatus.taskID <$> taskStatuses sampleState) as H.
  { intros H. apply list_elem_of_In in H. cbn in H.
    destruct H as [H|[H|[]]]; discriminate. }
  exact (proj1 (statusChangedCallback_unknown (sampleStatus 5) sampleState H)).
Defined.

(** X5.  The status that a finished task gets through [updateTaskStatus] (line
    187) does not reach the mirror: when it is delivered the mirror has no
    status with the identifier of the task (lines 172-182 ran before), so a
    push with that identifier changes nothing in what [viewTaskStatus]
    shows, and no status marked complete enters the mirror that way. *)
Theorem completion_not_mirrored (now : Z) (p : ptr) (runAgain : RunAgain)
    (s : State) (taskDetails : TaskDetails_lt) (taskStatus : TaskStatus.t)
    (Hlive : heap s !! p = Some taskDetails)
    (Hdone : runAgain = No ∨ Task.timeoutMS (task taskDetails) < 1)
    (Hids : NoDup (TaskStatus.taskID <$> taskStatuses s))
    (Hid : TaskStatus.taskID taskStatus = Task.taskID (task taskDetails)) :
  let s1 := finalize p (afterPerformTask now p runAgain s).1 in
  let s2 := statusChangedCallback taskStatus s1 in
  viewTaskStatus id s2
  = filter (λ ts, TaskStatus.taskID ts ≠ Task.taskID (task taskDetails))
      (taskStatuses s)
  ∧ viewTaskStatus id s2 = viewTaskStatus id s1
  ∧ trace s2
    = trace s
        ++ [EvUpdateTaskStatus p
              (TaskStatus.set_complete true (Task.taskStatus (task taskDetails)));
            EvDelete p;
            EvStatusChanged (statusChangedCallbacks s)].
Proof.
  cbn zeta. unfold afterPerformTask. rewrite Hlive.
  assert (finished taskDetails runAgain = true) as ->.
  { unfold finished. destruct Hdone as [->|Hlt]; [apply orb_true_r|].
    apply orb_true_iff. left. by apply Z.ltb_lt. }
  cbn [fst].
  set (s1 := eraseStatus (Task.taskID (task taskDetails)) (eraseTask p s)).
  assert (taskStatuses (eraseTask p s) = taskStatuses s
          ∧ trace (eraseTask p s) = trace s ∧ heap (eraseTask p s) = heap s
          ∧ statusChangedCallbacks (eraseTask p s) = statusChangedCallbacks s)
    as (Em & Et & Eh & Ec).
  { unfold eraseTask. destruct (list_find _ _) as [[i q]|]; [|done].
    by destruct (_ <? _)%nat. }
  assert (trace s1 = trace (eraseTask p s) ∧ heap s1 = heap (eraseTask p s)
          ∧ statusChangedCallbacks s1 = statusChangedCallbacks (eraseTask p s))
    as (Fr & Fh & Fc).
  { unfold s1, eraseStatus. by destruct (list_find _ _) as [[i q]|]. }
  assert (taskStatuses s1
          = filter (λ ts, TaskStatus.taskID ts ≠ Task.taskID (task taskDetails))
              (taskStatuses s)) as Hmirror
    by (unfold s1; rewrite eraseStatus_filter; by rewrite Em).
  assert (heap s1 !! p = Some taskDetails) as Hlive1 by (by rewrite Fh, Eh).
  rewrite (finalize_live p s1 taskDetails Hlive1). unfold viewTaskStatus, id.
  cbn. rewrite overwriteStatus_absent.
  - split; [done|]. split; [done|]. rewrite Fr, Et, Fc, Ec.
    by rewrite <- !app_assoc.
  - apply list_find_absent_ids. rewrite Hmirror, Hid.
    intros (ts & Heq & Hin)%list_elem_of_fmap.
    apply list_elem_of_filter in Hin as [Hne _]. by apply Hne.
Qed.

Lemma completion_not_mirrored_witness :
  viewTaskStatus id
    (statusChangedCallback (TaskStatus.mk 8 "Done." false true 1)
       (finalize 2%positive (afterPerformTask 7000 2%positive Yes sampleState).1))
  = filter (λ ts, TaskStatus.taskID ts ≠ 8) (taskStatuses sampleState).
Proof.
  assert (0 < 1) as H01 by lia.
  exact (proj1 (completion_not_mirrored 7000 2%positive Yes sampleState
                  (mkTaskDetails
                     (Task.setStatusChangedCallback
                        (Task.setTaskQueue (sampleTask 8 0)))
                     1000 false)
                  (TaskStatus.mk 8 "Done." false true 1)
                  eq_refl (or_intror H01) sampleState_ids eq_refl)).
Defined.

(** ** Submission and the first run *)

(** X6.  A worker that had reached the end of the registry finds a newly
    submitted task next.  It passes over it when the task is paused or the
    clock is before [now + timeoutMS()], recording the remaining time in
    [waitFor] in the second case, and takes it otherwise: the first run of
    a task is [timeoutMS()] after its submission, or at once when
    [timeoutMS()] is not positive. *)
Theorem addTask_first_run (now now' : Z) (t : Task.t) (s : State)
    (Hrun : finish s = false)
    (Hpool : (numberOfActiveTaskThreads s ≤ numberOfTaskThreads s)%nat)
    (Hcursor : nextTaskIndex s = length (tasks s))
    (Hrange : in_int64 (now + Task.timeoutMS t))
    (Hrange' : in_int64 (now + Task.timeoutMS t - now')) :
  let s' := addTask now t s in
  let r := workerIteration now' s' in
  nextTaskIndex r.1 = S (length (tasks s))
  ∧ (Task.paused t = true → r.2 = NextIteration ∧ waitFor r.1 = waitFor s)
  ∧ (Task.paused t = false → now' < now + Task.timeoutMS t →
     r.2 = NextIteration
     ∧ waitFor r.1 = Z.min (waitFor s) (now + Task.timeoutMS t - now'))
  ∧ (Task.paused t = false → now + Task.timeoutMS t ≤ now' →
     r.2 = NextPerform (next_ptr s)
     ∧ (active <$> heap r.1 !! next_ptr s) = Some true).
Proof.
  cbn zeta. unfold workerIteration.
  assert (finish (addTask now t s) = false) as -> by done.
  assert (numberOfTaskThreads (addTask now t s) = numberOfTaskThreads s) as ->
    by done.
  assert (numberOfActiveTaskThreads (addTask now t s)
          = numberOfActiveTaskThreads s) as -> by done.
  rewrite (proj2 (Nat.ltb_ge _ _) Hpool).
  assert (nextTaskIndex (addTask now t s) = length (tasks s)) as -> by done.
  assert (tasks (addTask now t s) = tasks s ++ [next_ptr s]) as -> by done.
  rewrite list_lookup_middle by done.
  assert (heap (set_nextTaskIndex (S (length (tasks s))) (addTask now t s))
            !! next_ptr s
          = Some (mkTaskDetails
                    (Task.setStatusChangedCallback (Task.setTaskQueue t))
                    (now + Task.timeoutMS t) false)) as ->.
  { cbn. rewrite lookup_insert_eq. by rewrite (add64_exact _ _ Hrange). }
  unfold dispatch. cbn. rewrite (sub64_exact _ _ Hrange').
  destruct (Task.paused t).
  - cbn. split; [done|]. split; [done|]. split; intros; done.
  - split.
    { destruct (0 <? _); cbn; by destruct (_ <? _). }
    split; [done|]. split.
    + intros _ Hlt. rewrite (proj2 (Z.ltb_lt 0 _)) by lia. split; [done|].
      destruct (Z.ltb_spec (now + Task.timeoutMS t - now') (waitFor s)); cbn; lia.
    + intros _ Hge. rewrite (proj2 (Z.ltb_ge 0 _)) by lia. split; [done|].
      cbn. rewrite lookup_insert_eq. done.
Qed.

Lemma addTask_first_run_witness :
  (workerIteration 1200 (addTask 1000 (sampleTask 9 250) (Private 1))).2
  = NextIteration
  ∧ (workerIteration 1250 (addTask 1000 (sampleTask 9 250) (Private 1))).2
    = NextPerform 1%positive.
Proof.
  assert (in_int64 (1000 + Task.timeoutMS (sampleTask 9 250))) as H1
    by (unfold in_int64, INT64_MIN, INT64_MAX; cbn; lia).
  assert (in_int64 (1000 + Task.timeoutMS (sampleTask 9 250) - 1200)) as H2
    by (unfold in_int64, INT64_MIN, INT64_MAX; cbn; lia).
  assert (in_int64 (1000 + Task.timeoutMS (sampleTask 9 250) - 1250)) as H3
    by (unfold in_int64, INT64_MIN, INT64_MAX; cbn; lia).
  assert (numberOfActiveTaskThreads (Private 1)
          ≤ numberOfTaskThreads (Private 1))%nat as Hpool by (cbn; lia).
  split.
  - destruct (addTask_first_run 1000 1200 (sampleTask 9 250) (Private 1)
                eq_refl Hpool eq_refl H1 H2) as (_ & _ & H & _).
    apply H; [reflexivity|cbn; lia].
  - destruct (addTask_first_run 1000 1250 (sampleTask 9 250) (Private 1)
                eq_refl Hpool eq_refl H1 H3) as (_ & _ & _ & H).
    apply H; [reflexivity|cbn; lia].
Defined.

(** ** Pausing and the worker *)

(** X7.  After [pauseTask(taskID, true)] a worker whose cursor is at the entry
    passes over it whatever its [nextRun], without touching [waitFor];
    pausing does not change [nextRun], and pausing and resuming an unpaused
    task leaves the entry as it was. *)
Theorem pauseTask_holds_back (taskID now : Z) (s : State) (i : nat) (p : ptr)
    (taskDetails : TaskDetails_lt)
    (Hfirst : firstTask taskID s i p taskDetails)
    (Hcursor : nextTaskIndex s = i)
    (Hrun : finish s = false)
    (Hpool : (numberOfActiveTaskThreads s ≤ numberOfTaskThreads s)%nat) :
  let s' := pauseTask taskID true s in
  workerIteration now s' = (set_nextTaskIndex (S i) s', NextIteration)
  ∧ (nextRun <$> heap s' !! p) = Some (nextRun taskDetails)
  ∧ (Task.paused (task taskDetails) = false →
     heap (pauseTask taskID false s') = heap s).
Proof.
  destruct Hfirst as (Hi & Hp & Hid & Hbefore). cbn zeta.
  assert (pauseTask taskID true s
          = emit EvWakeAll
              (emit (EvSetPaused p true)
                 (store p (set_task (Task.setPaused true (task taskDetails))
                             taskDetails) s))) as E.
  { unfold pauseTask.
    by rewrite (findTask_Some _ _ _ i p taskDetails Hi Hp Hid Hbefore). }
  rewrite E. split; [|split].
  - unfold workerIteration. cbn -[Nat.ltb]. rewrite Hrun, (proj2 (Nat.ltb_ge _ _) Hpool).
    rewrite Hcursor, Hi. cbn. rewrite lookup_insert_eq. unfold dispatch. cbn.
    by destruct (active taskDetails).
  - cbn. by rewrite lookup_insert_eq.
  - intros Hpa. unfold pauseTask at 1. cbn.
    rewrite (findTask_Some _ _ _ i p
               (set_task (Task.setPaused true (task taskDetails)) taskDetails)).
    + cbn. rewrite insert_insert_eq. apply insert_id. rewrite Hp. f_equal.
      destruct taskDetails as [[] ? ?]. cbn in *. by subst.
    + done.
    + by rewrite lookup_insert_eq.
    + done.
    + intros j q other Hj Hq Hother.
      destruct (decide (q = p)) as [->|Hne].
      * rewrite lookup_insert_eq in Hother. injection Hother as <-. cbn.
        intros Heq. by eapply (Hbefore j p taskDetails).
      * rewrite lookup_insert_ne in Hother by done. by eapply Hbefore.
Qed.

Lemma pauseTask_holds_back_witness :
  workerIteration 9000 (pauseTask 7 true sampleState)
  = (set_nextTaskIndex 1 (pauseTask 7 true sampleState), NextIteration).
Proof.
  assert (numberOfActiveTaskThreads sampleState
          ≤ numberOfTaskThreads sampleState)%nat as Hpool by (cbn; lia).
  exact (proj1 (pauseTask_holds_back 7 9000 sampleState 0 1%positive _
                  sampleState_first eq_refl eq_refl Hpool)).
Defined.

(** X8.  [togglePauseTask] twice gives the task the pause state it had, with two
    calls of [setPaused] and two [wakeAll]. *)
Theorem togglePauseTask_twice (taskID : Z) (s : State) (i : nat) (p : ptr)
    (taskDetails : TaskDetails_lt)
    (Hfirst : firstTask taskID s i p taskDetails) :
  let s' := togglePauseTask taskID (togglePauseTask taskID s) in
  heap s' = heap s
  ∧ trace s'
    = trace s ++ [EvSetPaused p (negb (Task.paused (task taskDetails)));
                  EvWakeAll;
                  EvSetPaused p (Task.paused (task taskDetails)); EvWakeAll]
  ∧ sameRegistry s s' ∧ taskStatuses s' = taskStatuses s.
Proof.
  destruct Hfirst as (Hi & Hp & Hid & Hbefore). cbn zeta.
  set (td1 := set_task (Task.setPaused (negb (Task.paused (task taskDetails)))
                          (task taskDetails)) taskDetails).
  assert (togglePauseTask taskID s
          = emit EvWakeAll
              (emit (EvSetPaused p (negb (Task.paused (task taskDetails))))
                 (store p td1 s))) as ->.
  { unfold togglePauseTask.
    by rewrite (findTask_Some _ _ _ i p taskDetails Hi Hp Hid Hbefore). }
  unfold togglePauseTask. cbn.
  rewrite (findTask_Some _ _ _ i p td1).
  - cbn. rewrite negb_involutive, insert_insert_eq, <- !app_assoc. cbn.
    split; [|by repeat split].
    apply insert_id. rewrite Hp. f_equal.
    by destruct taskDetails as [[] ? ?].
  - done.
  - by rewrite lookup_insert_eq.
  - done.
  - intros j q other Hj Hq Hother.
    destruct (decide (q = p)) as [->|Hne].
    + rewrite lookup_insert_eq in Hother. injection Hother as <-. cbn.
      intros Heq. by eapply (Hbefore j p taskDetails).
    + rewrite lookup_insert_ne in Hother by done. by eapply Hbefore.
Qed.

Lemma togglePauseTask_twice_witness :
  heap (togglePauseTask 7 (togglePauseTask 7 sampleState)) = heap sampleState.
Proof.
  exact (proj1 (togglePauseTask_twice 7 sampleState 0 1%positive _
                  sampleState_first)).
Defined.

(** ** The width of the pool *)

(** X9.  [setNumberOfTaskThreads(n)] records [n], starts the [n - active]
    threads that are missing, none when there are enough, and calls
    [wakeAll]; asking for the same width again starts nothing.  When the
    pool is wider than [n] the next worker at the head of its loop leaves,
    taking one off the counter; when it is not, no worker leaves. *)
Theorem setNumberOfTaskThreads_resizes (n : nat) (now : Z) (s : State) :
  let r := setNumberOfTaskThreads n s in
  r.2 = (n - numberOfActiveTaskThreads s)%nat
  ∧ numberOfActiveTaskThreads r.1 = Nat.max (numberOfActiveTaskThreads s) n
  ∧ numberOfTaskThreads r.1 = n
  ∧ trace r.1 = trace s ++ [EvWakeAll]
  ∧ (setNumberOfTaskThreads n r.1).2 = 0%nat
  ∧ ((n < numberOfActiveTaskThreads s)%nat →
     (workerIteration now r.1).2 = NextExit
     ∧ numberOfActiveTaskThreads (workerIteration now r.1).1
       = Nat.pred (numberOfActiveTaskThreads s)
     ∧ trace (workerIteration now r.1).1
       = trace s ++ [EvWakeAll; EvThreadFinished])
  ∧ ((numberOfActiveTaskThreads s ≤ n)%nat → finish s = false →
     (workerIteration now r.1).2 ≠ NextExit).
Proof.
  cbn zeta. unfold setNumberOfTaskThreads, addThreads. cbn.
  split; [done|]. split; [lia|]. split; [done|]. split; [done|].
  split; [lia|]. split.
  - intros Hlt. unfold workerIteration. cbn -[Nat.ltb].
    replace (n - numberOfActiveTaskThreads s)%nat with 0%nat by lia.
    rewrite Nat.add_0_r.
    rewrite (proj2 (Nat.ltb_lt _ _) Hlt).
    destruct (finish s); cbn; by rewrite <- app_assoc.
  - intros Hle Hrun. unfold workerIteration. cbn -[Nat.ltb]. rewrite Hrun.
    rewrite (proj2 (Nat.ltb_ge _ _)) by lia.
    destruct (tasks s !! nextTaskIndex s) as [p|]; cbn.
    + destruct (heap s !! p) as [td|]; [|done]. unfold dispatch.
      destruct (active td); [done|]. destruct (Task.paused _); [done|].
      by destruct (0 <? _).
    + unfold endOfSweep. cbn. destruct (_ <=? _)%nat; [|done].
      by destruct (workDone s).
Qed.

Lemma setNumberOfTaskThreads_resizes_witness :
  (workerIteration 0 (setNumberOfTaskThreads 1 (shared (TaskQueue 2))).1).2
  = NextExit.
Proof.
  assert (1 < numberOfActiveTaskThreads (shared (TaskQueue 2)))%nat as Hlt
    by (cbn; lia).
  destruct (setNumberOfTaskThreads_resizes 1 0 (shared (TaskQueue 2)))
    as (_ & _ & _ & _ & _ & H & _).
  exact (proj1 (H Hlt)).
Defined.

(** ** The worker's loop under the mutex *)









(** * Further properties of the threads together *)

(** ** The width of the pool along a schedule *)

Lemma pool_inv_step a sys sys' :
  pool_inv sys → step a sys = Some sys' → pool_inv sys'.
Proof.
  unfold pool_inv. intros [Hf Hp] Hstep.
  step_cases Hstep; guards; rewrite ?cancel_loop, ?deleteAll_closed;
    cbn in *; known_points sys;
    (split; [try done; try tauto; try (intuition congruence)|]);
    try done; try tauto; try (intuition congruence); try (intros; lia).
Qed.

Lemma pool_inv_reachable nThreads sys : reachable nThreads sys → pool_inv sys.
Proof.
  apply reachable_invariant; [|intros a s1 s2; apply pool_inv_step].
  unfold pool_inv, TaskQueue. cbn. split; [done|]. intros _. lia.
Qed.

(** X12.  Along every schedule [numberOfActiveTaskThreads] is the number of
    worker threads that have not left their loop, and until the destructor
    is called there are at least as many of them as the constructor or the
    last [setNumberOfTaskThreads] asked for. *)
Theorem pool_width (nThreads : nat) (sys : System)
    (Hreach : reachable nThreads sys) :
  numberOfActiveTaskThreads (shared sys) = running (workers sys)
  ∧ (destructor sys = DAlive →
     finish (shared sys) = false
     ∧ (numberOfTaskThreads (shared sys) ≤ running (workers sys))%nat)
  ∧ workers (TaskQueue nThreads) = replicate nThreads WBlocked.
Proof.
  pose proof (shutdown_inv_reachable _ _ Hreach) as Hshut.
  destruct (pool_inv_reachable _ _ Hreach) as [Hf Hp].
  split; [apply (count_workers _ Hshut)|]. split.
  - intros Hd. split; [by apply Hf|].
    rewrite <- (count_workers _ Hshut). apply Hp. by apply Hf.
  - unfold TaskQueue. cbn. by rewrite Nat.sub_0_r.
Qed.

Lemma pool_width_witness :
  numberOfActiveTaskThreads (shared (sampleSystem 10)) = 1%nat.
Proof.
  assert (reachable 1 (sampleSystem 10)) as Hreach
    by (exists (take 10 sampleSchedule); vm_compute; reflexivity).
  exact (proj1 (pool_width 1 (sampleSystem 10) Hreach)).
Defined.

(** ** The registry and the free store along a schedule *)

(** X13.  Until the queue is destroyed every pointer in the registry points to an
    allocated entry; every allocated entry is in the registry or is the one
    that a worker took out of it and is about to delete (lines 184-188); a
    worker that has taken an entry finds it in the registry until it took
    it out itself; and the cursor is never beyond the end of the registry. *)
Theorem registry_sound (nThreads : nat) (sys : System)
    (Hreach : reachable nThreads sys) :
  (destructor sys ≠ DDestroyed →
   ∀ p, p ∈ tasks (shared sys) → is_Some (heap (shared sys) !! p))
  ∧ (∀ p, is_Some (heap (shared sys) !! p) →
       p ∈ tasks (shared sys)
       ∨ ∃ i, workers sys !! i = Some (WFinalizing p))
  ∧ (∀ i pc p, workers sys !! i = Some pc → holds pc = Some p →
       (p ∈ tasks (shared sys) ↔ pc ≠ WFinalizing p))
  ∧ (nextTaskIndex (shared sys) ≤ length (tasks (shared sys)))%nat.
Proof.
  pose proof (registry_inv_reachable _ _ Hreach) as Hown.
  split; [|split; [|split]].
  - intros Hd p Hp.
    destruct (registry_live _ Hown p) as [b Hb]; cbn; [|done|].
    + by apply bool_decide_eq_false.
    + cbn in Hb. rewrite lookup_fmap in Hb.
      destruct (heap (shared sys) !! p); [by eexists|done].
  - intros p [td Hp]. destruct (heap_owned _ Hown p) as [?|[i Hi]]; cbn.
    + rewrite lookup_fmap, Hp. by eexists.
    + by left.
    + right. exists i. cbn in Hi. rewrite list_lookup_fmap in Hi.
      destruct (workers sys !! i) as [pc|]; [|done].
      destruct pc; cbn in Hi; by simplify_eq.
  - intros i pc p Hi Hp.
    assert (∃ b, (claim <$> workers sys) !! i = Some (Some (p, b))
                 ∧ (b = false ↔ pc ≠ WFinalizing p)) as (b & Hb & Hbb).
    { rewrite list_lookup_fmap, Hi.
      destruct pc; cbn in *; simplify_eq; eexists; (split; [done|]);
        split; congruence. }
    rewrite <- Hbb. apply (held_registered _ Hown i p b Hb).
  - apply (cursor_bound _ Hown).
Qed.

Lemma registry_sound_witness :
  is_Some (heap (shared (sampleSystem 7)) !! 2%positive).
Proof.
  assert (reachable 1 (sampleSystem 7)) as Hreach
    by (exists (take 7 sampleSchedule); vm_compute; reflexivity).
  assert (tasks (shared (sampleSystem 7)) = [1%positive; 2%positive]) as Ht
    by (vm_compute; reflexivity).
  apply (proj1 (registry_sound 1 (sampleSystem 7) Hreach)).
  - vm_compute. discriminate.
  - rewrite Ht. apply list_elem_of_further, list_elem_of_here.
Defined.

(** ** The mirror along a schedule *)



(** ** What a transition adds to the trace *)

Lemma emitted_app (sys sys' : System) (new : list Event) :
  trace (shared sys') = trace (shared sys) ++ new → emitted sys sys' = new.
Proof. unfold emitted. intros ->. apply drop_app_length. Qed.

Lemma emitted_none (sys sys' : System) :
  trace (shared sys') = trace (shared sys) → emitted sys sys' = [].
Proof. unfold emitted. intros ->. apply drop_all. Qed.

(** Every transition appends to the trace. *)
Lemma step_emits a sys sys' :
  step a sys = Some sys' →
  trace (shared sys') = trace (shared sys) ++ emitted sys sys'.
Proof.
  intros Hstep. unfold emitted.
  step_cases Hstep;
    rewrite ?cancelAll_closed, ?cancel_loop, ?deleteAll_closed; cbn;
    rewrite <- ?app_assoc, ?drop_app_length, ?drop_all, ?app_nil_r; done.
Qed.

(** ** Task code runs outside the registry mutex *)

(** X15.  [performTask] and [updateTaskStatus] are called by a worker that does
    not own the registry mutex at that moment, and the housekeeping thread
    runs the status callbacks without owning it: the called code may take
    its time and may call back into the queue. *)
Theorem task_code_unlocked (nThreads : nat) (a : Action) (sys sys' : System)
    (Hreach : reachable nThreads sys)
    (Hstep : step a sys = Some sys') :
  (∀ e, e ∈ emitted sys sys' → task_code e = true →
     ∃ i now, a = Worker i now
              ∧ mutex sys ≠ Some (TWorker i) ∧ mutex sys' = mutex sys)
  ∧ (∀ now cbs, a = Admin now → EvStatusChanged cbs ∈ emitted sys sys' →
       mutex sys ≠ Some TAdmin ∧ mutex sys' = mutex sys).
Proof.
  destruct (mutex_inv_reachable _ _ Hreach) as [Hw _ Ha _].
  unfold emitted.
  step_cases Hstep;
    rewrite ?cancelAll_closed, ?cancel_loop, ?deleteAll_closed; cbn;
    rewrite <- ?app_assoc, ?drop_app_length, ?drop_all; cbn;
    (split;
     [ intros ? ? ?;
       repeat match goal with
              | H : _ ∈ [] |- _ => by apply elem_of_nil in H
              | H : _ ∈ _ :: _ |- _ => apply elem_of_cons in H as [->|H]
              | H : _ ∈ _ ++ _ |- _ => apply elem_of_app in H as [H|H]
              | H : _ ∈ _ <$> _ |- _ =>
                  apply list_elem_of_fmap in H as (? & -> & ?)
              end;
       try done
     | intros ? ? ? ?; try done;
       repeat match goal with
              | H : _ ∈ [] |- _ => by apply elem_of_nil in H
              | H : _ ∈ _ :: _ |- _ => apply elem_of_cons in H as [H|H]
              | H : _ ∈ _ ++ _ |- _ => apply elem_of_app in H as [H|H]
              | H : _ ∈ _ <$> _ |- _ =>
                  apply list_elem_of_fmap in H as (? & ? & ?)
              end;
       try done ]);
    try match goal with
        | H : workers sys !! ?i = Some ?pc |- ∃ _ _, Worker ?i _ = _ ∧ _ =>
            eexists _, _; split; [done|]; split; [|done];
            pose proof (Hw i pc H) as Hi; cbn in Hi; intros Hm;
            apply Hi in Hm; done
        end;
    try (split; [|done]; intros Hm; apply Ha in Hm;
         known_points sys; cbn in Hm; done).
Qed.

Lemma task_code_unlocked_witness : mutex (sampleSystem 5) ≠ Some (TWorker 0).
Proof.
  assert (reachable 1 (sampleSystem 5)) as Hreach
    by (exists (take 5 sampleSchedule); vm_compute; reflexivity).
  assert (step (Worker 0 1000) (sampleSystem 5) = Some (sampleSystem 6))
    as Hstep by (vm_compute; reflexivity).
  assert (emitted (sampleSystem 5) (sampleSystem 6)
          = [EvPerformTask 2%positive]) as He by (vm_compute; reflexivity).
  destruct (proj1 (task_code_unlocked 1 _ _ _ Hreach Hstep)
              (EvPerformTask 2%positive))
    as (i & now & Heq & Hm & _).
  - rewrite He. apply list_elem_of_here.
  - reflexivity.
  - injection Heq as <- _. exact Hm.
Defined.

(** ** No call into a deleted entry *)

Lemma deleted_lookup (tr : list Event) (i : nat) (p : ptr) :
  tr !! i = Some (EvDelete p) → p ∈ deleted tr.
Proof.
  intros H. apply list_elem_of_omap. exists (EvDelete p).
  split; [by eapply list_elem_of_lookup_2|done].
Qed.

Lemma well_ordered_app (tr new : list Event) :
  well_ordered tr → well_ordered new →
  (∀ p e, p ∈ deleted tr → e ∈ new → subject e ≠ Some p) →
  well_ordered (tr ++ new).
Proof.
  intros Htr Hnew Hx i j p e Hi Hj Hlt.
  destruct (decide (j < length tr)%nat).
  - rewrite lookup_app_l in Hi, Hj by lia. by eapply Htr.
  - rewrite (lookup_app_r _ _ j) in Hj by lia.
    destruct (decide (i < length tr)%nat).
    + rewrite lookup_app_l in Hi by lia.
      eapply Hx; [by eapply deleted_lookup|by eapply list_elem_of_lookup_2].
    + rewrite lookup_app_r in Hi by lia. eapply Hnew; [exact Hi|exact Hj|lia].
Qed.

Lemma well_ordered_quiet (new : list Event) :
  deleted new = [] → well_ordered new.
Proof.
  intros H i j p e Hi. apply deleted_lookup in Hi. rewrite H in Hi.
  by apply elem_of_nil in Hi.
Qed.

Lemma well_ordered_last (l : list Event) (p : ptr) :
  deleted l = [] → well_ordered (l ++ [EvDelete p]).
Proof.
  intros H. apply well_ordered_app.
  - by apply well_ordered_quiet.
  - intros i j q e Hi Hj Hlt. apply lookup_lt_Some in Hj. cbn in Hj. lia.
  - intros q e Hq. rewrite H in Hq. by apply elem_of_nil in Hq.
Qed.

Lemma well_ordered_deletes (l : list ptr) :
  NoDup l → well_ordered (EvDelete <$> l).
Proof.
  intros Hnd i j p e Hi Hj Hlt. rewrite list_lookup_fmap in Hi, Hj.
  destruct (l !! i) as [p'|] eqn:Ei; [|done].
  destruct (l !! j) as [q|] eqn:Ej; [|done].
  cbn in Hi, Hj. simplify_eq. cbn. intros [= ->].
  pose proof (NoDup_lookup _ _ _ _ Hnd Ei Ej). lia.
Qed.

Lemma well_ordered_step a sys sys' :
  registry_inv sys → trace_inv sys → step a sys = Some sys' →
  well_ordered (trace (shared sys)) → well_ordered (trace (shared sys')).
Proof.
  intros Hown [Hacc _] Hstep Hwo.
  pose proof (registry_distinct _ Hown) as Hnd. cbn in Hnd.
  assert (∀ q, q ∈ deleted (trace (shared sys)) →
               is_Some (heap (shared sys) !! q) → False) as Hlive.
  { intros q Hq [td Htd]. apply (deleted_gone _ Hacc) in Hq. cbn in Hq.
    by rewrite lookup_fmap, Htd in Hq. }
  assert (∀ i pc q, workers sys !! i = Some pc → holds pc = Some q →
                    is_Some (heap (shared sys) !! q)) as Hheld.
  { intros i pc q Hi Hq.
    assert (∃ b, (claim <$> workers sys) !! i = Some (Some (q, b))) as [b Hb].
    { rewrite list_lookup_fmap, Hi. destruct pc; cbn in *; simplify_eq;
        by eexists. }
    pose proof (held_active _ Hown i q b Hb) as Hf. cbn in Hf.
    rewrite lookup_fmap in Hf.
    destruct (heap (shared sys) !! q); [by eexists|done]. }
  assert (destructor sys ≠ DDestroyed → ∀ q, q ∈ tasks (shared sys) →
          is_Some (heap (shared sys) !! q)) as Hreg.
  { intros Hd q Hq. destruct (registry_live _ Hown q) as [b Hb]; cbn.
    - by apply bool_decide_eq_false.
    - done.
    - cbn in Hb. rewrite lookup_fmap in Hb.
      destruct (heap (shared sys) !! q); [by eexists|done]. }
  assert (next_ptr (shared sys) ∉ deleted (trace (shared sys))) as Hnext.
  { intros Hq. apply (deleted_allocated _ Hacc) in Hq. cbn in Hq. lia. }
  step_cases Hstep; own_facts sys;
    rewrite ?cancelAll_closed, ?cancel_loop, ?deleteAll_closed; cbn;
    rewrite <- ?app_assoc; cbn; try done;
    (apply well_ordered_app;
     [ done
     | first [ apply well_ordered_quiet;
               by rewrite ?deleted_app, ?deleted_cancels
             | apply (well_ordered_last [_]); done
             | by apply well_ordered_deletes ]
     | intros ? ? ? ?;
       repeat match goal with
              | H : _ ∈ [] |- _ => by apply elem_of_nil in H
              | H : _ ∈ _ :: _ |- _ => apply elem_of_cons in H as [->|H]
              | H : _ ∈ _ ++ _ |- _ => apply elem_of_app in H as [H|H]
              | H : _ ∈ _ <$> _ |- _ =>
                  apply list_elem_of_fmap in H as (? & -> & ?)
              end;
       try done; cbn; intros ?; simplify_eq ]).
  all: try (by apply Hnext).
  all: try (by (eapply Hlive; [eassumption|];
                eapply Hheld; [eassumption|done])).
  all: try (by (eapply Hlive; [eassumption|]; eexists; eassumption)).
  all: eapply Hlive; [eassumption|apply Hreg; [congruence|done]].
Qed.

(** A schedule can be continued. *)
Lemma run_snoc (acts : list Action) (a : Action) (sys sys1 sys2 : System) :
  run acts sys = Some sys1 → step a sys1 = Some sys2 →
  run (acts ++ [a]) sys = Some sys2.
Proof.
  revert sys. induction acts as [|b acts IH]; intros sys Hrun Hstep; cbn in *.
  - simplify_eq. by rewrite Hstep.
  - destruct (step b sys) as [sys'|]; [|done]. by apply IH.
Qed.

Lemma reachable_step nThreads a sys sys' :
  reachable nThreads sys → step a sys = Some sys' → reachable nThreads sys'.
Proof. intros [acts Hrun] Hstep. exists (acts ++ [a]). by eapply run_snoc. Qed.

(** An invariant may rely on what is known of reachable states. *)
Lemma reachable_induction (P : System → Prop) (nThreads : nat) :
  P (TaskQueue nThreads) →
  (∀ a sys sys', reachable nThreads sys → P sys → step a sys = Some sys' →
                 P sys') →
  ∀ sys, reachable nThreads sys → P sys.
Proof.
  intros H0 Hstep sys Hr.
  cut (reachable nThreads sys ∧ P sys); [by intros []|].
  revert sys Hr. apply reachable_invariant.
  - split; [by exists []|done].
  - intros a s1 s2 [Hr HP] Hs. split; [by eapply reachable_step|].
    by eapply Hstep.
Qed.

(** X16.  Along every schedule, once an entry has been deleted no call goes to it
    or to its task any more: no [performTask], [updateTaskStatus],
    [cancelTask()], [setPaused], [setStatusChangedCallback], and no second
    [delete]. *)
Theorem no_use_after_delete (nThreads : nat) (sys : System)
    (Hreach : reachable nThreads sys) :
  ∀ i j p e,
    trace (shared sys) !! i = Some (EvDelete p) →
    trace (shared sys) !! j = Some e → (i < j)%nat →
    subject e ≠ Some p.
Proof.
  change (well_ordered (trace (shared sys))).
  revert sys Hreach. apply reachable_induction.
  - intros i j p e Hi. done.
  - intros a s1 s2 Hr Hwo Hstep.
    eapply well_ordered_step; [| |exact Hstep|exact Hwo].
    + by eapply registry_inv_reachable.
    + by eapply trace_inv_reachable.
Qed.

Lemma no_use_after_delete_witness :
  subject (EvCancelTask 1) ≠ Some 2%positive.
Proof.
  assert (reachable 1 (sampleSystem 27)) as Hreach
    by (exists (take 27 sampleSchedule); vm_compute; reflexivity).
  apply (no_use_after_delete 1 (sampleSystem 27) Hreach 10 12);
    [vm_compute; reflexivity|vm_compute; reflexivity|lia].
Defined.

(** ** Completion follows a run *)

Lemma completed_after_run_app (tr new : list Event) :
  completed_after_run tr →
  (∀ p ts, EvUpdateTaskStatus p ts ∈ new →
           TaskStatus.complete ts = true ∧ EvPerformTask p ∈ tr) →
  completed_after_run (tr ++ new).
Proof.
  intros H Hn j p ts Hj. destruct (decide (j < length tr)%nat).
  - rewrite lookup_app_l in Hj by lia.
    destruct (H _ _ _ Hj) as (Hc & i & Hi & Hp). split; [done|].
    exists i. split; [done|]. by rewrite lookup_app_l by lia.
  - rewrite lookup_app_r in Hj by lia.
    destruct (Hn p ts) as [Hc Hp]; [by eapply list_elem_of_lookup_2|].
    split; [done|]. apply list_elem_of_lookup in Hp as [i Hi].
    exists i. pose proof (lookup_lt_Some _ _ _ Hi).
    split; [lia|]. by rewrite lookup_app_l by lia.
Qed.

Lemma ran_inv_step a sys sys' :
  ran_inv sys → step a sys = Some sys' → ran_inv sys'.
Proof.
  unfold ran_inv. intros [Hw Hc] Hstep.
  step_cases Hstep;
    rewrite ?cancelAll_closed, ?cancel_loop, ?deleteAll_closed; cbn;
    rewrite <- ?app_assoc; cbn;
    (split;
     [ intros ? ? ? Hnew Hperf;
       try (apply list_lookup_insert_Some in Hnew
              as [(-> & <- & _)|(Hne & Hnew)]);
       cbn in Hperf; simplify_eq;
       rewrite ?elem_of_app;
       first [ by (eapply Hw; [eassumption|])
             | left; by (eapply Hw; [eassumption|])
             | right; by apply list_elem_of_here
             | idtac ]
     | first [done|apply completed_after_run_app; [done|]];
       intros ? ? ?;
       repeat match goal with
              | H : _ ∈ [] |- _ => by apply elem_of_nil in H
              | H : _ ∈ _ :: _ |- _ => apply elem_of_cons in H as [H|H]
              | H : _ ∈ _ ++ _ |- _ => apply elem_of_app in H as [H|H]
              | H : _ ∈ _ <$> _ |- _ =>
                  apply list_elem_of_fmap in H as (? & ? & ?)
              end;
       try done; simplify_eq;
       (split; [done|]); by (eapply Hw; [eassumption|]) ]).
  apply lookup_app_Some in Hnew as [Hnew|[_ Hnew]].
  - left. by eapply Hw.
  - by apply lookup_replicate_1 in Hnew as [-> _].
Qed.

(** X17.  Along every schedule [updateTaskStatus] is called with a status marked
    complete, and only for an entry whose [performTask] was called before:
    a task that never ran gets no such status, also not when the queue is
    destroyed. *)
Theorem completion_after_run (nThreads : nat) (sys : System)
    (Hreach : reachable nThreads sys) :
  ∀ j p ts,
    trace (shared sys) !! j = Some (EvUpdateTaskStatus p ts) →
    TaskStatus.complete ts = true
    ∧ ∃ i, (i < j)%nat ∧ trace (shared sys) !! i = Some (EvPerformTask p).
Proof.
  cut (ran_inv sys); [by intros [_ ?]|].
  revert sys Hreach. apply reachable_invariant.
  - split; [|done]. unfold TaskQueue. cbn. intros i pc p Hi.
    by apply lookup_replicate_1 in Hi as [-> _].
  - intros a s1 s2. apply ran_inv_step.
Qed.

Lemma completion_after_run_witness :
  ∃ i, (i < 9)%nat
       ∧ trace (shared (sampleSystem 27)) !! i = Some (EvPerformTask 2).
Proof.
  assert (reachable 1 (sampleSystem 27)) as Hreach
    by (exists (take 27 sampleSchedule); vm_compute; reflexivity).
  exact (proj2 (completion_after_run 1 (sampleSystem 27) Hreach 9 2%positive
                  (TaskStatus.mk 8 "Queued." false true 0) eq_refl)).
Defined.

(** ** No thread blocks while it owns the registry mutex *)



(** ** The destructor comes to its end *)













Section Retire.
Context (nThreads : nat) (i : nat).
Implicit Types (sys : System).










End Retire.

(** *** The owner of the mutex lets go of it *)





(** *** The destructor cancels and waits *)


(** *** The workers leave *)



(** *** The housekeeping thread leaves *)







(** *** The end *)


